(** * tos-parse: the Talend job model, rule engine and project registry

    A shallow embedding of [talend.py]: the job document parser
    ([TalendJob.parse]), the rule engine ([TalendJob.review]), the
    query dumps and the project registry ([TalendProject]), and of the
    command line of [review.py], followed by the properties of the
    design that were checked against it and by further properties of
    the code.

    Conventions of the embedding:
    - a Python [dict] is an insertion-ordered association list with
      unique keys ([dict_set] overwrites in place or appends);
    - an exception is an outcome [Raise e s] that carries the state
      reached when it was raised (Python does not roll back);
    - the parameter dictionaries of context groups are shared objects:
      they live in a heap and are referred to by address, because
      [get_merged_context] hands them around and writes through them;
    - recursion over the job-invocation graph is unguarded in the
      source; the embedding takes the remaining recursion depth as an
      argument and raises [RecursionError] when it is exhausted, as the
      interpreter does. *)

From Stdlib Require Import String Ascii List Bool Arith Lia QArith Qcanon.
From stdpp Require Import base decidable option numbers list strings gmap.

Close Scope Q_scope.
Close Scope Qc_scope.

Local Open Scope string_scope.
Local Open Scope list_scope.

(** ** Strings as Python uses them *)

Module PyStr.

(** [sub in s] *)
Fixpoint contains (sub s : string) : bool :=
  String.prefix sub s ||
  match s with
  | EmptyString => false
  | String _ s' => contains sub s'
  end.

Definition lower_ascii (c : ascii) : ascii :=
  let n := nat_of_ascii c in
  if (65 <=? n)%nat && (n <=? 90)%nat then ascii_of_nat (n + 32) else c.

Definition upper_ascii (c : ascii) : ascii :=
  let n := nat_of_ascii c in
  if (97 <=? n)%nat && (n <=? 122)%nat then ascii_of_nat (n - 32) else c.

Fixpoint map_chars (f : ascii -> ascii) (s : string) : string :=
  match s with
  | EmptyString => EmptyString
  | String c s' => String (f c) (map_chars f s')
  end.

(** [s.lower()] and [s.upper()] *)
Definition lower : string -> string := map_chars lower_ascii.
Definition upper : string -> string := map_chars upper_ascii.

Definition dquote : ascii := "034"%char.

(** [s.replace(q, '')] where [q] is the double-quote character *)
Fixpoint remove_dquotes (s : string) : string :=
  match s with
  | EmptyString => EmptyString
  | String c s' =>
      if Ascii.eqb c dquote then remove_dquotes s'
      else String c (remove_dquotes s')
  end.

Fixpoint lstrip_dquotes (s : string) : string :=
  match s with
  | EmptyString => EmptyString
  | String c s' => if Ascii.eqb c dquote then lstrip_dquotes s' else s
  end.

Fixpoint rev_string (acc s : string) : string :=
  match s with
  | EmptyString => acc
  | String c s' => rev_string (String c acc) s'
  end.

(** [s.strip(q)] where [q] is the double-quote character *)
Definition strip_dquotes (s : string) : string :=
  rev_string "" (lstrip_dquotes (rev_string "" (lstrip_dquotes s))).

(** [s.split(sep)[-1]] for a one-character separator: what follows
    the last separator, the whole string when there is none. *)
Fixpoint split_last_from (sep : ascii) (cur s : string) : string :=
  match s with
  | EmptyString => rev_string "" cur
  | String c s' =>
      if Ascii.eqb c sep then split_last_from sep "" s'
      else split_last_from sep (String c cur) s'
  end.

Definition split_last (sep : ascii) (s : string) : string :=
  split_last_from sep "" s.

(** [s[:-n]] for a positive [n] *)
Definition drop_last (n : nat) (s : string) : string :=
  String.substring 0 (String.length s - n) s.

(** truth value of a string *)
Definition truthy (s : string) : bool :=
  match s with EmptyString => false | _ => true end.

Definition newline : string := String "010"%char EmptyString.
Definition tab : string := String "009"%char EmptyString.

(** [sep.join(l)] *)
Fixpoint join (sep : string) (l : list string) : string :=
  match l with
  | [] => EmptyString
  | [x] => x
  | x :: l' => x ++ sep ++ join sep l'
  end.

(** whether the double-quote character occurs in [s] *)
Fixpoint has_dquote (s : string) : bool :=
  match s with
  | EmptyString => false
  | String c s' => Ascii.eqb c dquote || has_dquote s'
  end.

(** [c in s] for a character [c] *)
Fixpoint has_char (c : ascii) (s : string) : bool :=
  match s with
  | EmptyString => false
  | String c' s' => Ascii.eqb c' c || has_char c s'
  end.

End PyStr.

(** ** Insertion-ordered dictionaries *)

Section Dict.
Context {K V : Type} `{EqDecision K}.

Fixpoint dict_get (k : K) (d : list (K * V)) : option V :=
  match d with
  | [] => None
  | (k', v) :: d' => if decide (k = k') then Some v else dict_get k d'
  end.

(** [k in d] *)
Definition dict_has (k : K) (d : list (K * V)) : bool :=
  match dict_get k d with Some _ => true | None => false end.

(** [d[k] = v]: an existing key keeps its position *)
Fixpoint dict_set (k : K) (v : V) (d : list (K * V)) : list (K * V) :=
  match d with
  | [] => [(k, v)]
  | (k', v') :: d' =>
      if decide (k = k') then (k', v) :: d'
      else (k', v') :: dict_set k v d'
  end.

Definition dict_keys (d : list (K * V)) : list K := map fst d.

(** [d.update(e)] *)
Definition dict_update (d e : list (K * V)) : list (K * V) :=
  fold_left (fun acc kv => dict_set (fst kv) (snd kv) acc) e d.

End Dict.

(** ** Exceptions and the state-and-exception monad *)

Inductive exn : Type :=
| KeyError (key : string)
| IndexError
| ValueError (text : string)
| TypeError
| IOError (msg : string)
| XMLParseError
| ParseError (msg : string)
| UnboundLocalError (var : string)
| RecursionError.

(** A computation that cannot touch the state. *)
Inductive result (A : Type) : Type :=
| Done (a : A)
| Fail (e : exn).
Arguments Done {A} a.
Arguments Fail {A} e.

Inductive outcome (St A : Type) : Type :=
| Ok (a : A) (s : St)
| Raise (e : exn) (s : St).
Arguments Ok {St A} a s.
Arguments Raise {St A} e s.

Definition M (St A : Type) : Type := St -> outcome St A.

Definition ret {St A} (a : A) : M St A := fun s => Ok a s.
Definition raise {St A} (e : exn) : M St A := fun s => Raise e s.
Definition bind {St A B} (m : M St A) (k : A -> M St B) : M St B :=
  fun s => match m s with
           | Ok a s' => k a s'
           | Raise e s' => Raise e s'
           end.
Definition get {St} : M St St := fun s => Ok s s.
Definition put {St} (s : St) : M St unit := fun _ => Ok tt s.
Definition modify {St} (f : St -> St) : M St unit := fun s => Ok tt (f s).
Definition lift {St A} (r : result A) : M St A :=
  fun s => match r with Done a => Ok a s | Fail e => Raise e s end.

(** the state a computation leaves behind, however it ends *)
Definition state_of {St A} (o : outcome St A) : St :=
  match o with Ok _ s => s | Raise _ s => s end.

Declare Scope py_scope.
Delimit Scope py_scope with py.
Notation "'let*' x ':=' c 'in' k" := (bind c (fun x => k))
  (at level 10, x name, c at level 100, k at level 200) : py_scope.
Notation "c '>>' k" := (bind c (fun _ => k))
  (at level 100, k at level 200, right associativity) : py_scope.
Local Open Scope py_scope.

(** [for x in l: body x] *)
Fixpoint for_each {St A} (body : A -> M St unit) (l : list A) : M St unit :=
  match l with
  | [] => ret tt
  | x :: l' => body x >> for_each body l'
  end.

(** a loop that threads a local accumulator *)
Fixpoint for_acc {St A B} (body : B -> A -> M St B) (l : list A) (acc : B)
  : M St B :=
  match l with
  | [] => ret acc
  | x :: l' => let* acc' := body acc x in for_acc body l' acc'
  end.

(** the same for code that has no access to the state *)
Definition rbind {A B} (r : result A) (k : A -> result B) : result B :=
  match r with Done a => k a | Fail e => Fail e end.

Fixpoint rfold {A B} (body : B -> A -> result B) (l : list A) (acc : B)
  : result B :=
  match l with
  | [] => Done acc
  | x :: l' => rbind (body acc x) (rfold body l')
  end.

(** [d[k]], which raises [KeyError] on a missing key *)
Definition dict_item {V} (k : string) (d : list (string * V)) : result V :=
  match dict_get k d with
  | Some v => Done v
  | None => Fail (KeyError k)
  end.

(** ** XML elements, as [xml.etree.ElementTree] presents them *)

#[warnings="-register-all"]
Inductive Element : Type :=
  mkElement { tag : string;
              attrib : list (string * string);
              subelements : list Element }.

(** ** The source provider's file handle *)

(** [GitFile.get_stream] opens a pipe (or a file); what the embedding
    keeps of it is the document [ET.parse] reads from the stream
    ([None] when it is not well-formed XML) and whether [close]
    returned [None]. *)
Record GitFile : Type :=
  mkGitFile { child : string;
              document : option Element;
              close_is_None : bool }.

(** ** Shared parameter dictionaries *)

(** The parameter dictionary of a context group is an object; a job's
    [context] maps the group name to its address. *)
Definition addr : Type := nat.
Definition Heap : Type := list (list (string * string)).

Definition heap_read (h : Heap) (a : addr) : list (string * string) :=
  nth a h [].

Fixpoint heap_write (h : Heap) (a : addr) (d : list (string * string))
  : Heap :=
  match h, a with
  | [], _ => []
  | _ :: h', O => d :: h'
  | x :: h', S a' => x :: heap_write h' a' d
  end.

Definition heap_alloc (h : Heap) (d : list (string * string))
  : Heap * addr :=
  (h ++ [d], length h).

(** ** Review results *)

Record Violation : Type :=
  mkViolation { component : option string;
                vtype : option string;
                message : string }.

(** What a rule identifier maps to: a list of violations, or (after
    merging results of different shapes) a dictionary again. *)
#[warnings="-register-all"]
Inductive rvalue : Type :=
| RList (l : list Violation)
| RDict (d : list (string * rvalue)).

Definition rvalue_truthy (v : rvalue) : bool :=
  match v with
  | RList [] => false
  | RDict [] => false
  | _ => true
  end.

(** Python objects that end up in the list of database endpoints, or
    are compared with its elements. *)
Inductive pyobj : Type :=
| PyStr (s : string)
| PyTuple3 (host dbname : string) (user : option string).

Global Instance pyobj_eq_dec : EqDecision pyobj.
Proof. solve_decision. Defined.

(** [x in l] on a list *)
Definition py_in (x : pyobj) (l : list pyobj) : bool :=
  existsb (fun y => bool_decide (x = y)) l.

(** ** class TalendJob *)

Module TalendJob.

Record t : Type :=
  mk { name : string;
       path : string;
       version : option Qc;
       nodes : list (string * list (string * string));
       connections : list (option string * string);
       context : list (string * addr);
       children : list string;
       gitfile : GitFile;
       use_teradata : option bool;
       use_files : bool;
       parsed : bool;
       tables : gset string;
       (** instrumentation: how often [gitfile.get_stream()] was called *)
       stream_opens : nat }.

Definition set_nodes v (j : t) : t :=
  mk (name j) (path j) (version j) v (connections j) (context j)
     (children j) (gitfile j) (use_teradata j) (use_files j) (parsed j)
     (tables j) (stream_opens j).
Definition set_connections v (j : t) : t :=
  mk (name j) (path j) (version j) (nodes j) v (context j)
     (children j) (gitfile j) (use_teradata j) (use_files j) (parsed j)
     (tables j) (stream_opens j).
Definition set_context v (j : t) : t :=
  mk (name j) (path j) (version j) (nodes j) (connections j) v
     (children j) (gitfile j) (use_teradata j) (use_files j) (parsed j)
     (tables j) (stream_opens j).
Definition set_children v (j : t) : t :=
  mk (name j) (path j) (version j) (nodes j) (connections j) (context j)
     v (gitfile j) (use_teradata j) (use_files j) (parsed j)
     (tables j) (stream_opens j).
Definition set_gitfile v (j : t) : t :=
  mk (name j) (path j) (version j) (nodes j) (connections j) (context j)
     (children j) v (use_teradata j) (use_files j) (parsed j)
     (tables j) (stream_opens j).
Definition set_use_teradata v (j : t) : t :=
  mk (name j) (path j) (version j) (nodes j) (connections j) (context j)
     (children j) (gitfile j) v (use_files j) (parsed j)
     (tables j) (stream_opens j).
Definition set_use_files v (j : t) : t :=
  mk (name j) (path j) (version j) (nodes j) (connections j) (context j)
     (children j) (gitfile j) (use_teradata j) v (parsed j)
     (tables j) (stream_opens j).
Definition set_parsed v (j : t) : t :=
  mk (name j) (path j) (version j) (nodes j) (connections j) (context j)
     (children j) (gitfile j) (use_teradata j) (use_files j) v
     (tables j) (stream_opens j).
Definition set_tables v (j : t) : t :=
  mk (name j) (path j) (version j) (nodes j) (connections j) (context j)
     (children j) (gitfile j) (use_teradata j) (use_files j) (parsed j)
     v (stream_opens j).
Definition set_stream_opens v (j : t) : t :=
  mk (name j) (path j) (version j) (nodes j) (connections j) (context j)
     (children j) (gitfile j) (use_teradata j) (use_files j) (parsed j)
     (tables j) v.

(** A method runs on the job and on the heap of shared dictionaries. *)
Definition St : Type := (t * Heap)%type.

Definition on_self (f : t -> t) : M St unit :=
  modify (fun s => (f (fst s), snd s)).

(** truth value of [self.use_teradata], which is [None] before
    parsing *)
Definition flag_truthy (f : option bool) : bool :=
  match f with Some true => true | _ => false end.

(** lines 320-324: the parameter map of a node element *)
Definition collect_params (node : Element)
  : result (list (string * string)) :=
  rfold
    (fun params element =>
       if PyStr.contains "elementParameter" (tag element)
          && dict_has "value" (attrib element)
       then rbind (dict_item "value" (attrib element)) (fun v =>
            rbind (dict_item "name" (attrib element)) (fun n =>
            Done (dict_set n v params)))
       else Done params)
    (subelements node) [].

(** ['ACTIVATE' in params and params['ACTIVATE'] == 'false'] *)
Definition node_disabled (params : list (string * string)) : bool :=
  match dict_get "ACTIVATE" params with
  | Some v => String.eqb v "false"
  | None => false
  end.

(** lines 320-346 *)
Definition parse_node (node : Element) : M St unit :=
  let* params := lift (collect_params node) in
  if node_disabled params then ret tt
  else
    let* cn := lift (dict_item "componentName" (attrib node)) in
    let params := dict_set "_componentName" cn params in
    on_self (fun j =>
      if negb (flag_truthy (use_teradata j))
         && PyStr.contains "teradata" (PyStr.lower cn)
      then set_use_teradata (Some true) j else j) >>
    on_self (fun j =>
      if negb (use_files j) && PyStr.contains "file" (PyStr.lower cn)
      then set_use_files true j else j) >>
    let* un := lift (dict_item "UNIQUE_NAME" params) in
    on_self (fun j => set_nodes (dict_set un params (nodes j)) j) >>
    (if String.eqb cn "tRunJob"
     then let* p := lift (dict_item "PROCESS" params) in
          on_self (fun j => set_children (children j ++ [p]) j)
     else ret tt) >>
    let dbname := default "" (dict_get "DBNAME" params) in
    match dict_get "TABLE" params with
    | Some table =>
        if PyStr.truthy table
        then on_self (fun j =>
               set_tables
                 ({[ PyStr.remove_dquotes (dbname ++ "." ++ table) ]}
                  ∪ tables j) j)
        else ret tt
    | None => ret tt
    end.

(** lines 349-359 *)
Definition parse_connection (node : Element) : M St unit :=
  let* connection_type := lift (dict_item "connectorName" (attrib node)) in
  let* found :=
    lift (rfold
      (fun (acc : option string * option string) element =>
         if PyStr.contains "elementParameter" (tag element)
         then rbind (dict_item "name" (attrib element)) (fun n =>
              if String.eqb n "ACTIVATE"
              then rbind (dict_item "value" (attrib element)) (fun v =>
                   Done (Some v, snd acc))
              else if String.eqb n "UNIQUE_NAME"
              then rbind (dict_item "value" (attrib element)) (fun v =>
                   Done (fst acc, Some v))
              else Done acc)
         else Done acc)
      (subelements node) (None, None)) in
  let connection_activated := fst found in
  let connection_name := snd found in
  if bool_decide (connection_activated = Some "true")
  then on_self (fun j =>
         set_connections
           (dict_set connection_name connection_type (connections j)) j)
  else ret tt.

(** lines 361-365 *)
Definition parse_context (node : Element) : M St unit :=
  let* context_name := lift (dict_item "name" (attrib node)) in
  let* params :=
    lift (rfold
      (fun params context_param =>
         rbind (dict_item "value" (attrib context_param)) (fun v =>
         rbind (dict_item "name" (attrib context_param)) (fun n =>
         Done (dict_set n v params))))
      (subelements node) []) in
  modify (fun s : St =>
    let (h, a) := heap_alloc (snd s) params in
    (set_context (dict_set context_name a (context (fst s))) (fst s), h)).

(** the body of the loop of lines 318-365 *)
Definition parse_element (node : Element) : M St unit :=
  if PyStr.contains "node" (tag node) then parse_node node
  else if PyStr.contains "connection" (tag node) then parse_connection node
  else if PyStr.contains "context" (tag node) then parse_context node
  else ret tt.

(** lines 314-370: what [parse] does with the document it read *)
Definition parse_document (root : Element) : M St unit :=
  on_self (set_use_teradata (Some false)) >>
  on_self (set_use_files false) >>
  for_each parse_element (subelements root) >>
  on_self (set_parsed true).

(** [parse], lines 305-370.  When [stream.close()] does not return
    [None] the source builds its message by adding a string and the
    [GitFile] object, which raises [TypeError]. *)
Definition parse : M St unit :=
  let* s := get in
  if parsed (fst s) then ret tt
  else
    on_self (fun j => set_stream_opens (S (stream_opens j)) j) >>
    match document (gitfile (fst s)) with
    | None => raise XMLParseError
    | Some root =>
        if negb (close_is_None (gitfile (fst s))) then raise TypeError
        else parse_document root
    end.

(** [__init__], lines 271-284 *)
Definition init (name path : string) (gitfile : GitFile)
    (version : option Qc) (do_parse : bool) : M Heap t :=
  fun h =>
    let j := mk name path version [] [] [] [] gitfile None false false
                ∅ 0 in
    if do_parse
    then match parse (j, h) with
         | Ok _ s => Ok (fst s) (snd s)
         | Raise e s => Raise e (snd s)
         end
    else Ok j h.

(** *** The rule engine *)

(** lines 373-390 *)
Definition check_params : list (string * string) :=
  [ ("DIE_ON_ERROR", "true");
    ("DIE_ON_CHILD_ERROR", "true");
    ("USE_INDEPENDENT_PROCESS", "false");
    ("TRANSMIT_ORIGINAL_CONTEXT", "true");
    ("TRANSMIT_WHOLE_CONTEXT", "true") ].

Definition file_params : list (string * string) :=
  [ ("CREATEDIR", "false");
    ("CREATE", "false");
    ("MKDIR", "false");
    ("CREATE_DIRECTORY", "false") ].

Definition edw_params : list (string * list string) :=
  [ ("HOST", ["context.EDW_HOST"]);
    ("USER", ["context.EDW_USER"]);
    ("PASS", ["context.EDW_PASS";
              "4D9onkGJm3fNdrQLmTZZevT3q6F0Z4TqEncrypt"]) ].

Definition edw_context : list string :=
  [ "EDW_HOST"; "EDW_USER"; "EDW_PASS" ].

(** [results]: rule identifier -> job name -> violations *)
Definition Results : Type :=
  list (string * list (string * list Violation)).

(** ["Value '{0}' must be set to '{1}' (actual: '{2}')".format(...)] *)
Definition must_be_set (param expected actual : string) : string :=
  "Value '" ++ param ++ "' must be set to '" ++ expected
    ++ "' (actual: '" ++ actual ++ "')".

(** [results[rule][name].append(v)]; the list is looked up before
    the violation [v] is built *)
Definition append_violation (rule name : string) (v : result Violation)
    (results : Results) : result Results :=
  rbind (dict_item rule results) (fun inner =>
  rbind (dict_item name inner) (fun l =>
  rbind v (fun v =>
  Done (dict_set rule (dict_set name (l ++ [v]) inner) results)))).

(** lines 401-406 *)
Definition initial_results (name : string) : Results :=
  let fresh (k : string) : string * list (string * list Violation) :=
    (k, [(name, [])]) in
  let results := map fresh (dict_keys check_params) in
  let results := dict_update results (map fresh (dict_keys edw_params)) in
  let results := dict_update results (map fresh (dict_keys file_params)) in
  let results := dict_set "ON_COMPONENT_ERROR" [(name, [])] results in
  let results := dict_set "CONTEXT" [(name, [])] results in
  dict_set "QUERY" [(name, [])] results.

(** lines 419-426 and 446-453: a table of expected literals *)
Definition check_literals (table : list (string * string))
    (name node : string) (p : list (string * string)) (results : Results)
  : result Results :=
  rfold
    (fun results (entry : string * string) =>
       let param := fst entry in
       let expected := snd entry in
       match dict_get param p with
       | Some actual =>
           if negb (String.eqb actual expected)
           then append_violation param name
                  (Done (mkViolation (Some node) None
                           (must_be_set param expected actual)))
                  results
           else Done results
       | None => Done results
       end)
    table results.

(** lines 430-442 *)
Definition check_edw (name node : string) (p : list (string * string))
    (results : Results) : result Results :=
  rfold
    (fun results (entry : string * list string) =>
       let param := fst entry in
       let accepted := snd entry in
       match dict_get param p with
       | Some actual =>
           if negb (existsb (String.eqb actual) accepted)
           then
             let msg := if PyStr.contains "Encrypt" actual
                        then "*ENCRYPTED*" else actual in
             append_violation param name
               (rbind (dict_item "TYPE" p) (fun ty =>
                match accepted with
                | first :: _ =>
                    Done (mkViolation (Some node) (Some ty)
                            (must_be_set param first msg))
                | [] => Fail IndexError
                end))
               results
           else Done results
       | None => Done results
       end)
    edw_params results.

(** the body of the loop of lines 408-453 *)
Definition review_node (j : t) (results : Results)
    (entry : string * list (string * string)) : result Results :=
  let node := fst entry in
  let p := snd entry in
  if node_disabled p then Done results
  else
    rbind (check_literals check_params (name j) node p results)
      (fun results =>
    rbind
      (if flag_truthy (use_teradata j)
       then rbind (dict_item "_componentName" p) (fun cn =>
            if PyStr.contains "teradata" (PyStr.lower cn)
               && (negb (dict_has "USE_EXISTING_CONNECTION" p)
                   || bool_decide
                        (dict_get "USE_EXISTING_CONNECTION" p
                         = Some "false"))
            then check_edw (name j) node p results
            else Done results)
       else Done results)
      (fun results =>
    if use_files j
    then check_literals file_params (name j) node p results
    else Done results)).

(** lines 456-465; [ctx_keys] is bound by the first iteration of the
    loop over the context groups, if there is one *)
Definition check_context (j : t) (h : Heap) (results : Results)
  : result Results :=
  if flag_truthy (use_teradata j)
  then
    let ctx_keys : option (list string) :=
      match context j with
      | [] => None
      | (_, a) :: _ => Some (dict_keys (heap_read h a))
      end in
    rfold
      (fun results ctx_key =>
         match ctx_keys with
         | None => Fail (UnboundLocalError "ctx_keys")
         | Some keys =>
             if negb (existsb (String.eqb ctx_key) keys)
             then append_violation "CONTEXT" (name j)
                    (Done (mkViolation (Some "Context") None
                             ("Teradata job detected but missing context parameter '"
                                ++ ctx_key ++ "'")))
                    results
             else Done results
         end)
      edw_context results
  else Done results.

(** lines 468-473 *)
Definition check_connections (j : t) (results : Results)
  : result Results :=
  rfold
    (fun results (entry : option string * string) =>
       if String.eqb (snd entry) "COMPONENT_ERROR"
          || String.eqb (snd entry) "ON_COMPONENT_ERROR"
       then append_violation "ON_COMPONENT_ERROR" (name j)
              (Done (mkViolation (fst entry) None
                       "'OnComponentError' trigger depreciated. Use 'if' trigger instead."))
              results
       else Done results)
    (connections j) results.

(** line 476: the rules with a violation *)
Definition nonempty_results (name : string) (results : Results)
  : result (list (string * list (string * rvalue))) :=
  rfold
    (fun out (entry : string * list (string * list Violation)) =>
       rbind (dict_item name (snd entry)) (fun l =>
       match l with
       | [] => Done out
       | _ :: _ =>
           Done (dict_set (fst entry)
                   (map (fun kv => (fst kv, RList (snd kv))) (snd entry))
                   out)
       end))
    results [].

(** [review] once the job is parsed, lines 401-476 *)
Definition review_parsed (j : t) (h : Heap)
  : result (list (string * list (string * rvalue))) :=
  rbind (rfold (review_node j) (nodes j) (initial_results (name j)))
    (fun results =>
  rbind (check_context j h results) (fun results =>
  rbind (check_connections j results) (fun results =>
  nonempty_results (name j) results))).

(** [review], lines 392-476 *)
Definition review : M St (list (string * list (string * rvalue))) :=
  let* s := get in
  (if parsed (fst s) then ret tt else parse) >>
  let* s := get in
  lift (review_parsed (fst s) (snd s)).

(** the body of the loop of lines 483-492 *)
Definition database_info_node (info : list pyobj)
    (node : list (string * string)) : list pyobj :=
  if bool_decide (dict_get "USE_EXISTING_CONNECTION" node = Some "true")
  then info
  else
    let host := option_map PyStr.upper (dict_get "HOST" node) in
    let dbname :=
      option_map (fun d => PyStr.upper (PyStr.strip_dquotes d))
                 (dict_get "DBNAME" node) in
    let user := dict_get "USER" node in
    match host, dbname with
    | Some hst, Some db =>
        if PyStr.truthy hst && PyStr.truthy db
        then info ++ [PyTuple3 hst db user]
        else info
    | _, _ => info
    end.

(** [get_database_info], lines 478-494 *)
Definition get_database_info : M St (list pyobj) :=
  let* s := get in
  (if parsed (fst s) then ret tt else parse) >>
  let* s := get in
  ret (fold_left database_info_node (map snd (nodes (fst s))) []).

(** lines 514-515 *)
Definition sql_header (name node schema : string) : string :=
  "-- Job Name:" ++ PyStr.tab ++ name ++ PyStr.newline
  ++ "-- Component:" ++ PyStr.tab ++ node ++ PyStr.newline
  ++ "-- Schema:" ++ PyStr.tab ++ schema.

(** the body of the loop of lines 501-518 *)
Definition dump_sql_node (header : bool) (name : string) (ret : list string)
    (entry : string * list (string * string)) : list string :=
  let node := fst entry in
  let p := snd entry in
  if node_disabled p then ret
  else
    match dict_get "QUERY" p with
    | Some query =>
        let schema := default "???" (dict_get "DBNAME" p) in
        let ret := if header then ret ++ [sql_header name node schema]
                   else ret in
        ret ++ [PyStr.remove_dquotes query]
    | None => ret
    end.

(** [dump_sql], lines 496-520 *)
Definition dump_sql (header : bool) : M St string :=
  let* s := get in
  (if parsed (fst s) then ret tt else parse) >>
  let* s := get in
  ret (PyStr.join PyStr.newline
         (fold_left (dump_sql_node header (name (fst s)))
                    (nodes (fst s)) [])).

(** the body of the loop of lines 527-539 *)
Definition dump_sql_structured_node (ret : list (string * (string * string)))
    (entry : string * list (string * string))
  : list (string * (string * string)) :=
  let node := fst entry in
  let p := snd entry in
  if node_disabled p then ret
  else
    match dict_get "QUERY" p with
    | Some query =>
        let schema := default "???" (dict_get "DBNAME" p) in
        dict_set node (schema, PyStr.remove_dquotes query) ret
    | None => ret
    end.

(** [dump_sql_structured], lines 522-541; the argument [header] is not
    used *)
Definition dump_sql_structured (header : bool)
  : M St (list (string * (string * string))) :=
  let* s := get in
  (if parsed (fst s) then ret tt else parse) >>
  let* s := get in
  ret (fold_left dump_sql_structured_node (nodes (fst s)) []).

End TalendJob.

(** ** class TalendProject *)

(** The nested mapping [tree_view] returns. *)
#[warnings="-register-all"]
Inductive tree : Type :=
| Tree (d : list (string * tree)).

Module TalendProject.

(** A version registry [{LATEST: version, v1: path, ...}] mixes the
    key ['LATEST'] with the version numbers, and paths with a number
    among its values. *)
Inductive vkey : Type :=
| LATEST
| Ver (v : Qc).

Inductive vval : Type :=
| ItemPath (p : string)
| Number (v : Qc).

Global Instance vkey_eq_dec : EqDecision vkey.
Proof. solve_decision. Defined.

(** What the source provider answers at the project's reference. *)
Record Provider : Type :=
  mkProvider { item_paths : result (list string);
               tags : list string;
               author_line : string;
               project_file : GitFile;
               item_file : string -> GitFile }.

Record t : Type :=
  mk { git_tags : list string;
       author : string;
       jobs : list (string * TalendJob.t);
       versions : list (string * list (vkey * vval));
       talend_version : option string;
       project_name : option string;
       (** the shared parameter dictionaries of all jobs *)
       heap : Heap }.

Definition set_jobs v (s : t) : t :=
  mk (git_tags s) (author s) v (versions s) (talend_version s)
     (project_name s) (heap s).
Definition set_versions v (s : t) : t :=
  mk (git_tags s) (author s) (jobs s) v (talend_version s)
     (project_name s) (heap s).
Definition set_talend_version v (s : t) : t :=
  mk (git_tags s) (author s) (jobs s) (versions s) v
     (project_name s) (heap s).
Definition set_project_name v (s : t) : t :=
  mk (git_tags s) (author s) (jobs s) (versions s) (talend_version s)
     v (heap s).
Definition set_heap v (s : t) : t :=
  mk (git_tags s) (author s) (jobs s) (versions s) (talend_version s)
     (project_name s) v.

(** lines 53-63: one discovered item enters the version registry *)
Definition register_version (name : string) (version : Qc) (i : string)
    (versions : list (string * list (vkey * vval)))
  : result (list (string * list (vkey * vval))) :=
  match dict_get name versions with
  | Some reg =>
      rbind
        (match dict_get LATEST reg with
         | Some (Number latest) =>
             if bool_decide (latest < version)%Qc
             then Done (dict_set LATEST (Number version) reg)
             else Done reg
         | Some (ItemPath _) => Fail TypeError
         | None => Done reg
         end)
        (fun reg =>
      Done (dict_set name (dict_set (Ver version) (ItemPath i) reg)
              versions))
  | None =>
      Done (dict_set name
              [(Ver version, ItemPath i); (LATEST, Number version)]
              versions)
  end.

(** the body of the loop of lines 52-66; [float] is Python's
    conversion, [None] where it raises [ValueError] *)
Definition load_item (float : string -> option Qc) (src : Provider)
    (i : string) : M t unit :=
  let name := PyStr.drop_last 9 (PyStr.split_last "/"%char i) in
  let text := PyStr.drop_last 5 (PyStr.split_last "_"%char i) in
  match float text with
  | None => raise (ValueError text)
  | Some version =>
      let* s := get in
      let* versions := lift (register_version name version i (versions s)) in
      modify (set_versions versions) >>
      let* s := get in
      match TalendJob.init name i (item_file src i) (Some version) false
              (heap s) with
      | Ok j h => put (set_heap h (set_jobs (dict_set i j (jobs s)) s))
      | Raise e h => fun s => Raise e (set_heap h s)
      end
  end.

(** [__init__] and [_load], lines 9-66 *)
Definition load (float : string -> option Qc) (src : Provider)
  : outcome t unit :=
  let self := mk [] "" [] [] None None [] in
  (let* items := lift (item_paths src) in
   modify (fun s => mk (tags src) (author_line src) (jobs s) (versions s)
                       (talend_version s) (project_name s) (heap s)) >>
   match document (project_file src) with
   | None => raise XMLParseError
   | Some root =>
       if negb (close_is_None (project_file src))
       then raise (IOError "Problem reading talend.project file")
       else
         match subelements root with
         | [] => raise IndexError
         | first :: _ =>
             match dict_get "productVersion" (attrib first) with
             | Some v => modify (set_talend_version (Some v))
             | None => raise (ParseError "Unknown Talend version. Cannot parse!")
             end >>
             match dict_get "technicalLabel" (attrib first) with
             | Some v => modify (set_project_name (Some v))
             | None =>
                 raise (ParseError "Couldn't find Talend project name. XML corrupt?")
             end >>
             for_each (load_item float src) items
         end
   end) self.

(** [__getitem__], lines 69-74.  Jobs are objects held by [self.jobs];
    the embedding returns the key under which the job is held. *)
Definition getitem (job_name : string) : M t string :=
  let* s := get in
  if PyStr.contains "item" job_name
  then
    match dict_get job_name (jobs s) with
    | Some _ => ret job_name
    | None => raise (KeyError job_name)
    end
  else
    match dict_get job_name (versions s) with
    | None => raise (KeyError job_name)
    | Some reg =>
        match dict_get LATEST reg with
        | None => raise (KeyError "LATEST")
        | Some (Number v) =>
            match dict_get (Ver v) reg with
            | Some (ItemPath p) =>
                match dict_get p (jobs s) with
                | Some _ => ret p
                | None => raise (KeyError p)
                end
            | Some (Number _) => raise (KeyError job_name)
            | None => raise (KeyError job_name)
            end
        | Some (ItemPath _) => raise (KeyError job_name)
        end
    end.

(** reading an attribute of the job held under [p] *)
Definition job_at (p : string) : M t TalendJob.t :=
  let* s := get in
  lift (dict_item p (jobs s)).

(** calling a method of the job held under [p] *)
Definition on_job {A} (p : string) (m : M TalendJob.St A) : M t A :=
  fun s =>
    match dict_get p (jobs s) with
    | None => Raise (KeyError p) s
    | Some j =>
        match m (j, heap s) with
        | Ok a s' =>
            Ok a (set_heap (snd s') (set_jobs (dict_set p (fst s') (jobs s)) s))
        | Raise e s' =>
            Raise e (set_heap (snd s') (set_jobs (dict_set p (fst s') (jobs s)) s))
        end
    end.

(** truth value of an optional job name *)
Definition given (job : option string) : option string :=
  match job with
  | Some j => if PyStr.truthy j then Some j else None
  | None => None
  end.

(** *** Aggregation over the job-invocation graph *)

(** a review result: identifier -> key -> list or dictionary *)
Definition Review : Type := list (string * list (string * rvalue)).

(** lines 154-158 *)
Definition merge_child_errs (ret child_errs : Review) : Review :=
  fold_left
    (fun ret (entry : string * list (string * rvalue)) =>
       let err := fst entry in
       match dict_get err ret with
       | None => dict_set err (snd entry) ret
       | Some inner => dict_set err (dict_update inner (snd entry)) ret
       end)
    child_errs ret.

(** [review], lines 144-164 *)
Fixpoint review (depth : nat) (job : option string) (children : bool)
  : M t Review :=
  match depth with
  | O => raise RecursionError
  | S depth' =>
      match given job with
      | Some job =>
          let* p := getitem job in
          let* own := on_job p TalendJob.review in
          if children
          then
            let* p := getitem job in
            let* j := job_at p in
            for_acc
              (fun acc child =>
                 let* child_errs := review depth' (Some child) true in
                 ret (merge_child_errs acc child_errs))
              (TalendJob.children j) own
          else ret own
      | None =>
          let* s := get in
          for_acc
            (fun acc item =>
               let* p := getitem item in
               let* r := on_job p TalendJob.review in
               let* j := job_at p in
               ret (dict_set (TalendJob.name j)
                      (map (fun kv => (fst kv, RDict (snd kv))) r) acc))
            (dict_keys (versions s)) []
      end
  end.

(** the loop of lines 215-217: parameters of the child's group that
    the group at [a] lacks are written into the dictionary at [a] *)
Definition merge_params (a : addr) (child_params : list (string * string))
  : M t unit :=
  for_each
    (fun (entry : string * string) =>
       modify (fun s =>
         let d := heap_read (heap s) a in
         if negb (dict_has (fst entry) d)
         then set_heap (heap_write (heap s) a
                          (dict_set (fst entry) (snd entry) d)) s
         else s))
    child_params.

(** [get_merged_context], lines 205-220.  [ctx] maps a group name to
    the address of a dictionary: line 208 and line 219 store the
    job's, or the child's, own dictionary object. *)
Fixpoint get_merged_context (depth : nat) (job : string)
  : M t (list (string * addr)) :=
  match depth with
  | O => raise RecursionError
  | S depth' =>
      let* p := getitem job in
      let* j := job_at p in
      let ctx :=
        fold_left (fun ctx (entry : string * addr) =>
                     dict_set (fst entry) (snd entry) ctx)
                  (TalendJob.context j) [] in
      let* p := getitem job in
      let* j := job_at p in
      for_acc
        (fun ctx child =>
           let* child_contexts := get_merged_context depth' child in
           for_acc
             (fun ctx (entry : string * addr) =>
                match dict_get (fst entry) ctx with
                | Some a =>
                    let* s := get in
                    merge_params a (heap_read (heap s) (snd entry)) >>
                    ret ctx
                | None => ret (dict_set (fst entry) (snd entry) ctx)
                end)
             child_contexts ctx)
        (TalendJob.children j) ctx
  end.

(** [get_database_info], lines 223-239 *)
Fixpoint get_database_info (depth : nat) (job : option string)
    (children : bool) : M t (list pyobj) :=
  match depth with
  | O => raise RecursionError
  | S depth' =>
      match given job with
      | Some job =>
          let* p := getitem job in
          let* info := on_job p TalendJob.get_database_info in
          if children
          then
            let* p := getitem job in
            let* j := job_at p in
            for_acc
              (fun acc child =>
                 if py_in (PyStr child) acc
                 then ret acc
                 else
                   let* r := get_database_info depth' (Some child) true in
                   ret (acc ++ r))
              (TalendJob.children j) info
          else ret info
      | None =>
          let* s := get in
          for_acc
            (fun acc item =>
               let* p := getitem item in
               let* r := on_job p TalendJob.get_database_info in
               ret (acc ++ r))
            (dict_keys (versions s)) []
      end
  end.

(** the body of the loop of lines 244-249 *)
Definition mark_children (masters : list (string * bool)) (j : string)
  : M t (list (string * bool)) :=
  let* p := getitem j in
  let* job := job_at p in
  (if TalendJob.parsed job then ret tt
   else let* p := getitem j in on_job p TalendJob.parse) >>
  let* p := getitem j in
  let* job := job_at p in
  ret (fold_left (fun m child => dict_set child false m)
                 (TalendJob.children job) masters).

(** [get_master_jobs], lines 242-251 *)
Definition get_master_jobs : M t (list string) :=
  let* s := get in
  let masters := map (fun j => (j, true)) (dict_keys (versions s)) in
  let* masters := for_acc mark_children (dict_keys (versions s)) masters in
  ret (map fst (List.filter (fun e : string * bool => snd e) masters)).

(** [tree_view], lines 253-265 *)
Fixpoint tree_view (depth : nat) (root : option string)
  : M t (list (string * tree)) :=
  match depth with
  | O => raise RecursionError
  | S depth' =>
      let* s := get in
      if negb (match root with
               | Some r => dict_has r (versions s)
               | None => false
               end)
      then ret []
      else
        match given root with
        | Some root =>
            let* p := getitem root in
            let* j := job_at p in
            let* sub :=
              for_acc
                (fun sub child =>
                   let* t := tree_view depth' (Some child) in
                   let* c := lift (dict_item child t) in
                   ret (dict_set child c sub))
                (TalendJob.children j) [] in
            ret [(root, Tree sub)]
        | None =>
            let* masters := get_master_jobs in
            for_acc
              (fun acc master =>
                 let* t := tree_view depth' (Some master) in
                 ret (dict_update acc t))
              masters []
        end
  end.

(** [dump_sql], lines 166-178.  The job's own queries are dumped by
    [self[job].dump_sql()], without the argument [header]. *)
Fixpoint dump_sql (depth : nat) (job : option string)
    (children header : bool) : M t string :=
  match depth with
  | O => raise RecursionError
  | S depth' =>
      match given job, children with
      | Some job, true =>
          let* p := getitem job in
          let* own := on_job p (TalendJob.dump_sql false) in
          let* p := getitem job in
          let* j := job_at p in
          let* parts :=
            for_acc
              (fun parts child =>
                 let* r := dump_sql depth' (Some child) true header in
                 ret (parts ++ [r]))
              (TalendJob.children j) [own] in
          ret (PyStr.join PyStr.newline parts)
      | _, _ =>
          let* s := get in
          let* parts :=
            for_acc
              (fun parts item =>
                 let* p := getitem item in
                 let* r := on_job p (TalendJob.dump_sql header) in
                 ret (parts ++ [r]))
              (dict_keys (versions s)) [] in
          ret (PyStr.join PyStr.newline parts)
      end
  end.

(** [get_all_tables], lines 86-91.  The source returns [list(tables)],
    a list in an order the language leaves open; the embedding returns
    the set. *)
Definition get_all_tables : M t (gset string) :=
  let* s := get in
  for_acc
    (fun tables item =>
       let* p := getitem item in
       on_job p TalendJob.parse >>
       let* j := job_at p in
       ret (tables ∪ TalendJob.tables j))
    (dict_keys (versions s)) ∅.

(** [self[job]] where [job] may be [None]: the test ['item' in job]
    raises [TypeError] on [None] *)
Definition getitem_opt (job : option string) : M t string :=
  match job with
  | Some job => getitem job
  | None => raise TypeError
  end.

(** [x[0], x[1], x[2]] of an element of the endpoint list *)
Definition endpoint (x : pyobj)
  : result (string * string * option string) :=
  match x with
  | PyTuple3 host dbname user => Done (host, dbname, user)
  | PyStr (String a (String b (String c _))) =>
      Done (String a EmptyString, String b EmptyString,
            Some (String c EmptyString))
  | PyStr _ => Fail IndexError
  end.

(** The mapping [review_with_info] returns.  The entries [repo_path]
    and [commit_ref] repeat the arguments of the constructor and are
    left out. *)
Record Info : Type :=
  mkInfo { info_project_name : option string;
           info_author : string;
           info_git_tags : list string;
           info_talend_version : option string;
           info_job_name : string;
           info_errors : Review;
           info_dbinfo : list (string * string * option string);
           info_context : list (string * addr);
           info_tree : list (string * tree);
           info_job_version : option Qc }.

(** [review_with_info], lines 187-203.  The endpoints are taken from
    [set(dbinfo)], whose order of iteration the language leaves open;
    the embedding keeps the order of first occurrence. *)
Definition review_with_info (depth : nat) (job : option string)
    (children : bool) : M t Info :=
  let* dbinfo := get_database_info depth job children in
  let* dbinfo :=
    lift (rfold (fun acc x => rbind (endpoint x) (fun e => Done (acc ++ [e])))
                (remove_dups dbinfo) []) in
  let* s := get in
  let* p := getitem_opt job in
  let* j := job_at p in
  let job_name := TalendJob.name j in
  let* errors := review depth job children in
  let* context :=
    match job with
    | Some job => get_merged_context depth job
    | None => raise TypeError
    end in
  let* p := getitem_opt job in
  let* j := job_at p in
  let* tree := tree_view depth (Some (TalendJob.name j)) in
  let* p := getitem_opt job in
  let* j := job_at p in
  ret (mkInfo (project_name s) (author s) (git_tags s) (talend_version s)
         job_name errors dbinfo context tree (TalendJob.version j)).

End TalendProject.

(** ** review.py *)

Module Review.

(** what [main] hands to [json.dumps] *)
Inductive printed : Type :=
| PInfo (i : TalendProject.Info)
| PNames (l : list string)
| PTree (t : list (string * tree)).

(** [main], lines 7-36, called with the three arguments [REPO],
    [COMMIT ID] and [ITEM]; the first two select what the source
    provider answers.  [depth] is the recursion limit of the
    interpreter. *)
Definition main (depth : nat) (float : string -> option Qc)
    (src : TalendProject.Provider) (item_path : string)
  : outcome TalendProject.t printed :=
  match TalendProject.load float src with
  | Raise e s => Raise e s
  | Ok _ proj =>
      if String.eqb item_path "ALL"
      then (let* rev := TalendProject.review_with_info depth None false in
            ret (PInfo rev)) proj
      else if String.eqb item_path "LIST"
      then (let* s := get in
            let* rev :=
              for_acc
                (fun rev item =>
                   let* p := TalendProject.getitem item in
                   let* j := TalendProject.job_at p in
                   ret (rev ++ [TalendJob.name j]))
                (dict_keys (TalendProject.versions s)) [] in
            ret (PNames rev)) proj
      else if String.eqb item_path "TREE"
      then (let* rev := TalendProject.tree_view depth None in
            ret (PTree rev)) proj
      else (let* rev :=
              TalendProject.review_with_info depth (Some item_path) true in
            ret (PInfo rev)) proj
  end.

End Review.

(** ** A small project used to exercise the model *)

Module Scenario.

Definition param (n v : string) : Element :=
  mkElement "elementParameter"
    [("field", "TEXT"); ("name", n); ("value", v)] [].

Definition context_group (n : string) (ps : list (string * string))
  : Element :=
  mkElement "context" [("name", n)]
    (map (fun kv => mkElement "contextParameter"
                      [("name", fst kv); ("value", snd kv)] []) ps).

Definition run_job (unique target : string) : Element :=
  mkElement "node" [("componentName", "tRunJob")]
    [param "UNIQUE_NAME" unique; param "PROCESS" target].

(** job A invokes job B once *)
Definition docA : Element :=
  mkElement "talendfile:ProcessType" []
    [ context_group "Default" [("X", "1")];
      run_job "tRunJob_1" "B" ].

(** job A invokes job B from two components *)
Definition docA_twice : Element :=
  mkElement "talendfile:ProcessType" []
    [ context_group "Default" [("X", "1")];
      run_job "tRunJob_1" "B";
      run_job "tRunJob_2" "B" ].

(** job B: one component that does not die on error, one disabled
    component, one active error trigger *)
Definition docB : Element :=
  mkElement "talendfile:ProcessType" []
    [ context_group "Default" [("Y", "2")];
      mkElement "node" [("componentName", "tJava")]
        [param "UNIQUE_NAME" "tJava_1"; param "DIE_ON_ERROR" "false"];
      mkElement "node" [("componentName", "tTeradataInput")]
        [param "UNIQUE_NAME" "tTeradataInput_1";
         param "ACTIVATE" "false";
         param "DIE_ON_ERROR" "false";
         param "TABLE" "t"];
      mkElement "connection" [("connectorName", "COMPONENT_ERROR")]
        [param "UNIQUE_NAME" "OnComponentError1";
         param "ACTIVATE" "true"] ].

(** a job of the Teradata family that defines no context group *)
Definition docT : Element :=
  mkElement "talendfile:ProcessType" []
    [ mkElement "node" [("componentName", "tTeradataInput")]
        [param "UNIQUE_NAME" "tTeradataInput_1";
         param "HOST" "context.EDW_HOST";
         param "DBNAME" "EDW"] ].

(** a job whose second node lacks [UNIQUE_NAME] *)
Definition docBroken : Element :=
  mkElement "talendfile:ProcessType" []
    [ run_job "tRunJob_1" "B";
      mkElement "node" [("componentName", "tJava")]
        [param "DIE_ON_ERROR" "true"] ].

(** [float] on the version texts of the scenario *)
Definition float (text : string) : option Qc :=
  if String.eqb text "1.0" then Some (Q2Qc 1)
  else if String.eqb text "2.0" then Some (Q2Qc 2)
  else if String.eqb text "0.5" then Some (Q2Qc (1 # 2))
  else None.

Definition descriptor : GitFile :=
  mkGitFile "talend.project"
    (Some (mkElement "xmi:XMI" []
             [mkElement "TalendProperties:Project"
                [("productVersion", "6.2.1"); ("technicalLabel", "EDW")]
                []]))
    true.

Definition provider (a : Element) (items : list string)
  : TalendProject.Provider :=
  TalendProject.mkProvider (Done items) [] "dev <dev@example.org>"
    descriptor
    (fun p => if PyStr.contains "/A_" p
              then mkGitFile p (Some a) true
              else mkGitFile p (Some docB) true).

(** the project with the two jobs A (version 1.0) and B (version 2.0),
    as constructed, and after a review of A has parsed both jobs *)
Definition two_jobs : TalendProject.t :=
  state_of (TalendProject.load float
              (provider docA ["process/A_1.0.item"; "process/B_2.0.item"])).

Definition two_jobs_parsed : TalendProject.t :=
  state_of (TalendProject.review 3 (Some "A") true two_jobs).

Definition twice : TalendProject.t :=
  state_of (TalendProject.load float
              (provider docA_twice
                 ["process/A_1.0.item"; "process/B_2.0.item"])).




Definition fresh_job (doc : Element) : TalendJob.St :=
  (TalendJob.mk "B" "process/B_2.0.item" (Some (Q2Qc 2)) [] [] [] []
     (mkGitFile "process/B_2.0.item" (Some doc) true)
     None false false ∅ 0, []).


Definition parsed_B : TalendJob.St :=
  state_of (TalendJob.parse (fresh_job docB)).

Definition teradata_job : TalendJob.St :=
  state_of (TalendJob.parse (fresh_job docT)).

(** a job of the vendor family with one context group that lacks two
    of the required keys, and a node whose password is not a context
    reference *)
Definition docV : Element :=
  mkElement "talendfile:ProcessType" []
    [ context_group "Default" [("EDW_HOST", "edw.example.org")];
      mkElement "node" [("componentName", "tTeradataOutput")]
        [param "UNIQUE_NAME" "tTeradataOutput_1";
         param "TYPE" "Teradata";
         param "HOST" "context.EDW_HOST";
         param "USER" "context.EDW_USER";
         param "PASS" "q8JEncrypt";
         param "QUERY" "select 1";
         param "DBNAME" "EDW"] ].

Definition parsed_V : TalendJob.St :=
  state_of (TalendJob.parse (fresh_job docV)).

Definition review_of_V : list (string * list (string * rvalue)) :=
  match TalendJob.review (fresh_job docV) with
  | Ok res _ => res
  | Raise _ _ => []
  end.

(** two jobs that invoke each other, both parsed *)
Definition docBack : Element :=
  mkElement "talendfile:ProcessType" []
    [ run_job "tRunJob_1" "A" ].

Definition cyclic_provider : TalendProject.Provider :=
  TalendProject.mkProvider
    (Done ["process/A_1.0.item"; "process/B_2.0.item"]) []
    "dev <dev@example.org>" descriptor
    (fun p => if PyStr.contains "/A_" p
              then mkGitFile p (Some docA) true
              else mkGitFile p (Some docBack) true).

Definition cyclic : TalendProject.t :=
  state_of (TalendProject.get_master_jobs
              (state_of (TalendProject.load float cyclic_provider))).

(** job B as the project of the two parsed jobs holds it *)
Definition held_B : TalendJob.t :=
  default (fst parsed_B)
    (dict_get "process/B_2.0.item" (TalendProject.jobs two_jobs_parsed)).

(** what the review of job B returns *)
Definition review_of_B : list (string * list (string * rvalue)) :=
  match TalendJob.review (fresh_job docB) with
  | Ok res _ => res
  | Raise _ _ => []
  end.

End Scenario.

(** ** The design's reading of the aggregate operations *)

(** a postcondition on a computation that returns *)
Definition returns {St A} (P : A -> St -> Prop) (o : outcome St A) : Prop :=
  match o with
  | Ok a s => P a s
  | Raise _ _ => True
  end.

Definition is_triple (x : pyobj) : bool :=
  match x with
  | PyTuple3 _ _ _ => true
  | PyStr _ => false
  end.

Module Design.

(** [databaseInfo] as the design notes read it: the recursion descends
    into every listed child, with no test in front of it. *)
Fixpoint get_database_info_unguarded (depth : nat) (job : option string)
    (children : bool) : M TalendProject.t (list pyobj) :=
  match depth with
  | O => raise RecursionError
  | S depth' =>
      match TalendProject.given job with
      | Some job =>
          let* p := TalendProject.getitem job in
          let* info := TalendProject.on_job p TalendJob.get_database_info in
          if children
          then
            let* p := TalendProject.getitem job in
            let* j := TalendProject.job_at p in
            for_acc
              (fun acc child =>
                 let* r := get_database_info_unguarded depth' (Some child)
                             true in
                 ret (acc ++ r))
              (TalendJob.children j) info
          else ret info
      | None =>
          let* s := get in
          for_acc
            (fun acc item =>
               let* p := TalendProject.getitem item in
               let* r := TalendProject.on_job p TalendJob.get_database_info in
               ret (acc ++ r))
            (dict_keys (TalendProject.versions s)) []
      end
  end.

(** Merging two review results by rule identifier, then by job name:
    an entry present on both sides is combined with [combine], the
    others are kept; the entries of the left operand come first. *)
Definition merge_inner (combine : rvalue -> rvalue -> rvalue)
    (ia ib : list (string * rvalue)) : list (string * rvalue) :=
  map (fun e => (fst e,
                 match dict_get (fst e) ib with
                 | Some vb => combine (snd e) vb
                 | None => snd e
                 end)) ia
  ++ List.filter (fun e => negb (dict_has (fst e) ia)) ib.

Definition merge_by (combine : rvalue -> rvalue -> rvalue)
    (a b : TalendProject.Review) : TalendProject.Review :=
  map (fun e => (fst e,
                 match dict_get (fst e) b with
                 | Some ib => merge_inner combine (snd e) ib
                 | None => snd e
                 end)) a
  ++ List.filter (fun e => negb (dict_has (fst e) a)) b.

(** the two ways to combine the lists of one rule and one job *)
Definition concatenate (x y : rvalue) : rvalue :=
  match x, y with
  | RList l1, RList l2 => RList (l1 ++ l2)
  | _, _ => y
  end.

Definition keep_child (x y : rvalue) : rvalue := y.

(** [review(J, true)] as a merge of the job's own result with the
    reviewed result of each child *)
Definition review_as_merge (combine : rvalue -> rvalue -> rvalue)
    (depth : nat) (job : string) : M TalendProject.t TalendProject.Review :=
  let* p := TalendProject.getitem job in
  let* own := TalendProject.on_job p TalendJob.review in
  let* p := TalendProject.getitem job in
  let* j := TalendProject.job_at p in
  for_acc
    (fun acc child =>
       let* r := TalendProject.review depth (Some child) true in
       ret (merge_by combine acc r))
    (TalendJob.children j) own.

End Design.

(** the value a computation returns, if it returns *)
Definition returned {St A} (o : outcome St A) : option A :=
  match o with
  | Ok a _ => Some a
  | Raise _ _ => None
  end.

(** a job's [context] with the dictionaries it refers to *)
Definition context_of (s : TalendProject.t) (p : string)
  : list (string * list (string * string)) :=
  match dict_get p (TalendProject.jobs s) with
  | Some j =>
      map (fun e => (fst e, heap_read (TalendProject.heap s) (snd e)))
          (TalendJob.context j)
  | None => []
  end.

(** ** Disabled nodes *)

(** a node element whose collected parameter map holds [ACTIVATE] with
    the value ["false"] *)
Definition disabled_node (e : Element) : bool :=
  PyStr.contains "node" (tag e)
  && match TalendJob.collect_params e with
     | Done params => TalendJob.node_disabled params
     | Fail _ => false
     end.

(** the document without those elements *)
Definition without_disabled_nodes (root : Element) : Element :=
  mkElement (tag root) (attrib root)
    (List.filter (fun e => negb (disabled_node e)) (subelements root)).

Definition erase_disabled (g : GitFile) : GitFile :=
  mkGitFile (child g) (option_map without_disabled_nodes (document g))
    (close_is_None g).

(** the test at the head of the review loop fails on every node *)
Definition nodes_enabled (j : TalendJob.t) : Prop :=
  Forall (fun e => TalendJob.node_disabled (snd e) = false)
         (TalendJob.nodes j).

Definition swap_gitfile (g : GitFile) (s : TalendJob.St) : TalendJob.St :=
  (TalendJob.set_gitfile g (fst s), snd s).

(** the outcome with the job's file handle put back to [g] *)
Definition with_gitfile {A} (g : GitFile) (o : outcome TalendJob.St A)
  : outcome TalendJob.St A :=
  match o with
  | Ok a s => Ok a (swap_gitfile g s)
  | Raise e s => Raise e (swap_gitfile g s)
  end.

(** ** Predicates and functions of the statements *)

(** the fields no step of the parser writes *)
Definition parse_frame (j0 : TalendJob.t) (s : TalendJob.St) : Prop :=
  TalendJob.stream_opens (fst s) = TalendJob.stream_opens j0 /\
  TalendJob.gitfile (fst s) = TalendJob.gitfile j0 /\
  TalendJob.name (fst s) = TalendJob.name j0.

(** what the registry of one job name satisfies *)
Definition latest_is_max
    (reg : list (TalendProject.vkey * TalendProject.vval)) : Prop :=
  exists m,
    dict_get TalendProject.LATEST reg = Some (TalendProject.Number m) /\
    In (TalendProject.Ver m) (dict_keys reg) /\
    forall v, In (TalendProject.Ver v) (dict_keys reg) -> (v <= m)%Qc.

Definition registries_ok
    (versions : list (string * list (TalendProject.vkey * TalendProject.vval)))
  : Prop :=
  forall name reg, dict_get name versions = Some reg -> latest_is_max reg.

(** a computation that neither reads nor writes the file handle *)
Definition gitfile_blind {A} (m : M TalendJob.St A) : Prop :=
  forall g s, m (swap_gitfile g s) = with_gitfile g (m s).

(** the job once its stream has been opened *)
Definition opened (s : TalendJob.St) : TalendJob.St :=
  (TalendJob.set_stream_opens (S (TalendJob.stream_opens (fst s))) (fst s),
   snd s).

(** how the registry may change while jobs are parsed on demand: the
    version registry and the set of held jobs stay, and a parsed job
    stays as it is *)
Definition stable (s s' : TalendProject.t) : Prop :=
  TalendProject.versions s' = TalendProject.versions s /\
  (forall p, dict_has p (TalendProject.jobs s')
             = dict_has p (TalendProject.jobs s)) /\
  (forall p job, dict_get p (TalendProject.jobs s) = Some job ->
                 TalendJob.parsed job = true ->
                 dict_get p (TalendProject.jobs s') = Some job).



(** the violations recorded for a job under a rule *)
Definition viols (rule name : string) (results : TalendJob.Results)
  : option (list Violation) :=
  match dict_get rule results with
  | Some inner => dict_get name inner
  | None => None
  end.

(** what a table of expected literals reports under [rule] for a node *)
Definition literal_viols (table : list (string * string)) (rule node : string)
    (p : list (string * string)) : list Violation :=
  flat_map
    (fun entry : string * string =>
       if String.eqb (fst entry) rule
       then match dict_get (fst entry) p with
            | Some actual =>
                if negb (String.eqb actual (snd entry))
                then [mkViolation (Some node) None
                        (TalendJob.must_be_set (fst entry) (snd entry) actual)]
                else []
            | None => []
            end
       else [])
    table.

(** the violations of the rule [DIE_ON_ERROR] a node gives rise to *)
Definition die_on_error_viols (entry : string * list (string * string))
  : list Violation :=
  if TalendJob.node_disabled (snd entry) then []
  else
    match dict_get "DIE_ON_ERROR" (snd entry) with
    | Some actual =>
        if negb (String.eqb actual "true")
        then [mkViolation (Some (fst entry)) None
                (TalendJob.must_be_set "DIE_ON_ERROR" "true" actual)]
        else []
    | None => []
    end.

Definition wrap_lists (inner : list (string * list Violation))
  : list (string * rvalue) :=
  map (fun kv => (fst kv, RList (snd kv))) inner.

(** the violations of a list that name the component [node] *)
Definition for_node (node : string) (l : list Violation) : list Violation :=
  List.filter (fun v => bool_decide (component v = Some node)) l.

Section UnionShapes.
Context {K V : Type} `{EqDecision K}.
Implicit Types (a b : list (K * V)).

(** the shape of the loops of lines 154-158 and of [dict.update] *)
Definition fold_union (f : V -> V -> V) a b : list (K * V) :=
  fold_left
    (fun acc (e : K * V) =>
       match dict_get (fst e) acc with
       | None => dict_set (fst e) (snd e) acc
       | Some old => dict_set (fst e) (f old (snd e)) acc
       end)
    b a.

(** the union written entry by entry *)
Definition map_union (g : V -> V -> V) a b : list (K * V) :=
  map (fun e => (fst e,
                 match dict_get (fst e) b with
                 | Some vb => g (snd e) vb
                 | None => snd e
                 end)) a
  ++ List.filter (fun e => negb (dict_has (fst e) a)) b.

End UnionShapes.

(** every dictionary of a review result has distinct keys *)
Definition inner_ok {V} (r : list (string * list (string * V))) : Prop :=
  Forall (fun e => NoDup (dict_keys (snd e))) r.

Definition wf_review (r : TalendProject.Review) : Prop :=
  NoDup (dict_keys r) /\ inner_ok r.

(** only jobs that a registry name resolves to have been parsed into a
    non-empty [children]: true of a project as constructed, and as long
    as no older version is parsed through its path *)
Definition only_resolved_have_children (s : TalendProject.t) : Prop :=
  forall p job,
    dict_get p (TalendProject.jobs s) = Some job ->
    TalendJob.children job <> [] ->
    exists j, In j (dict_keys (TalendProject.versions s)) /\
              TalendProject.getitem j s = Ok p s.

(** every rule of the result table has an entry, and every entry a list
    for the job *)
Definition complete_results (name : string) (r : TalendJob.Results) : Prop :=
  dict_keys r = dict_keys (TalendJob.initial_results name) /\
  Forall (fun e => is_Some (dict_get name (snd e))) r.

(** what parsing guarantees of an entry of [nodes]: it is filed under
    its own [UNIQUE_NAME], it is not disabled, it carries its component
    name, and the job's flags are set when that name asks for it *)
Definition node_well_formed (j : TalendJob.t)
    (entry : string * list (string * string)) : Prop :=
  dict_get "UNIQUE_NAME" (snd entry) = Some (fst entry) /\
  TalendJob.node_disabled (snd entry) = false /\
  exists cn,
    dict_get "_componentName" (snd entry) = Some cn /\
    (PyStr.contains "teradata" (PyStr.lower cn) = true ->
     TalendJob.flag_truthy (TalendJob.use_teradata j) = true) /\
    (PyStr.contains "file" (PyStr.lower cn) = true ->
     TalendJob.use_files j = true).

Definition nodes_well_formed (j : TalendJob.t) : Prop :=
  Forall (node_well_formed j) (TalendJob.nodes j).

(** what the vendor rules of [review] need of a job whose vendor flag
    is set: a context group, and a [TYPE] on every node of the family *)
Definition vendor_ready (j : TalendJob.t) (h : Heap) : Prop :=
  TalendJob.flag_truthy (TalendJob.use_teradata j) = true ->
  TalendJob.context j <> [] /\
  Forall
    (fun e : string * list (string * string) =>
       TalendJob.node_disabled (snd e) = false ->
       exists cn,
         dict_get "_componentName" (snd e) = Some cn /\
         (PyStr.contains "teradata" (PyStr.lower cn) = true ->
          is_Some (dict_get "TYPE" (snd e))))
    (TalendJob.nodes j).

(** ** The review of a job, rule by rule *)

(** the rule identifiers, in the order in which [review] creates them *)
Definition rule_ids : list string :=
  [ "DIE_ON_ERROR"; "DIE_ON_CHILD_ERROR"; "USE_INDEPENDENT_PROCESS";
    "TRANSMIT_ORIGINAL_CONTEXT"; "TRANSMIT_WHOLE_CONTEXT";
    "HOST"; "USER"; "PASS";
    "CREATEDIR"; "CREATE"; "MKDIR"; "CREATE_DIRECTORY";
    "ON_COMPONENT_ERROR"; "CONTEXT"; "QUERY" ].

(** what the vendor-credential rules report under [rule] for a node *)
Definition edw_viols (rule node : string) (p : list (string * string))
  : list Violation :=
  flat_map
    (fun entry : string * list string =>
       if String.eqb (fst entry) rule
       then match dict_get (fst entry) p with
            | Some actual =>
                if negb (existsb (String.eqb actual) (snd entry))
                then match dict_get "TYPE" p, snd entry with
                     | Some ty, first :: _ =>
                         [mkViolation (Some node) (Some ty)
                            (TalendJob.must_be_set (fst entry) first
                               (if PyStr.contains "Encrypt" actual
                                then "*ENCRYPTED*" else actual))]
                     | _, _ => []
                     end
                else []
            | None => []
            end
       else [])
    TalendJob.edw_params.

(** the test of line 429 *)
Definition vendor_node (j : TalendJob.t) (p : list (string * string))
  : bool :=
  TalendJob.flag_truthy (TalendJob.use_teradata j)
  && match dict_get "_componentName" p with
     | Some cn =>
         PyStr.contains "teradata" (PyStr.lower cn)
         && (negb (dict_has "USE_EXISTING_CONNECTION" p)
             || bool_decide (dict_get "USE_EXISTING_CONNECTION" p
                             = Some "false"))
     | None => false
     end.

Definition node_viols (j : TalendJob.t) (rule : string)
    (entry : string * list (string * string)) : list Violation :=
  if TalendJob.node_disabled (snd entry) then []
  else
    literal_viols TalendJob.check_params rule (fst entry) (snd entry)
    ++ (if vendor_node j (snd entry)
        then edw_viols rule (fst entry) (snd entry) else [])
    ++ (if TalendJob.use_files j
        then literal_viols TalendJob.file_params rule (fst entry) (snd entry)
        else []).

Definition context_viols (j : TalendJob.t) (h : Heap) (rule : string)
  : list Violation :=
  if String.eqb "CONTEXT" rule
  then
    if TalendJob.flag_truthy (TalendJob.use_teradata j)
    then
      match TalendJob.context j with
      | [] => []
      | (_, a) :: _ =>
          flat_map
            (fun ctx_key =>
               if negb (existsb (String.eqb ctx_key)
                          (dict_keys (heap_read h a)))
               then [mkViolation (Some "Context") None
                       ("Teradata job detected but missing context parameter '"
                          ++ ctx_key ++ "'")]
               else [])
            TalendJob.edw_context
      end
    else []
  else [].

Definition connection_viols (j : TalendJob.t) (rule : string)
  : list Violation :=
  if String.eqb "ON_COMPONENT_ERROR" rule
  then
    flat_map
      (fun entry : option string * string =>
         if String.eqb (snd entry) "COMPONENT_ERROR"
            || String.eqb (snd entry) "ON_COMPONENT_ERROR"
         then [mkViolation (fst entry) None
                 "'OnComponentError' trigger depreciated. Use 'if' trigger instead."]
         else [])
      (TalendJob.connections j)
  else [].

(** all the violations of a job under one rule, in the order in which
    [review] appends them *)
Definition rule_viols (j : TalendJob.t) (h : Heap) (rule : string)
  : list Violation :=
  flat_map (node_viols j rule) (TalendJob.nodes j)
  ++ context_viols j h rule
  ++ connection_viols j rule.

Definition nonempty {A} (l : list A) : bool :=
  match l with [] => false | _ :: _ => true end.

(** the result of [review], written rule by rule *)
Definition expected_review (j : TalendJob.t) (h : Heap)
  : list (string * list (string * rvalue)) :=
  map (fun rule => (rule, [(TalendJob.name j, RList (rule_viols j h rule))]))
      (List.filter (fun rule => nonempty (rule_viols j h rule)) rule_ids).

(** a result table that holds, for every rule, the list [f rule] under
    the job's name and nothing else *)
Definition tracks (name : string) (f : string -> list Violation)
    (r : TalendJob.Results) : Prop :=
  r = map (fun rule => (rule, [(name, f rule)])) rule_ids.

(** line 469: a connector of the "on component error" family *)
Definition is_error_trigger (c : option string * string) : bool :=
  String.eqb (snd c) "COMPONENT_ERROR"
  || String.eqb (snd c) "ON_COMPONENT_ERROR".

Definition trigger_violation (c : option string * string) : Violation :=
  mkViolation (fst c) None
    "'OnComponentError' trigger depreciated. Use 'if' trigger instead.".

Definition missing_key_violation (ctx_key : string) : Violation :=
  mkViolation (Some "Context") None
    ("Teradata job detected but missing context parameter '"
       ++ ctx_key ++ "'").

(** the entry of a review result for a rule: absent when the list is
    empty *)
Definition rule_entry (name : string) (l : list Violation)
  : option (list (string * rvalue)) :=
  if nonempty l then Some [(name, RList l)] else None.

(** lines 432-434: what a message shows of a credential *)
Definition shown (actual : string) : string :=
  if PyStr.contains "Encrypt" actual then "*ENCRYPTED*" else actual.

(** lines 53-54: the job name and the version text of an item path *)
Definition item_name (i : string) : string :=
  PyStr.drop_last 9 (PyStr.split_last "/"%char i).

Definition item_version_text (i : string) : string :=
  PyStr.drop_last 5 (PyStr.split_last "_"%char i).

(** line 66: the job object the construction of a project creates for
    the item path [p] of version [v] *)
Definition unparsed_job (src : TalendProject.Provider) (p : string) (v : Qc)
  : TalendJob.t :=
  TalendJob.mk (item_name p) p (Some v) [] [] [] [] 
    (TalendProject.item_file src p) None false false ∅ 0.

(** what construction establishes of the jobs and of the numeric
    entries of the registries *)
Definition jobs_as_discovered (float : string -> option Qc)
    (src : TalendProject.Provider) (s : TalendProject.t) : Prop :=
  forall p job,
    dict_get p (TalendProject.jobs s) = Some job ->
    exists v, float (item_version_text p) = Some v /\
              job = unparsed_job src p v.

Definition registries_point_to_jobs (float : string -> option Qc)
    (s : TalendProject.t) : Prop :=
  forall name reg v val,
    dict_get name (TalendProject.versions s) = Some reg ->
    dict_get (TalendProject.Ver v) reg = Some val ->
    exists p, val = TalendProject.ItemPath p /\
              item_name p = name /\
              float (item_version_text p) = Some v /\
              dict_has p (TalendProject.jobs s) = true.

Definition as_constructed (float : string -> option Qc)
    (src : TalendProject.Provider) (s : TalendProject.t) : Prop :=
  registries_ok (TalendProject.versions s) /\
  jobs_as_discovered float src s /\
  registries_point_to_jobs float s.

(** the body of the loop of lines 258-259 *)
Definition tree_child (depth : nat) (sub : list (string * tree))
    (child : string) : M TalendProject.t (list (string * tree)) :=
  let* t := TalendProject.tree_view depth (Some child) in
  let* c := lift (dict_item child t) in
  ret (dict_set child c sub).

(** no job of the registry has the empty name *)
Definition names_nonempty (s : TalendProject.t) : Prop :=
  dict_has "" (TalendProject.versions s) = false.

(** a set of job names each of which resolves to a job that invokes a
    member of the set *)
Definition invocation_cycle (s : TalendProject.t) (C : string -> Prop)
  : Prop :=
  forall r, C r ->
    dict_has r (TalendProject.versions s) = true /\
    exists p job c,
      TalendProject.getitem r s = Ok p s /\
      dict_get p (TalendProject.jobs s) = Some job /\
      In c (TalendJob.children job) /\ C c.

(** the project [s'] differs from [s] at most in parameters that were
    added to existing dictionaries: no dictionary is created, no
    parameter is overwritten or dropped, and every parameter found
    afterwards was a parameter of some dictionary before *)
Definition only_adds (s s' : TalendProject.t) : Prop :=
  s' = TalendProject.set_heap (TalendProject.heap s') s /\
  length (TalendProject.heap s') = length (TalendProject.heap s) /\
  (forall a k v,
     dict_get k (heap_read (TalendProject.heap s) a) = Some v ->
     dict_get k (heap_read (TalendProject.heap s') a) = Some v) /\
  (forall a e,
     In e (heap_read (TalendProject.heap s') a) ->
     exists b, In e (heap_read (TalendProject.heap s) b)).

(** an entry (group name, address) of the [context] of a held job *)
Definition owned (s : TalendProject.t) (e : string * addr) : Prop :=
  exists p j,
    dict_get p (TalendProject.jobs s) = Some j /\
    In e (TalendJob.context j).

(** the body of the loop of lines 213-219 *)
Definition merge_group (ctx : list (string * addr)) (entry : string * addr)
  : M TalendProject.t (list (string * addr)) :=
  match dict_get (fst entry) ctx with
  | Some a =>
      let* s := get in
      TalendProject.merge_params a
        (heap_read (TalendProject.heap s) (snd entry)) >>
      ret ctx
  | None => ret (dict_set (fst entry) (snd entry) ctx)
  end.

(** the body of the loop of lines 210-219 *)
Definition merge_child (depth : nat) (ctx : list (string * addr))
    (child : string) : M TalendProject.t (list (string * addr)) :=
  let* child_contexts := TalendProject.get_merged_context depth child in
  for_acc merge_group child_contexts ctx.

(** the lines a retained node contributes to the flat dump *)
Definition dumped_lines (header : bool) (name : string)
    (e : string * (string * string)) : list string :=
  (if header then [TalendJob.sql_header name (fst e) (fst (snd e))] else [])
  ++ [snd (snd e)].

(** the entry a node contributes to the structured dump *)
Definition dumped_entry (entry : string * list (string * string))
  : list (string * (string * string)) :=
  if TalendJob.node_disabled (snd entry) then []
  else
    match dict_get "QUERY" (snd entry) with
    | Some query =>
        [(fst entry,
          (default "???" (dict_get "DBNAME" (snd entry)),
           PyStr.remove_dquotes query))]
    | None => []
    end.

(** a registry name resolves to a parsed job *)
Definition resolves_to_parsed (s : TalendProject.t) (name : string)
    (job : TalendJob.t) : Prop :=
  exists p,
    TalendProject.getitem name s = Ok p s /\
    dict_get p (TalendProject.jobs s) = Some job /\
    TalendJob.parsed job = true.

(** * Properties *)

(** ** Dictionaries *)

Section DictFacts.
Context {K V : Type} `{EqDecision K}.
Implicit Types (k : K) (v : V) (d : list (K * V)).

Lemma dict_get_set_eq k v d : dict_get k (dict_set k v d) = Some v.
Proof.
  induction d as [|[k' v'] d IH]; simpl.
  - by rewrite decide_True.
  - destruct (decide (k = k')) as [->|Hne]; simpl.
    + by rewrite decide_True.
    + by rewrite decide_False.
Qed.

Lemma dict_get_set_ne k k' v d :
  k ≠ k' -> dict_get k' (dict_set k v d) = dict_get k' d.
Proof.
  intros Hne. induction d as [|[k0 v0] d IH]; simpl.
  - rewrite decide_False; [done | congruence].
  - destruct (decide (k = k0)) as [->|Hk]; simpl.
    + rewrite !decide_False; [done | congruence | congruence].
    + destruct (decide (k' = k0)); [done | apply IH].
Qed.

Lemma dict_get_None k d : dict_get k d = None <-> ~ In k (dict_keys d).
Proof.
  induction d as [|[k' v'] d IH]; simpl.
  - tauto.
  - destruct (decide (k = k')) as [->|Hne].
    + split; [discriminate | tauto].
    + rewrite IH. split; [intros Hd [He|Hi]; [congruence | tauto] | tauto].
Qed.

Lemma dict_get_Some_In k v d : dict_get k d = Some v -> In (k, v) d.
Proof.
  induction d as [|[k' v'] d IH]; simpl; [discriminate |].
  destruct (decide (k = k')) as [->|Hne].
  - intros [= ->]. by left.
  - intros Hd. right. by apply IH.
Qed.

Lemma dict_get_In k v d :
  NoDup (dict_keys d) -> In (k, v) d -> dict_get k d = Some v.
Proof.
  induction d as [|[k' v'] d IH]; simpl; [tauto |].
  intros Hnd [He|Hi].
  - injection He as -> ->. by rewrite decide_True.
  - apply NoDup_cons_1_1 in Hnd as Hk. apply NoDup_cons_1_2 in Hnd.
    rewrite decide_False; [by apply IH |].
    intros ->. apply Hk. apply list_elem_of_In.
    change k' with (fst (k', v)). by apply in_map.
Qed.

Lemma dict_has_true k d : dict_has k d = true <-> In k (dict_keys d).
Proof.
  unfold dict_has. destruct (dict_get k d) eqn:Hg.
  - split; [intros _ | done].
    apply dict_get_Some_In in Hg. change k with (fst (k, v)).
    by apply in_map.
  - apply dict_get_None in Hg. split; [discriminate | tauto].
Qed.

Lemma dict_keys_set k v d :
  dict_keys (dict_set k v d)
  = if dict_has k d then dict_keys d else dict_keys d ++ [k].
Proof.
  unfold dict_has. induction d as [|[k' v'] d IH]; simpl; [done |].
  destruct (decide (k = k')) as [->|Hne]; simpl; [done |].
  rewrite IH. by destruct (dict_get k d).
Qed.

Lemma dict_set_NoDup k v d :
  NoDup (dict_keys d) -> NoDup (dict_keys (dict_set k v d)).
Proof.
  intros Hnd. rewrite dict_keys_set.
  destruct (dict_has k d) eqn:Hh; [done |].
  apply NoDup_app. split; [done |]. split.
  - intros x Hx ->%list_elem_of_singleton.
    apply list_elem_of_In, dict_has_true in Hx. congruence.
  - apply NoDup_singleton.
Qed.

Lemma dict_update_NoDup d e :
  NoDup (dict_keys d) -> NoDup (dict_keys (dict_update d e)).
Proof.
  unfold dict_update. revert d.
  induction e as [|[k v] e IH]; simpl; [done |].
  intros d Hnd. apply IH. by apply dict_set_NoDup.
Qed.

End DictFacts.

(** ** The monad *)

Lemma bind_Ok {St A B} (m : M St A) (k : A -> M St B) s a s' :
  m s = Ok a s' -> bind m k s = k a s'.
Proof. unfold bind. by intros ->. Qed.

Lemma bind_Raise {St A B} (m : M St A) (k : A -> M St B) s e s' :
  m s = Raise e s' -> bind m k s = Raise e s'.
Proof. unfold bind. by intros ->. Qed.

Lemma bind_Ok_inv {St A B} (m : M St A) (k : A -> M St B) s b s2 :
  bind m k s = Ok b s2 -> exists a s1, m s = Ok a s1 /\ k a s1 = Ok b s2.
Proof.
  unfold bind. destruct (m s) as [a s1|e s1]; [eauto | discriminate].
Qed.

(** a loop preserves what each of its iterations preserves *)
Lemma for_each_preserves {St A} (P : St -> Prop) (body : A -> M St unit) l :
  (forall x s, P s -> P (state_of (body x s))) ->
  forall s, P s -> P (state_of (for_each body l s)).
Proof.
  intros Hbody. induction l as [|x l IH]; intros s Hs; simpl; [done |].
  unfold bind. specialize (Hbody x s Hs).
  destruct (body x s) as [[] s1|e s1]; simpl in *; [by apply IH | done].
Qed.

Lemma for_acc_preserves {St A B} (P : St -> Prop)
    (body : B -> A -> M St B) l :
  (forall acc x s, P s -> P (state_of (body acc x s))) ->
  forall acc s, P s -> P (state_of (for_acc body l acc s)).
Proof.
  intros Hbody. induction l as [|x l IH]; intros acc s Hs; simpl; [done |].
  unfold bind. specialize (Hbody acc x s Hs).
  destruct (body acc x s) as [acc' s1|e s1]; simpl in *; [by apply IH | done].
Qed.

(** ** The tree view without a root *)

(** C1 (the code departs from the claim).  With no root, [tree_view]
    leaves through its first test ([None] is not a key of [versions])
    and returns the empty mapping, whatever the registry holds; on the
    project of jobs A and B, where A invokes B, the master jobs are
    [A] and the tree rooted at A is [{A: {B: {}}}], yet
    [tree_view(None)] is [{}]. *)
Theorem tree_view_without_root_is_empty :
  (forall depth s,
     TalendProject.tree_view (S depth) None s = Ok [] s) /\
  TalendProject.get_master_jobs Scenario.two_jobs_parsed
    = Ok ["A"] Scenario.two_jobs_parsed /\
  TalendProject.tree_view 3 (Some "A") Scenario.two_jobs_parsed
    = Ok [("A", Tree [("B", Tree [])])] Scenario.two_jobs_parsed /\
  TalendProject.tree_view 3 None Scenario.two_jobs_parsed
    = Ok [] Scenario.two_jobs_parsed.
Proof.
  split; [reflexivity |]. split; [by vm_compute |]. split; by vm_compute.
Qed.

(** ** Parsing happens once *)

Lemma parse_when_parsed (s : TalendJob.St) :
  TalendJob.parsed (fst s) = true -> TalendJob.parse s = Ok tt s.
Proof. intros Hp. unfold TalendJob.parse, bind, get. by rewrite Hp. Qed.

Lemma parse_document_Ok_parsed root s u s' :
  TalendJob.parse_document root s = Ok u s' ->
  TalendJob.parsed (fst s') = true.
Proof.
  unfold TalendJob.parse_document. intros H.
  apply bind_Ok_inv in H as (? & s1 & _ & H).
  apply bind_Ok_inv in H as (? & s2 & _ & H).
  apply bind_Ok_inv in H as (? & s3 & _ & H).
  unfold TalendJob.on_self, modify in H. by injection H as _ <-.
Qed.

Lemma parse_Ok_parsed s u s' :
  TalendJob.parse s = Ok u s' -> TalendJob.parsed (fst s') = true.
Proof.
  unfold TalendJob.parse, bind at 1, get.
  destruct (TalendJob.parsed (fst s)) eqn:Hp.
  - intros [= _ <-]. done.
  - unfold bind, TalendJob.on_self at 1, modify; simpl.
    destruct (document (TalendJob.gitfile (fst s))) as [root|];
      [| discriminate].
    destruct (negb (close_is_None (TalendJob.gitfile (fst s))));
      [discriminate |].
    apply parse_document_Ok_parsed.
Qed.

Ltac run_steps :=
  repeat first
    [ progress (unfold bind, lift, ret, raise, modify, TalendJob.on_self;
                simpl)
    | match goal with
      | |- context [match ?r with Done _ => _ | Fail _ => _ end] =>
          destruct r; simpl
      | |- context [if ?b then _ else _] => destruct b; simpl
      | |- context [match ?o with Some _ => _ | None => _ end] =>
          destruct o; simpl
      end ].

Lemma parse_element_frame j0 node s :
  parse_frame j0 s ->
  parse_frame j0 (state_of (TalendJob.parse_element node s)).
Proof.
  intros Hs. destruct s as [j h]. unfold parse_frame in *; simpl in *.
  unfold TalendJob.parse_element, TalendJob.parse_node,
    TalendJob.parse_connection, TalendJob.parse_context.
  run_steps; try done.
  all: try (destruct (heap_alloc _ _)); simpl; done.
Qed.

Lemma parse_document_frame j0 root s :
  parse_frame j0 s ->
  parse_frame j0 (state_of (TalendJob.parse_document root s)).
Proof.
  intros Hs. unfold TalendJob.parse_document.
  unfold bind at 1, TalendJob.on_self at 1, modify at 1.
  unfold bind at 1, TalendJob.on_self at 1, modify at 1.
  unfold bind at 1.
  set (s1 := (TalendJob.set_use_files false _, _)).
  assert (Hs1 : parse_frame j0 s1) by (destruct s; apply Hs).
  pose proof (for_each_preserves (parse_frame j0) TalendJob.parse_element
                (subelements root) (parse_element_frame j0) s1 Hs1) as Hl.
  destruct (for_each TalendJob.parse_element (subelements root) s1)
    as [[] s2|e s2]; simpl in *; [| done].
  destruct s2; apply Hl.
Qed.

(** C6.  A program that calls [parse] twice behaves as one that calls
    it once (same result or exception, same job, same heap); after a
    call that returned, a further call changes nothing, so [nodes],
    [connections], [context], [children] and [tables] stay as they
    were; and the stream is opened by the first call only: once if the
    job was not parsed, not at all if it was. *)
Theorem parse_is_idempotent (s : TalendJob.St) :
  (TalendJob.parse >> TalendJob.parse) s = TalendJob.parse s /\
  (forall s', TalendJob.parse s = Ok tt s' ->
     TalendJob.parse s' = Ok tt s' /\
     TalendJob.stream_opens (fst s')
     = (TalendJob.stream_opens (fst s)
        + if TalendJob.parsed (fst s) then 0 else 1)%nat).
Proof.
  split.
  - unfold bind. destruct (TalendJob.parse s) as [[] s'|e s'] eqn:Hp; [| done].
    apply parse_when_parsed. by eapply parse_Ok_parsed.
  - intros s' Hp. split.
    + apply parse_when_parsed. by eapply parse_Ok_parsed.
    + revert Hp. unfold TalendJob.parse, bind at 1, get.
      destruct (TalendJob.parsed (fst s)) eqn:Hpd.
      * intros [= <-]. lia.
      * unfold bind, TalendJob.on_self at 1, modify; simpl.
        destruct (document (TalendJob.gitfile (fst s))) as [root|];
          [| discriminate].
        destruct (negb (close_is_None (TalendJob.gitfile (fst s))));
          [discriminate |].
        intros Hd.
        set (j1 := TalendJob.set_stream_opens _ _) in Hd.
        assert (Hf0 : parse_frame j1 (j1, snd s)) by done.
        apply (parse_document_frame j1 root) in Hf0 as Hf.
        rewrite Hd in Hf. destruct Hf as [Hf _]. simpl in Hf. lia.
Qed.

Lemma parse_is_idempotent_witness :
  TalendJob.parse Scenario.parsed_B = Ok tt Scenario.parsed_B /\
  TalendJob.stream_opens (fst Scenario.parsed_B)
  = (TalendJob.stream_opens (fst (Scenario.fresh_job Scenario.docB))
     + if TalendJob.parsed (fst (Scenario.fresh_job Scenario.docB))
       then 0 else 1)%nat.
Proof.
  apply (proj2 (parse_is_idempotent (Scenario.fresh_job Scenario.docB))).
  vm_compute. reflexivity.
Defined.

(** The limit of C6: a call that raised leaves [parsed] unset, so a
    caller that caught the exception and called [parse] again would
    read the stream again and append the children again.  Nothing in
    the source catches an exception of [parse]. *)
Lemma parse_again_after_failure :
  let s1 := state_of (TalendJob.parse (Scenario.fresh_job Scenario.docBroken)) in
  let s2 := state_of (TalendJob.parse s1) in
  TalendJob.parse (Scenario.fresh_job Scenario.docBroken)
  = Raise (KeyError "UNIQUE_NAME") s1 /\
  TalendJob.parsed (fst s1) = false /\
  TalendJob.children (fst s1) = ["B"] /\
  TalendJob.stream_opens (fst s1) = 1%nat /\
  TalendJob.children (fst s2) = ["B"; "B"] /\
  TalendJob.stream_opens (fst s2) = 2%nat.
Proof. repeat split; by vm_compute. Qed.

(** ** The context rule without a context group *)

Lemma review_when_parsed (s : TalendJob.St) :
  TalendJob.parsed (fst s) = true ->
  TalendJob.review s = lift (TalendJob.review_parsed (fst s) (snd s)) s.
Proof.
  intros Hp. unfold TalendJob.review, bind, get. rewrite Hp. reflexivity.
Qed.

(** C10.  On a parsed job whose vendor flag is set and whose [context]
    is empty, [review] raises and leaves the job as it was: if the loop
    over the nodes completes, the exception is the read of the unbound
    [ctx_keys]; otherwise it is the exception that loop raised. *)
Theorem review_needs_a_context_group (s : TalendJob.St) :
  TalendJob.parsed (fst s) = true ->
  TalendJob.use_teradata (fst s) = Some true ->
  TalendJob.context (fst s) = [] ->
  exists e,
    TalendJob.review s = Raise e s /\
    (forall results,
       rfold (TalendJob.review_node (fst s)) (TalendJob.nodes (fst s))
             (TalendJob.initial_results (TalendJob.name (fst s)))
       = Done results ->
       e = UnboundLocalError "ctx_keys").
Proof.
  intros Hp Ht Hc. rewrite (review_when_parsed s Hp).
  unfold TalendJob.review_parsed, lift.
  destruct (rfold (TalendJob.review_node (fst s)) _ _) as [results|e]; simpl.
  - exists (UnboundLocalError "ctx_keys"). split; [| done].
    unfold TalendJob.check_context. rewrite Ht, Hc. reflexivity.
  - exists e. split; [done | discriminate].
Qed.

Lemma review_needs_a_context_group_witness :
  exists e,
    TalendJob.review Scenario.teradata_job = Raise e Scenario.teradata_job /\
    (forall results,
       rfold (TalendJob.review_node (fst Scenario.teradata_job))
             (TalendJob.nodes (fst Scenario.teradata_job))
             (TalendJob.initial_results
                (TalendJob.name (fst Scenario.teradata_job)))
       = Done results ->
       e = UnboundLocalError "ctx_keys").
Proof.
  apply (review_needs_a_context_group Scenario.teradata_job);
    vm_compute; reflexivity.
Defined.

(** ** The cycle test of the endpoint inventory *)

Lemma py_in_str_triples child (l : list pyobj) :
  Forall (fun x => is_triple x = true) l -> py_in (PyStr child) l = false.
Proof.
  unfold py_in. induction 1 as [|x l Hx _ IH]; simpl; [done |].
  rewrite IH, orb_false_r. apply bool_decide_eq_false.
  intros <-. discriminate.
Qed.

Lemma database_info_node_triples info node :
  Forall (fun x => is_triple x = true) info ->
  Forall (fun x => is_triple x = true)
         (TalendJob.database_info_node info node).
Proof.
  intros Hi. unfold TalendJob.database_info_node.
  destruct (bool_decide _); [done |].
  destruct (option_map PyStr.upper _) as [hst|]; [| done].
  destruct (option_map _ (dict_get "DBNAME" node)) as [db|]; [| done].
  destruct (PyStr.truthy hst && PyStr.truthy db); [| done].
  apply Forall_app. split; [done |]. by repeat constructor.
Qed.

Lemma job_database_info_triples (s : TalendJob.St) :
  returns (fun r _ => Forall (fun x => is_triple x = true) r)
          (TalendJob.get_database_info s).
Proof.
  unfold TalendJob.get_database_info, bind at 1, get at 1.
  unfold bind at 1.
  destruct ((if TalendJob.parsed (fst s) then ret tt else TalendJob.parse) s)
    as [[] s1|e s1]; simpl; [| done].
  generalize (map snd (TalendJob.nodes (fst s1))).
  assert (Forall (fun x => is_triple x = true) (@nil pyobj)) as H0
    by constructor.
  revert H0. generalize (@nil pyobj).
  intros info Hi l. revert info Hi.
  induction l as [|n l IH]; intros info Hi; simpl; [done |].
  apply IH. by apply database_info_node_triples.
Qed.

Lemma on_job_returns {A} (P : A -> Prop) p (m : M TalendJob.St A) :
  (forall s, returns (fun a _ => P a) (m s)) ->
  forall s, returns (fun a _ => P a) (TalendProject.on_job p m s).
Proof.
  intros Hm s. unfold TalendProject.on_job.
  destruct (dict_get p (TalendProject.jobs s)) as [j|]; simpl; [| done].
  specialize (Hm (j, TalendProject.heap s)).
  by destruct (m (j, TalendProject.heap s)).
Qed.

(** two loops whose bodies agree on the accumulators that satisfy an
    invariant agree, and keep the invariant *)
Lemma for_acc_agree {St A B} (I : B -> Prop) (f g : B -> A -> M St B) l :
  (forall acc x s, I acc ->
     f acc x s = g acc x s /\ returns (fun a _ => I a) (f acc x s)) ->
  forall acc s, I acc ->
    for_acc f l acc s = for_acc g l acc s /\
    returns (fun a _ => I a) (for_acc f l acc s).
Proof.
  intros Hfg. induction l as [|x l IH]; intros acc s Hacc; simpl.
  - by split.
  - destruct (Hfg acc x s Hacc) as [Heq Hret]. unfold bind. rewrite <- Heq.
    destruct (f acc x s) as [acc' s1|e s1]; simpl in *; [by apply IH | done].
Qed.

(** the same for two computations that start alike *)
Lemma bind_agree {St A B} (P : B -> Prop) (m : M St A)
    (k1 k2 : A -> M St B) s :
  (forall a s', m s = Ok a s' ->
     k1 a s' = k2 a s' /\ returns (fun b _ => P b) (k1 a s')) ->
  bind m k1 s = bind m k2 s /\ returns (fun b _ => P b) (bind m k1 s).
Proof.
  intros Hk. unfold bind.
  destruct (m s) as [a s'|e s']; [by apply Hk | by split].
Qed.

Lemma database_info_unguarded depth :
  forall job children s,
    TalendProject.get_database_info depth job children s
    = Design.get_database_info_unguarded depth job children s /\
    returns (fun r _ => Forall (fun x => is_triple x = true) r)
            (TalendProject.get_database_info depth job children s).
Proof.
  induction depth as [|depth IH]; intros job children s;
    [split; [reflexivity | exact I] |].
  simpl. destruct (TalendProject.given job) as [j|].
  - apply bind_agree. intros p s1 _.
    apply bind_agree. intros info s2 Hinfo.
    pose proof (on_job_returns _ p _ job_database_info_triples s1) as Htr.
    rewrite Hinfo in Htr. simpl in Htr.
    destruct children; [| by split].
    apply bind_agree. intros p' s3 _.
    apply bind_agree. intros jb s4 _.
    apply (for_acc_agree (Forall (fun x => is_triple x = true))); [| done].
    intros acc child s5 Hacc. rewrite (py_in_str_triples child acc Hacc).
    destruct (IH (Some child) true s5) as [Heq Hret].
    unfold bind. rewrite <- Heq.
    destruct (TalendProject.get_database_info depth (Some child) true s5)
      as [r s6|e s6]; simpl in *; [| by split].
    split; [done |]. by apply Forall_app.
  - apply bind_agree. intros s0 s0' _.
    apply (for_acc_agree (Forall (fun x => is_triple x = true)));
      [| constructor].
    intros acc item s1 Hacc.
    apply bind_agree. intros p s2 _.
    apply bind_agree. intros r s3 Hr.
    pose proof (on_job_returns _ p _ job_database_info_triples s2) as Htr.
    rewrite Hr in Htr. simpl in Htr.
    split; [done |]. simpl. by apply Forall_app.
Qed.

(** C9.  The test [child in ret] of line 229 compares a job name with
    the accumulated endpoints, which are all triples: it is false each
    time it is evaluated, so [get_database_info] is the function
    without the test (it descends into every listed child), and every
    list it returns holds triples only. *)
Theorem cycle_test_never_matches depth job children s :
  TalendProject.get_database_info depth job children s
  = Design.get_database_info_unguarded depth job children s /\
  returns (fun r _ => forall child, py_in (PyStr child) r = false)
          (TalendProject.get_database_info depth job children s).
Proof.
  destruct (database_info_unguarded depth job children s) as [Heq Hret].
  split; [done |].
  destruct (TalendProject.get_database_info depth job children s);
    simpl in *; [| done].
  intros child. by apply py_in_str_triples.
Qed.

(** ** The version registry *)

Section KeysOfSet.
Context {K V : Type} `{EqDecision K}.

Lemma dict_keys_set_In (k k' : K) (v : V) (d : list (K * V)) :
  In k (dict_keys (dict_set k' v d)) <-> k = k' \/ In k (dict_keys d).
Proof.
  rewrite dict_keys_set. destruct (dict_has k' d) eqn:Hh.
  - apply dict_has_true in Hh. split; [tauto |]. intros [->|Hi]; done.
  - rewrite in_app_iff. simpl. split; [intros [?|[?|[]]] | intros [?|?]];
      auto.
Qed.

End KeysOfSet.

Lemma registry_step reg m version i :
  dict_get TalendProject.LATEST reg = Some (TalendProject.Number m) ->
  In (TalendProject.Ver m) (dict_keys reg) ->
  (forall v, In (TalendProject.Ver v) (dict_keys reg) -> (v <= m)%Qc) ->
  latest_is_max
    (dict_set (TalendProject.Ver version) (TalendProject.ItemPath i)
       (if bool_decide (m < version)%Qc
        then dict_set TalendProject.LATEST (TalendProject.Number version) reg
        else reg)).
Proof.
  intros Hl Hin Hmax. case_bool_decide as Hlt.
  - exists version. split; [| split].
    + rewrite dict_get_set_ne by done. apply dict_get_set_eq.
    + apply dict_keys_set_In. by left.
    + intros v [[= ->]|Hv]%dict_keys_set_In; [apply Qcle_refl |].
      apply dict_keys_set_In in Hv as [[=]|Hv].
      apply Qcle_trans with m; [by apply Hmax | by apply Qclt_le_weak].
  - exists m. split; [| split].
    + by rewrite dict_get_set_ne.
    + apply dict_keys_set_In. by right.
    + intros v [[= ->]|Hv]%dict_keys_set_In; [| by apply Hmax].
      by apply Qcnot_lt_le.
Qed.

Lemma register_version_ok name version i versions versions' :
  TalendProject.register_version name version i versions = Done versions' ->
  registries_ok versions -> registries_ok versions'.
Proof.
  unfold TalendProject.register_version. intros Hreg Hok n r.
  destruct (dict_get name versions) as [reg|] eqn:Hname.
  - destruct (Hok name reg Hname) as (m & Hl & Hin & Hmax).
    rewrite Hl in Hreg.
    pose proof (registry_step reg m version i Hl Hin Hmax) as Hstep.
    destruct (bool_decide (m < version)%Qc); simpl in Hreg;
      injection Hreg as <-.
    all: destruct (decide (name = n)) as [<-|Hne];
      [ rewrite dict_get_set_eq; by intros [= <-]
      | rewrite dict_get_set_ne by done; apply Hok ].
  - injection Hreg as <-.
    destruct (decide (name = n)) as [<-|Hne].
    + rewrite dict_get_set_eq. intros [= <-]. exists version.
      split; [done |]. split; [by left |].
      intros v [[= ->]|[[=]|[]]]. apply Qcle_refl.
    + rewrite dict_get_set_ne by done. apply Hok.
Qed.

Lemma load_item_ok float src i s :
  registries_ok (TalendProject.versions s) ->
  registries_ok
    (TalendProject.versions (state_of (TalendProject.load_item float src i s))).
Proof.
  intros Hok. unfold TalendProject.load_item.
  destruct (float _) as [version|]; [| done].
  unfold bind at 1, get at 1. unfold bind at 1, lift.
  destruct (TalendProject.register_version _ version i _) as [vs|e] eqn:Hr;
    [| done].
  apply register_version_ok in Hr; [| done].
  unfold bind, modify, get, put. simpl. exact Hr.
Qed.


Lemma register_version_NoDup name version i versions versions' :
  TalendProject.register_version name version i versions = Done versions' ->
  NoDup (dict_keys versions) -> NoDup (dict_keys versions').
Proof.
  unfold TalendProject.register_version. intros H Hnd.
  destruct (dict_get name versions) as [reg|].
  - destruct (dict_get TalendProject.LATEST reg) as [[|latest]|];
      [discriminate | |]; simpl in H.
    + destruct (bool_decide _); simpl in H; injection H as <-;
        by apply dict_set_NoDup.
    + injection H as <-. by apply dict_set_NoDup.
  - injection H as <-. by apply dict_set_NoDup.
Qed.

Lemma load_item_NoDup float src i s :
  NoDup (dict_keys (TalendProject.versions s)) ->
  NoDup (dict_keys
           (TalendProject.versions
              (state_of (TalendProject.load_item float src i s)))).
Proof.
  intros Hok. unfold TalendProject.load_item.
  destruct (float _) as [version|]; [| done].
  unfold bind at 1, get at 1. unfold bind at 1, lift.
  destruct (TalendProject.register_version _ version i _) as [vs|e] eqn:Hr;
    [| done].
  apply register_version_NoDup in Hr; [| done].
  unfold bind, modify, get, put. simpl. exact Hr.
Qed.

(** the version registry of a project as constructed is a dictionary *)
Lemma load_versions_NoDup float src :
  NoDup (dict_keys
           (TalendProject.versions (state_of (TalendProject.load float src)))).
Proof.
  unfold TalendProject.load. unfold bind at 1, lift.
  destruct (TalendProject.item_paths src) as [items|e]; [| constructor].
  unfold bind at 1, modify at 1.
  destruct (document (TalendProject.project_file src)) as [root|];
    [| constructor].
  destruct (negb _); [constructor |].
  destruct (subelements root) as [|first rest]; [constructor |].
  unfold bind at 1.
  destruct (dict_get "productVersion" (attrib first)); [| constructor].
  unfold modify at 1. unfold bind at 1.
  destruct (dict_get "technicalLabel" (attrib first)); [| constructor].
  unfold modify at 1.
  apply (for_each_preserves
           (fun s => NoDup (dict_keys (TalendProject.versions s)))
           _ items (load_item_NoDup float src)).
  constructor.
Qed.



(** ** Disabled nodes leave no trace *)

Lemma parse_element_disabled e s :
  disabled_node e = true -> TalendJob.parse_element e s = Ok tt s.
Proof.
  unfold disabled_node. intros [Htag Hp]%andb_true_iff.
  unfold TalendJob.parse_element. rewrite Htag.
  unfold TalendJob.parse_node, bind, lift.
  destruct (TalendJob.collect_params e) as [params|]; [| discriminate].
  by rewrite Hp.
Qed.

Lemma parse_elements_without_disabled elems s :
  for_each TalendJob.parse_element elems s
  = for_each TalendJob.parse_element
      (List.filter (fun e => negb (disabled_node e)) elems) s.
Proof.
  revert s. induction elems as [|e elems IH]; intros s; simpl; [done |].
  destruct (disabled_node e) eqn:Hd; simpl.
  - unfold bind. rewrite (parse_element_disabled e s Hd). apply IH.
  - unfold bind. destruct (TalendJob.parse_element e s); [apply IH | done].
Qed.

Lemma blind_ret {A} (a : A) : gitfile_blind (ret a).
Proof. by intros g s. Qed.

Lemma blind_raise {A} e : gitfile_blind (@raise _ A e).
Proof. by intros g s. Qed.

Lemma blind_lift {A} (r : result A) : gitfile_blind (lift r).
Proof. intros g s. unfold lift. by destruct r. Qed.

Lemma blind_bind {A B} (m : M TalendJob.St A) (k : A -> M TalendJob.St B) :
  gitfile_blind m -> (forall a, gitfile_blind (k a)) ->
  gitfile_blind (bind m k).
Proof.
  intros Hm Hk g s. unfold bind. rewrite Hm.
  destruct (m s) as [a s1|e s1]; simpl; [apply Hk | done].
Qed.

Lemma blind_modify (f : TalendJob.St -> TalendJob.St) :
  (forall g s, f (swap_gitfile g s) = swap_gitfile g (f s)) ->
  gitfile_blind (modify f).
Proof. intros Hf g s. unfold modify. simpl. by rewrite Hf. Qed.

Lemma blind_for_each {A} (body : A -> M TalendJob.St unit) l :
  (forall x, gitfile_blind (body x)) -> gitfile_blind (for_each body l).
Proof.
  intros Hb. induction l as [|x l IH]; simpl; [apply blind_ret |].
  apply blind_bind; [apply Hb | intros _; apply IH].
Qed.

Ltac blind_step :=
  first
    [ apply blind_ret | apply blind_raise | apply blind_lift
    | apply blind_bind; [| intros ?]
    | apply blind_for_each; intros ?
    | apply blind_modify; intros ? [[] ?]; simpl;
      repeat match goal with
             | |- context [if ?b then _ else _] => destruct b
             | |- context [let (_, _) := ?x in _] => destruct x
             end; reflexivity
    | match goal with
      | |- gitfile_blind (if ?b then _ else _) => destruct b
      | |- gitfile_blind (match ?o with Some _ => _ | None => _ end) =>
          destruct o
      end ].

Lemma parse_element_blind e : gitfile_blind (TalendJob.parse_element e).
Proof.
  unfold TalendJob.parse_element, TalendJob.parse_node,
    TalendJob.parse_connection, TalendJob.parse_context, TalendJob.on_self.
  repeat blind_step.
Qed.

Lemma parse_document_blind root :
  gitfile_blind (TalendJob.parse_document root).
Proof.
  unfold TalendJob.parse_document, TalendJob.on_self.
  repeat blind_step. apply parse_element_blind.
Qed.

Lemma swap_gitfile_own (s : TalendJob.St) :
  swap_gitfile (TalendJob.gitfile (fst s)) s = s.
Proof. by destruct s as [[] h]. Qed.

Lemma swap_gitfile_twice g g' (s : TalendJob.St) :
  swap_gitfile g (swap_gitfile g' s) = swap_gitfile g s.
Proof. by destruct s as [[] h]. Qed.

Lemma with_gitfile_twice {A} g g' (o : outcome TalendJob.St A) :
  with_gitfile g (with_gitfile g' o) = with_gitfile g o.
Proof. destruct o; simpl; by rewrite swap_gitfile_twice. Qed.

Lemma with_gitfile_own {A} g (o : outcome TalendJob.St A) :
  TalendJob.gitfile (fst (state_of o)) = g -> with_gitfile g o = o.
Proof. destruct o; simpl; intros <-; by rewrite swap_gitfile_own. Qed.

Lemma parse_keeps_gitfile (s : TalendJob.St) :
  TalendJob.gitfile (fst (state_of (TalendJob.parse s)))
  = TalendJob.gitfile (fst s).
Proof.
  unfold TalendJob.parse, bind at 1, get.
  destruct (TalendJob.parsed (fst s)); [done |].
  unfold bind, TalendJob.on_self at 1, modify; simpl.
  destruct (document (TalendJob.gitfile (fst s))) as [root|]; [| done].
  destruct (negb (close_is_None (TalendJob.gitfile (fst s)))); [done |].
  set (j1 := TalendJob.set_stream_opens _ _).
  assert (Hf0 : parse_frame j1 (j1, snd s)) by done.
  apply (parse_document_frame j1 root) in Hf0 as (_ & Hg & _).
  exact Hg.
Qed.

Lemma parse_unparsed (s : TalendJob.St) :
  TalendJob.parsed (fst s) = false ->
  TalendJob.parse s
  = match document (TalendJob.gitfile (fst s)) with
    | None => Raise XMLParseError (opened s)
    | Some root =>
        if close_is_None (TalendJob.gitfile (fst s))
        then TalendJob.parse_document root (opened s)
        else Raise TypeError (opened s)
    end.
Proof.
  intros Hp. unfold TalendJob.parse, bind at 1, get. rewrite Hp.
  unfold bind, TalendJob.on_self at 1, modify; simpl.
  destruct (document _); [| done]. by destruct (close_is_None _).
Qed.

Lemma parse_document_without_disabled root s :
  TalendJob.parse_document (without_disabled_nodes root) s
  = TalendJob.parse_document root s.
Proof.
  unfold TalendJob.parse_document, bind. simpl.
  by rewrite <- parse_elements_without_disabled.
Qed.

Lemma parse_without_disabled (s : TalendJob.St) :
  TalendJob.parse s
  = with_gitfile (TalendJob.gitfile (fst s))
      (TalendJob.parse
         (swap_gitfile (erase_disabled (TalendJob.gitfile (fst s))) s)).
Proof.
  set (g := TalendJob.gitfile (fst s)).
  assert (Hpe : TalendJob.parsed (fst (swap_gitfile (erase_disabled g) s))
                = TalendJob.parsed (fst s)) by (by destruct s as [[] h]).
  destruct (TalendJob.parsed (fst s)) eqn:Hp.
  - rewrite (parse_when_parsed _ Hpe), (parse_when_parsed _ Hp). simpl.
    rewrite swap_gitfile_twice. subst g. by rewrite swap_gitfile_own.
  - pose proof (parse_keeps_gitfile s) as Hkeep. fold g in Hkeep.
    rewrite (parse_unparsed _ Hpe). rewrite (parse_unparsed _ Hp) in *.
    replace (TalendJob.gitfile (fst (swap_gitfile (erase_disabled g) s)))
      with (erase_disabled g) by (by destruct s as [[] h]).
    replace (opened (swap_gitfile (erase_disabled g) s))
      with (swap_gitfile (erase_disabled g) (opened s))
      by (by destruct s as [[] h]).
    fold g in Hkeep |- *. unfold erase_disabled at 1 2.
    cbn [document close_is_None].
    assert (Hown : swap_gitfile g (opened s) = opened s)
      by (subst g; by destruct s as [[] h]).
    destruct (document g) as [root|]; simpl.
    + destruct (close_is_None g); simpl.
      * rewrite parse_document_without_disabled, parse_document_blind,
          with_gitfile_twice.
        symmetry. by apply with_gitfile_own.
      * by rewrite swap_gitfile_twice, Hown.
    + by rewrite swap_gitfile_twice, Hown.
Qed.

Lemma review_parsed_gitfile g j h :
  TalendJob.review_parsed (TalendJob.set_gitfile g j) h
  = TalendJob.review_parsed j h.
Proof. by destruct j. Qed.

Lemma review_without_disabled (s : TalendJob.St) :
  TalendJob.review s
  = with_gitfile (TalendJob.gitfile (fst s))
      (TalendJob.review
         (swap_gitfile (erase_disabled (TalendJob.gitfile (fst s))) s)).
Proof.
  set (g := TalendJob.gitfile (fst s)).
  set (tail := fun _ : unit =>
         bind get (fun s' : TalendJob.St =>
           lift (TalendJob.review_parsed (fst s') (snd s')))).
  assert (Htail : forall u, gitfile_blind (tail u)).
  { intros u g0 s0. unfold tail, bind, get, lift. simpl.
    rewrite review_parsed_gitfile. by destruct (TalendJob.review_parsed _ _). }
  assert (Hunfold : forall s0,
            TalendJob.review s0
            = bind (if TalendJob.parsed (fst s0) then ret tt
                    else TalendJob.parse) tail s0) by reflexivity.
  rewrite !Hunfold.
  replace (TalendJob.parsed (fst (swap_gitfile (erase_disabled g) s)))
    with (TalendJob.parsed (fst s)) by (by destruct s as [[] h]).
  assert (Hhead :
            (if TalendJob.parsed (fst s) then ret tt else TalendJob.parse) s
            = with_gitfile g
                ((if TalendJob.parsed (fst s) then ret tt
                  else TalendJob.parse)
                   (swap_gitfile (erase_disabled g) s))).
  { destruct (TalendJob.parsed (fst s)).
    - unfold ret. simpl. rewrite swap_gitfile_twice. subst g.
      by rewrite swap_gitfile_own.
    - apply parse_without_disabled. }
  unfold bind at 1 2. rewrite Hhead.
  destruct ((if TalendJob.parsed (fst s) then ret tt else TalendJob.parse)
              (swap_gitfile (erase_disabled g) s)) as [u s1|e s1]; simpl;
    [apply Htail | done].
Qed.

Lemma Forall_dict_set {K V} `{EqDecision K} (P : V -> Prop) (k : K) v
    (d : list (K * V)) :
  Forall (fun e => P (snd e)) d -> P v ->
  Forall (fun e => P (snd e)) (dict_set k v d).
Proof.
  intros Hd Hv. induction d as [|[k' v'] d IH]; simpl.
  - by repeat constructor.
  - apply Forall_cons in Hd as [Hx Hd].
    destruct (decide (k = k')); constructor; auto.
Qed.

Lemma parse_element_enabled e s :
  nodes_enabled (fst s) ->
  nodes_enabled (fst (state_of (TalendJob.parse_element e s))).
Proof.
  intros Hs. destruct s as [j h]. unfold nodes_enabled in *. simpl in *.
  unfold TalendJob.parse_element.
  destruct (PyStr.contains "node" (tag e)).
  - unfold TalendJob.parse_node, bind at 1, lift at 1.
    destruct (TalendJob.collect_params e) as [params|]; [| done].
    destruct (TalendJob.node_disabled params) eqn:Hd; [done |].
    unfold bind at 1, lift at 1.
    destruct (dict_item "componentName" (attrib e)) as [cn|]; [| done].
    assert (Hp : TalendJob.node_disabled
                   (dict_set "_componentName" cn params) = false).
    { unfold TalendJob.node_disabled in *.
      by rewrite dict_get_set_ne. }
    revert Hp. generalize (dict_set "_componentName" cn params).
    intros params' Hp. clear Hd.
    run_steps; simpl; try done;
      by apply (Forall_dict_set (fun p => TalendJob.node_disabled p = false)).
  - unfold TalendJob.parse_connection, TalendJob.parse_context.
    run_steps; try done.
    all: try (destruct (heap_alloc _ _)); simpl; done.
Qed.

Lemma parse_enabled s :
  nodes_enabled (fst s) ->
  nodes_enabled (fst (state_of (TalendJob.parse s))).
Proof.
  intros Hs. destruct (TalendJob.parsed (fst s)) eqn:Hp.
  - by rewrite parse_when_parsed.
  - rewrite (parse_unparsed s Hp).
    assert (Ho : nodes_enabled (fst (opened s))) by (by destruct s as [[] h]).
    destruct (document _) as [root|]; [| done].
    destruct (close_is_None _); [| done].
    unfold TalendJob.parse_document.
    unfold bind at 1, TalendJob.on_self at 1, modify at 1.
    unfold bind at 1, TalendJob.on_self at 1, modify at 1.
    unfold bind at 1.
    set (s1 := (TalendJob.set_use_files false _, _)).
    assert (Hs1 : nodes_enabled (fst s1)) by (destruct s as [[] h]; apply Ho).
    pose proof (for_each_preserves
                  (fun s : TalendJob.St => nodes_enabled (fst s))
                  TalendJob.parse_element (subelements root)
                  parse_element_enabled s1 Hs1) as Hl.
    destruct (for_each TalendJob.parse_element (subelements root) s1)
      as [[] s2|e s2]; simpl in *; [| exact Hl].
    destruct s2 as [[] h2]; apply Hl.
Qed.

Lemma review_enabled s :
  nodes_enabled (fst s) ->
  nodes_enabled (fst (state_of (TalendJob.review s))).
Proof.
  intros Hs. unfold TalendJob.review, bind at 1, get at 1. unfold bind at 1.
  assert (Hh : nodes_enabled
                 (fst (state_of ((if TalendJob.parsed (fst s) then ret tt
                                  else TalendJob.parse) s)))).
  { destruct (TalendJob.parsed (fst s)); [done | by apply parse_enabled]. }
  destruct ((if TalendJob.parsed (fst s) then ret tt else TalendJob.parse) s)
    as [[] s1|e s1]; simpl in *; [| done].
  unfold bind, get, lift.
  by destruct (TalendJob.review_parsed (fst s1) (snd s1)).
Qed.

(** C5.  A node element whose collected map holds [ACTIVATE = false]
    contributes nothing: parsing, and reviewing, a job gives the same
    result, exception, job state ([nodes], flags, [children], [tables]
    and all) and heap as on the document from which those elements
    were removed.  Moreover no entry of [nodes] is ever disabled: if
    none is before [parse] or [review] runs, none is afterwards, so the
    test at the head of the review loop never takes its skip branch. *)
Theorem disabled_nodes_are_invisible (s : TalendJob.St) :
  TalendJob.parse s
  = with_gitfile (TalendJob.gitfile (fst s))
      (TalendJob.parse
         (swap_gitfile (erase_disabled (TalendJob.gitfile (fst s))) s)) /\
  TalendJob.review s
  = with_gitfile (TalendJob.gitfile (fst s))
      (TalendJob.review
         (swap_gitfile (erase_disabled (TalendJob.gitfile (fst s))) s)) /\
  (nodes_enabled (fst s) ->
   nodes_enabled (fst (state_of (TalendJob.parse s))) /\
   nodes_enabled (fst (state_of (TalendJob.review s)))).
Proof.
  split; [apply parse_without_disabled |].
  split; [apply review_without_disabled |].
  intros Hs. split; [by apply parse_enabled | by apply review_enabled].
Qed.

Lemma disabled_nodes_are_invisible_witness :
  nodes_enabled
    (fst (state_of (TalendJob.parse (Scenario.fresh_job Scenario.docB)))) /\
  nodes_enabled
    (fst (state_of (TalendJob.review (Scenario.fresh_job Scenario.docB)))).
Proof.
  apply (proj2 (proj2 (disabled_nodes_are_invisible
                         (Scenario.fresh_job Scenario.docB)))).
  constructor.
Defined.

(** ** Master jobs *)

Lemma stable_refl s : stable s s.
Proof. by repeat split. Qed.

Lemma stable_trans s1 s2 s3 : stable s1 s2 -> stable s2 s3 -> stable s1 s3.
Proof.
  intros (Hv1 & Hh1 & Hp1) (Hv2 & Hh2 & Hp2). repeat split.
  - congruence.
  - intros p. by rewrite Hh2, Hh1.
  - intros p job Hg Hpd. apply Hp2; [by apply Hp1 | done].
Qed.

Lemma getitem_Ok j s p s1 :
  TalendProject.getitem j s = Ok p s1 ->
  s1 = s /\ dict_has p (TalendProject.jobs s) = true.
Proof.
  unfold TalendProject.getitem, bind, get, ret, raise, dict_has.
  intros H. repeat case_match; simplify_eq; done.
Qed.

Lemma getitem_stable s s' j p :
  stable s s' ->
  TalendProject.getitem j s = Ok p s -> TalendProject.getitem j s' = Ok p s'.
Proof.
  intros (Hv & Hh & _).
  unfold TalendProject.getitem, bind, get, ret, raise. rewrite Hv.
  intros H.
  destruct (PyStr.contains "item" j).
  - specialize (Hh j). unfold dict_has in Hh.
    repeat case_match; simplify_eq; done.
  - destruct (dict_get j (TalendProject.versions s)) as [reg|]; [| done].
    destruct (dict_get TalendProject.LATEST reg) as [[|v]|]; try done.
    destruct (dict_get (TalendProject.Ver v) reg) as [[q|]|]; try done.
    specialize (Hh q). unfold dict_has in Hh.
    repeat case_match; simplify_eq; done.
Qed.

Lemma on_job_parse_stable p s :
  stable s (state_of (TalendProject.on_job p TalendJob.parse s)).
Proof.
  unfold TalendProject.on_job.
  destruct (dict_get p (TalendProject.jobs s)) as [j|] eqn:Hj;
    [| apply stable_refl].
  assert (Hst : forall j' h',
            (TalendJob.parsed j = true -> j' = j) ->
            stable s (TalendProject.set_heap h'
                        (TalendProject.set_jobs
                           (dict_set p j' (TalendProject.jobs s)) s))).
  { intros j' h' Hsame.
    unfold stable, TalendProject.set_heap, TalendProject.set_jobs.
    cbn [TalendProject.jobs TalendProject.versions].
    split; [done |]. split.
    - intros q. unfold dict_has. destruct (decide (p = q)) as [<-|Hne].
      + by rewrite dict_get_set_eq, Hj.
      + by rewrite dict_get_set_ne.
    - intros q job Hq Hpd. destruct (decide (p = q)) as [<-|Hne].
      + rewrite dict_get_set_eq. rewrite Hj in Hq. injection Hq as ->.
        by rewrite Hsame.
      + by rewrite dict_get_set_ne. }
  destruct (TalendJob.parse (j, TalendProject.heap s)) as [[] s1|e s1] eqn:Hp;
    simpl; apply Hst; intros Hpd;
    rewrite (parse_when_parsed (j, TalendProject.heap s) Hpd) in Hp;
    by simplify_eq.
Qed.

Lemma on_job_parse_Ok p s u s1 :
  TalendProject.on_job p TalendJob.parse s = Ok u s1 ->
  exists job, dict_get p (TalendProject.jobs s1) = Some job /\
              TalendJob.parsed job = true.
Proof.
  unfold TalendProject.on_job.
  destruct (dict_get p (TalendProject.jobs s)) as [j|]; [| discriminate].
  destruct (TalendJob.parse (j, TalendProject.heap s)) as [[] s2|e s2] eqn:Hp;
    [| discriminate].
  intros [= <- <-]. exists (fst s2).
  unfold TalendProject.set_heap, TalendProject.set_jobs.
  cbn [TalendProject.jobs]. rewrite dict_get_set_eq.
  split; [done |]. by eapply parse_Ok_parsed.
Qed.

















Lemma load_item_unparsed float src i s :
  Forall (fun e => TalendJob.children (snd e) = []) (TalendProject.jobs s) ->
  Forall (fun e => TalendJob.children (snd e) = [])
         (TalendProject.jobs
            (state_of (TalendProject.load_item float src i s))).
Proof.
  intros Hs. unfold TalendProject.load_item.
  destruct (float _) as [version|]; [| done].
  unfold bind at 1, get at 1. unfold bind at 1, lift.
  destruct (TalendProject.register_version _ version i _); [| done].
  unfold bind, modify, get, put. simpl.
  by apply (Forall_dict_set (fun j => TalendJob.children j = [])).
Qed.

(** a project as constructed satisfies the side condition of C7 *)
Lemma load_only_resolved float src :
  only_resolved_have_children (state_of (TalendProject.load float src)).
Proof.
  assert (Forall (fun e => TalendJob.children (snd e) = [])
            (TalendProject.jobs (state_of (TalendProject.load float src))))
    as Hall.
  { unfold TalendProject.load. unfold bind at 1, lift.
    destruct (TalendProject.item_paths src) as [items|e]; [| constructor].
    unfold bind at 1, modify at 1.
    destruct (document (TalendProject.project_file src)) as [root|];
      [| constructor].
    destruct (negb _); [constructor |].
    destruct (subelements root) as [|first rest]; [constructor |].
    unfold bind at 1.
    destruct (dict_get "productVersion" (attrib first)); [| constructor].
    unfold modify at 1. unfold bind at 1.
    destruct (dict_get "technicalLabel" (attrib first)); [| constructor].
    unfold modify at 1.
    apply (for_each_preserves
             (fun s => Forall (fun e => TalendJob.children (snd e) = [])
                              (TalendProject.jobs s))
             _ items (load_item_unparsed float src)).
    constructor. }
  intros p job Hjob Hc. exfalso. apply Hc.
  apply dict_get_Some_In in Hjob. rewrite Forall_forall in Hall.
  by apply (Hall (p, job)), list_elem_of_In.
Qed.



(** ** The uniform parameter rules *)

Section RuleEngine.
Variable name : string.

Lemma append_violation_keys rule v r r' :
  TalendJob.append_violation rule name v r = Done r' ->
  dict_keys r' = dict_keys r.
Proof.
  unfold TalendJob.append_violation, dict_item, rbind. intros H.
  destruct (dict_get rule r) as [inner|] eqn:Hr; [| discriminate].
  destruct (dict_get name inner) as [l|]; [| discriminate].
  destruct v as [v|]; [| discriminate]. injection H as <-.
  rewrite dict_keys_set. unfold dict_has. by rewrite Hr.
Qed.

Lemma append_violation_other rule rule' v r r' :
  TalendJob.append_violation rule' name v r = Done r' ->
  rule <> rule' -> viols rule name r' = viols rule name r.
Proof.
  unfold TalendJob.append_violation, dict_item, rbind. intros H Hne.
  destruct (dict_get rule' r) as [inner|]; [| discriminate].
  destruct (dict_get name inner) as [l|]; [| discriminate].
  destruct v as [v|]; [| discriminate]. injection H as <-.
  unfold viols. by rewrite dict_get_set_ne.
Qed.

Lemma append_violation_same rule v r r' l :
  TalendJob.append_violation rule name (Done v) r = Done r' ->
  viols rule name r = Some l -> viols rule name r' = Some (l ++ [v]).
Proof.
  unfold TalendJob.append_violation, dict_item, rbind, viols. intros H.
  destruct (dict_get rule r) as [inner|]; [| discriminate].
  intros Hl. rewrite Hl in H. injection H as <-.
  rewrite dict_get_set_eq. apply dict_get_set_eq.
Qed.

Lemma check_literals_spec table rule node p : forall r r' l,
  TalendJob.check_literals table name node p r = Done r' ->
  viols rule name r = Some l ->
  dict_keys r' = dict_keys r /\
  viols rule name r' = Some (l ++ literal_viols table rule node p).
Proof.
  unfold TalendJob.check_literals.
  induction table as [|[param expected] table IH]; intros r r' l H Hl;
    simpl in *.
  - injection H as <-. by rewrite app_nil_r.
  - unfold rbind in H at 1.
    destruct (dict_get param p) as [actual|] eqn:Hp.
    + destruct (negb (String.eqb actual expected)) eqn:Hne.
      * destruct (TalendJob.append_violation param name _ r) as [r1|] eqn:Ha;
          [| discriminate].
        apply append_violation_keys in Ha as Hk.
        destruct (String.eqb_spec param rule) as [->|Hpr].
        -- apply (append_violation_same _ _ _ _ l) in Ha; [| done].
           destruct (IH r1 r' _ H Ha) as [Hk' Hv]. split; [congruence |].
           by rewrite Hv, <- app_assoc.
        -- apply (append_violation_other rule) in Ha; [| done].
           rewrite <- Ha in Hl.
           destruct (IH r1 r' _ H Hl) as [Hk' Hv]. split; [congruence | done].
      * destruct (IH r r' _ H Hl) as [Hk' Hv]. split; [done |].
        by destruct (String.eqb param rule).
    + destruct (IH r r' _ H Hl) as [Hk' Hv]. split; [done |].
      by destruct (String.eqb param rule).
Qed.

(** a loop whose iterations only append under rules other than [rule] *)
Lemma rfold_frames {A} (rule : string)
    (body : TalendJob.Results -> A -> result TalendJob.Results) xs :
  (forall r x r', body r x = Done r' ->
     dict_keys r' = dict_keys r /\ viols rule name r' = viols rule name r) ->
  forall r r', rfold body xs r = Done r' ->
    dict_keys r' = dict_keys r /\ viols rule name r' = viols rule name r.
Proof.
  intros Hbody. induction xs as [|x xs IH]; intros r r' H; simpl in H.
  - by injection H as <-.
  - unfold rbind in H. destruct (body r x) as [r1|] eqn:Hb; [| discriminate].
    destruct (Hbody _ _ _ Hb) as [Hk Hv]. destruct (IH _ _ H) as [Hk' Hv'].
    split; congruence.
Qed.

Lemma check_edw_frames rule node p r r' :
  ~ In rule ["HOST"; "USER"; "PASS"] ->
  TalendJob.check_edw name node p r = Done r' ->
  dict_keys r' = dict_keys r /\ viols rule name r' = viols rule name r.
Proof.
  intros Hrule. unfold TalendJob.check_edw.
  assert (Hin : forall e, In e TalendJob.edw_params -> rule <> fst e).
  { intros e He ->. apply Hrule.
    change ["HOST"; "USER"; "PASS"] with (map fst TalendJob.edw_params).
    by apply in_map. }
  revert r r' Hin. generalize TalendJob.edw_params.
  induction l as [|x xs IH]; intros r r' Hin H; simpl in H.
  - by injection H as <-.
  - unfold rbind in H at 1.
    assert (Hx : rule <> fst x) by (apply Hin; by left).
    assert (Hxs : forall e, In e xs -> rule <> fst e)
      by (intros e He; apply Hin; by right).
    destruct (dict_get (fst x) p) as [actual|]; [| by apply IH].
    destruct (negb _); [| by apply IH].
    destruct (TalendJob.append_violation (fst x) name _ r) as [r1|] eqn:Ha;
      [| discriminate].
    apply append_violation_keys in Ha as Hk.
    apply (append_violation_other rule) in Ha; [| done].
    destruct (IH _ _ Hxs H) as [Hk' Hv']. split; congruence.
Qed.

End RuleEngine.

Lemma review_node_spec j r entry r' l :
  TalendJob.review_node j r entry = Done r' ->
  viols "DIE_ON_ERROR" (TalendJob.name j) r = Some l ->
  dict_keys r' = dict_keys r /\
  viols "DIE_ON_ERROR" (TalendJob.name j) r'
  = Some (l ++ die_on_error_viols entry).
Proof.
  unfold TalendJob.review_node, die_on_error_viols. intros H Hl.
  destruct (TalendJob.node_disabled (snd entry)).
  { injection H as <-. by rewrite app_nil_r. }
  unfold rbind in H at 1.
  destruct (TalendJob.check_literals TalendJob.check_params _ _ _ r)
    as [r1|] eqn:H1; [| discriminate].
  destruct (check_literals_spec _ _ "DIE_ON_ERROR" _ _ _ _ _ H1 Hl)
    as [Hk1 Hv1].
  assert (Hlit : literal_viols TalendJob.check_params "DIE_ON_ERROR"
                   (fst entry) (snd entry)
                 = match dict_get "DIE_ON_ERROR" (snd entry) with
                   | Some actual =>
                       if negb (String.eqb actual "true")
                       then [mkViolation (Some (fst entry)) None
                               (TalendJob.must_be_set "DIE_ON_ERROR" "true"
                                  actual)]
                       else []
                   | None => []
                   end).
  { unfold literal_viols. simpl. by rewrite app_nil_r. }
  rewrite Hlit in Hv1. clear Hlit.
  unfold rbind in H at 1.
  match type of H with
  | match ?m with Done _ => _ | Fail _ => _ end = _ =>
      destruct m as [r2|] eqn:H2; [| discriminate]
  end.
  assert (Hr2 : dict_keys r2 = dict_keys r1 /\
                viols "DIE_ON_ERROR" (TalendJob.name j) r2
                = viols "DIE_ON_ERROR" (TalendJob.name j) r1).
  { destruct (TalendJob.flag_truthy _); [| by injection H2 as <-].
    unfold rbind in H2.
    destruct (dict_item "_componentName" (snd entry)); [| discriminate].
    destruct (_ && _); [| by injection H2 as <-].
    apply (check_edw_frames _ "DIE_ON_ERROR" _ _ _ _) in H2; [done |].
    simpl. intros [|[|[|[]]]]; discriminate. }
  destruct Hr2 as [Hk2 Hv2].
  destruct (TalendJob.use_files j).
  - rewrite <- Hv2 in Hv1.
    destruct (check_literals_spec _ _ "DIE_ON_ERROR" _ _ _ _ _ H Hv1)
      as [Hk3 Hv3].
    split; [congruence |]. rewrite Hv3. simpl. by rewrite app_nil_r.
  - injection H as <-. split; congruence.
Qed.

Lemma review_nodes_spec j nodes : forall r r' l,
  rfold (TalendJob.review_node j) nodes r = Done r' ->
  viols "DIE_ON_ERROR" (TalendJob.name j) r = Some l ->
  dict_keys r' = dict_keys r /\
  viols "DIE_ON_ERROR" (TalendJob.name j) r'
  = Some (l ++ flat_map die_on_error_viols nodes).
Proof.
  induction nodes as [|entry nodes IH]; intros r r' l H Hl; simpl in H.
  - injection H as <-. simpl. by rewrite app_nil_r.
  - unfold rbind in H.
    destruct (TalendJob.review_node j r entry) as [r1|] eqn:H1;
      [| discriminate].
    destruct (review_node_spec _ _ _ _ _ H1 Hl) as [Hk1 Hv1].
    destruct (IH _ _ _ H Hv1) as [Hk Hv]. split; [congruence |].
    rewrite Hv. simpl. by rewrite app_assoc.
Qed.

Lemma check_context_frames j h r r' :
  TalendJob.check_context j h r = Done r' ->
  dict_keys r' = dict_keys r /\
  viols "DIE_ON_ERROR" (TalendJob.name j) r'
  = viols "DIE_ON_ERROR" (TalendJob.name j) r.
Proof.
  unfold TalendJob.check_context.
  destruct (TalendJob.flag_truthy _); [| by intros [= <-]].
  apply rfold_frames. intros r0 x r1 H.
  destruct (match TalendJob.context j with [] => None | _ => _ end);
    [| discriminate].
  destruct (negb _); [| by injection H as <-].
  split; [by eapply append_violation_keys |].
  by eapply append_violation_other.
Qed.

Lemma check_connections_frames j r r' :
  TalendJob.check_connections j r = Done r' ->
  dict_keys r' = dict_keys r /\
  viols "DIE_ON_ERROR" (TalendJob.name j) r'
  = viols "DIE_ON_ERROR" (TalendJob.name j) r.
Proof.
  unfold TalendJob.check_connections.
  apply rfold_frames. intros r0 x r1 H.
  destruct (_ || _); [| by injection H as <-].
  split; [by eapply append_violation_keys |].
  by eapply append_violation_other.
Qed.

Lemma wrap_lists_get name inner :
  dict_get name (wrap_lists inner) = option_map RList (dict_get name inner).
Proof.
  induction inner as [|[k l] inner IH]; simpl; [done |].
  by destruct (decide (name = k)).
Qed.

Lemma nonempty_results_get name results : forall out res,
  NoDup (dict_keys results) ->
  rfold
    (fun out (entry : string * list (string * list Violation)) =>
       rbind (dict_item name (snd entry)) (fun l =>
       match l with
       | [] => Done out
       | _ :: _ => Done (dict_set (fst entry) (wrap_lists (snd entry)) out)
       end))
    results out = Done res ->
  forall rule,
    dict_get rule res
    = match viols rule name results with
      | Some (_ :: _) => option_map wrap_lists (dict_get rule results)
      | _ => dict_get rule out
      end.
Proof.
  unfold viols.
  induction results as [|[k inner] results IH]; intros out res Hnd H rule;
    simpl in *.
  - by injection H as <-.
  - apply NoDup_cons in Hnd as [Hk Hnd].
    unfold rbind at 1, dict_item in H.
    destruct (dict_get name inner) as [l|] eqn:Hl; [| discriminate].
    assert (Hrest : dict_get k results = None).
    { apply dict_get_None. intros Hin. apply Hk. by apply list_elem_of_In. }
    destruct (decide (rule = k)) as [->|Hne].
    + rewrite Hl. destruct l as [|v l].
      * rewrite (IH _ _ Hnd H k). by rewrite Hrest.
      * rewrite (IH _ _ Hnd H k). rewrite Hrest.
        by rewrite dict_get_set_eq.
    + destruct l as [|v l]; rewrite (IH _ _ Hnd H rule);
        repeat case_match; try done.
      all: by rewrite dict_get_set_ne.
Qed.

Lemma for_node_die node entry :
  for_node node (die_on_error_viols entry)
  = if decide (fst entry = node) then die_on_error_viols entry else [].
Proof.
  unfold die_on_error_viols, for_node.
  destruct (decide (fst entry = node)) as [<-|Hne].
  - repeat case_match; simpl; try done. by rewrite bool_decide_eq_true_2.
  - repeat case_match; simpl; try done.
    rewrite bool_decide_eq_false_2; [done | congruence].
Qed.

Lemma for_node_absent node nodes :
  ~ In node (dict_keys nodes) ->
  for_node node (flat_map die_on_error_viols nodes) = [].
Proof.
  induction nodes as [|[k q] nodes IH]; intros Hn; simpl in *; [done |].
  unfold for_node in *. rewrite List.filter_app.
  fold (for_node node (die_on_error_viols (k, q))).
  rewrite for_node_die. simpl.
  destruct (decide (k = node)) as [->|Hne]; [tauto |].
  apply IH. tauto.
Qed.

Lemma for_node_present node p nodes :
  NoDup (dict_keys nodes) -> In (node, p) nodes ->
  for_node node (flat_map die_on_error_viols nodes)
  = die_on_error_viols (node, p).
Proof.
  induction nodes as [|[k q] nodes IH]; intros Hnd Hin; simpl in *; [done |].
  apply NoDup_cons in Hnd as [Hk Hnd].
  unfold for_node in *. rewrite List.filter_app.
  fold (for_node node (die_on_error_viols (k, q))).
  fold (for_node node (flat_map die_on_error_viols nodes)).
  rewrite for_node_die. simpl.
  destruct Hin as [[= -> ->]|Hin].
  - rewrite decide_True by done.
    rewrite for_node_absent; [by rewrite app_nil_r |].
    intros Hi. apply Hk. by apply list_elem_of_In.
  - rewrite decide_False; [by apply IH |].
    intros ->. apply Hk. apply list_elem_of_In.
    change node with (fst (node, p)). by apply in_map.
Qed.

Lemma initial_results_die name :
  NoDup (dict_keys (TalendJob.initial_results name)) /\
  viols "DIE_ON_ERROR" name (TalendJob.initial_results name) = Some [].
Proof.
  split.
  - apply (bool_decide_unpack _). vm_compute. exact I.
  - unfold viols.
    change (dict_get "DIE_ON_ERROR" (TalendJob.initial_results name))
      with (Some [(name, @nil Violation)]).
    simpl. by rewrite decide_True.
Qed.

(** the list recorded under [DIE_ON_ERROR] when the review of a parsed
    job returns *)
Lemma review_parsed_die j h res :
  TalendJob.review_parsed j h = Done res ->
  forall inner l,
    let expected := flat_map die_on_error_viols (TalendJob.nodes j) in
    (expected <> [] ->
     exists inner, dict_get "DIE_ON_ERROR" res = Some inner /\
                   dict_get (TalendJob.name j) inner = Some (RList expected))
    /\
    (dict_get "DIE_ON_ERROR" res = Some inner ->
     dict_get (TalendJob.name j) inner = Some (RList l) ->
     l = expected).
Proof.
  intros H inner l expected. unfold TalendJob.review_parsed in H.
  destruct (initial_results_die (TalendJob.name j)) as [Hnd0 Hv0].
  unfold rbind in H at 1.
  destruct (rfold (TalendJob.review_node j) _ _) as [r1|] eqn:H1;
    [| discriminate].
  destruct (review_nodes_spec _ _ _ _ _ H1 Hv0) as [Hk1 Hv1].
  unfold rbind in H at 1.
  destruct (TalendJob.check_context j h r1) as [r2|] eqn:H2; [| discriminate].
  destruct (check_context_frames _ _ _ _ H2) as [Hk2 Hv2].
  unfold rbind in H at 1.
  destruct (TalendJob.check_connections j r2) as [r3|] eqn:H3;
    [| discriminate].
  destruct (check_connections_frames _ _ _ H3) as [Hk3 Hv3].
  assert (Hnd3 : NoDup (dict_keys r3)) by congruence.
  assert (Hv : viols "DIE_ON_ERROR" (TalendJob.name j) r3 = Some expected)
    by (rewrite Hv3, Hv2, Hv1; done).
  pose proof (nonempty_results_get (TalendJob.name j) r3 [] res Hnd3 H
                "DIE_ON_ERROR") as Hget.
  rewrite Hv in Hget. unfold viols in Hv.
  destruct (dict_get "DIE_ON_ERROR" r3) as [inner3|]; [| discriminate].
  split.
  - intros Hne. destruct expected as [|v vs]; [done |].
    exists (wrap_lists inner3). split; [done |].
    by rewrite wrap_lists_get, Hv.
  - intros Hres Hl. rewrite Hres in Hget.
    destruct expected as [|v vs]; [discriminate |].
    injection Hget as ->. rewrite wrap_lists_get, Hv in Hl.
    by injection Hl as ->.
Qed.

(** [nodes] stays a dictionary through parsing, as C8 assumes *)
Lemma parse_element_nodes_NoDup e (s : TalendJob.St) :
  NoDup (dict_keys (TalendJob.nodes (fst s))) ->
  NoDup (dict_keys
           (TalendJob.nodes (fst (state_of (TalendJob.parse_element e s))))).
Proof.
  intros Hs. destruct s as [j h]. simpl in *.
  unfold TalendJob.parse_element, TalendJob.parse_node,
    TalendJob.parse_connection, TalendJob.parse_context.
  run_steps; try done; try (by apply dict_set_NoDup).
  all: try (destruct (heap_alloc _ _)); simpl; done.
Qed.

Lemma parse_nodes_NoDup (s : TalendJob.St) :
  NoDup (dict_keys (TalendJob.nodes (fst s))) ->
  NoDup (dict_keys (TalendJob.nodes (fst (state_of (TalendJob.parse s))))).
Proof.
  intros Hs. destruct (TalendJob.parsed (fst s)) eqn:Hp.
  - by rewrite parse_when_parsed.
  - rewrite (parse_unparsed s Hp).
    assert (Ho : NoDup (dict_keys (TalendJob.nodes (fst (opened s)))))
      by (by destruct s as [[] h]).
    destruct (document _) as [root|]; [| done].
    destruct (close_is_None _); [| done].
    unfold TalendJob.parse_document.
    unfold bind at 1, TalendJob.on_self at 1, modify at 1.
    unfold bind at 1, TalendJob.on_self at 1, modify at 1.
    unfold bind at 1.
    set (s1 := (TalendJob.set_use_files false _, _)).
    assert (Hs1 : NoDup (dict_keys (TalendJob.nodes (fst s1))))
      by (destruct s as [[] h]; apply Ho).
    pose proof (for_each_preserves
                  (fun s : TalendJob.St =>
                     NoDup (dict_keys (TalendJob.nodes (fst s))))
                  TalendJob.parse_element (subelements root)
                  parse_element_nodes_NoDup s1 Hs1) as Hl.
    destruct (for_each TalendJob.parse_element (subelements root) s1)
      as [[] s2|e s2]; simpl in *; [| exact Hl].
    destruct s2 as [[] h2]; apply Hl.
Qed.

(** C8.  When the review of a parsed job returns, a retained node that
    defines [DIE_ON_ERROR] with a value other than ['true'] has exactly
    one violation under the rule [DIE_ON_ERROR] and the job's name, and
    its message quotes the parameter, ['true'] and the actual value; a
    retained node that does not define the parameter has none. *)
Theorem uniform_parameter_rule s res s' node p :
  TalendJob.parsed (fst s) = true ->
  TalendJob.review s = Ok res s' ->
  NoDup (dict_keys (TalendJob.nodes (fst s))) ->
  In (node, p) (TalendJob.nodes (fst s)) ->
  TalendJob.node_disabled p = false ->
  (forall actual,
     dict_get "DIE_ON_ERROR" p = Some actual -> actual <> "true" ->
     exists inner l,
       dict_get "DIE_ON_ERROR" res = Some inner /\
       dict_get (TalendJob.name (fst s)) inner = Some (RList l) /\
       for_node node l
       = [mkViolation (Some node) None
            ("Value 'DIE_ON_ERROR' must be set to 'true' (actual: '"
               ++ actual ++ "')")]) /\
  (dict_get "DIE_ON_ERROR" p = None ->
   forall inner l,
     dict_get "DIE_ON_ERROR" res = Some inner ->
     dict_get (TalendJob.name (fst s)) inner = Some (RList l) ->
     for_node node l = []).
Proof.
  intros Hp Hrev Hnd Hin Hen. rewrite (review_when_parsed s Hp) in Hrev.
  unfold lift in Hrev.
  destruct (TalendJob.review_parsed (fst s) (snd s)) as [res0|] eqn:Hr;
    [| discriminate].
  injection Hrev as -> <-.
  pose proof (for_node_present node p _ Hnd Hin) as Hnode.
  unfold die_on_error_viols in Hnode at 2. simpl in Hnode. rewrite Hen in Hnode.
  split.
  - intros actual Hact Hne. rewrite Hact in Hnode.
    assert (Hneq : negb (String.eqb actual "true") = true)
      by (apply negb_true_iff, String.eqb_neq; done).
    rewrite Hneq in Hnode.
    destruct (review_parsed_die _ _ _ Hr [] []) as [Hex _].
    destruct Hex as (inner & Hres & Hl).
    { intros Hnil. rewrite Hnil in Hnode. discriminate. }
    by exists inner, (flat_map die_on_error_viols (TalendJob.nodes (fst s))).
  - intros Hnone inner l Hres Hl. rewrite Hnone in Hnode.
    destruct (review_parsed_die _ _ _ Hr inner l) as [_ Heq].
    by rewrite (Heq Hres Hl).
Qed.

Lemma uniform_parameter_rule_witness :
  (forall actual,
     dict_get "DIE_ON_ERROR"
       [("UNIQUE_NAME", "tJava_1"); ("DIE_ON_ERROR", "false");
        ("_componentName", "tJava")] = Some actual ->
     actual <> "true" ->
     exists inner l,
       dict_get "DIE_ON_ERROR"
         [("DIE_ON_ERROR",
           [("B", RList [mkViolation (Some "tJava_1") None
                           "Value 'DIE_ON_ERROR' must be set to 'true' (actual: 'false')"])]);
          ("ON_COMPONENT_ERROR",
           [("B", RList [mkViolation (Some "OnComponentError1") None
                           "'OnComponentError' trigger depreciated. Use 'if' trigger instead."])])]
       = Some inner /\
       dict_get (TalendJob.name (fst Scenario.parsed_B)) inner
       = Some (RList l) /\
       for_node "tJava_1" l
       = [mkViolation (Some "tJava_1") None
            ("Value 'DIE_ON_ERROR' must be set to 'true' (actual: '"
               ++ actual ++ "')")]) /\
  (dict_get "DIE_ON_ERROR"
     [("UNIQUE_NAME", "tJava_1"); ("DIE_ON_ERROR", "false");
      ("_componentName", "tJava")] = None ->
   forall inner l,
     dict_get "DIE_ON_ERROR"
       [("DIE_ON_ERROR",
         [("B", RList [mkViolation (Some "tJava_1") None
                         "Value 'DIE_ON_ERROR' must be set to 'true' (actual: 'false')"])]);
        ("ON_COMPONENT_ERROR",
         [("B", RList [mkViolation (Some "OnComponentError1") None
                         "'OnComponentError' trigger depreciated. Use 'if' trigger instead."])])]
     = Some inner ->
     dict_get (TalendJob.name (fst Scenario.parsed_B)) inner
     = Some (RList l) ->
     for_node "tJava_1" l = []).
Proof.
  apply (uniform_parameter_rule Scenario.parsed_B _ Scenario.parsed_B
           "tJava_1").
  - vm_compute. reflexivity.
  - vm_compute. reflexivity.
  - apply (bool_decide_unpack _). vm_compute. exact I.
  - vm_compute. left. reflexivity.
  - vm_compute. reflexivity.
Defined.

(** ** The merged context writes through to the jobs *)

(** C3 (the code departs from the claim).  On the project of jobs A and
    B, both parsed, job A's context group [Default] holds [X] only;
    [get_merged_context("A")] returns, and afterwards the same group
    of job A holds [Y] as well, the parameter of its child B: line 208
    stores the job's own dictionary in [ctx] and line 217 writes into
    it. *)
Theorem get_merged_context_writes_job_context :
  context_of Scenario.two_jobs_parsed "process/A_1.0.item"
  = [("Default", [("X", "1")])] /\
  returned (TalendProject.get_merged_context 3 "A" Scenario.two_jobs_parsed)
  = Some [("Default", 0)] /\
  context_of
    (state_of (TalendProject.get_merged_context 3 "A"
                 Scenario.two_jobs_parsed))
    "process/A_1.0.item"
  = [("Default", [("X", "1"); ("Y", "2")])].
Proof. split; [| split]; by vm_compute. Qed.

(** ** Merging the reviews of the children *)

Section Union.
Context {K V : Type} `{EqDecision K}.
Implicit Types (a b : list (K * V)).

Lemma dict_set_absent k v a :
  dict_get k a = None -> dict_set k v a = a ++ [(k, v)].
Proof.
  induction a as [|[k' v'] a IH]; simpl; [done |].
  destruct (decide (k = k')); [discriminate |].
  intros Hg. by rewrite IH.
Qed.

Lemma dict_set_present k v a :
  NoDup (dict_keys a) -> In k (dict_keys a) ->
  dict_set k v a
  = map (fun e => if decide (fst e = k) then (fst e, v) else e) a.
Proof.
  induction a as [|[k' v'] a IH]; simpl; [done |].
  intros [Hk Hnd]%NoDup_cons Hin.
  destruct (decide (k = k')) as [->|Hne].
  - rewrite decide_True by done. f_equal.
    rewrite <- (map_id a) at 1. apply map_ext_in.
    intros [k0 v0] H0. simpl. rewrite decide_False; [done |].
    intros ->. apply Hk, list_elem_of_In.
    change k' with (fst (k', v0)). by apply in_map.
  - rewrite decide_False by congruence. f_equal.
    apply IH; [done |]. destruct Hin; [congruence | done].
Qed.

Lemma In_dict_set_ne k v k' v' a :
  In (k', v') (dict_set k v a) -> k' <> k -> In (k', v') a.
Proof.
  induction a as [|[k0 v0] a IH]; simpl.
  - intros [[= -> ->]|[]] Hne. congruence.
  - destruct (decide (k = k0)) as [->|Hk]; simpl.
    + intros [[= -> ->]|Hin] Hne; [congruence | by right].
    + intros [Heq|Hin] Hne; [by left | right; by apply IH].
Qed.

Lemma fold_union_spec (f g : V -> V -> V) b : forall a,
  NoDup (dict_keys a) -> NoDup (dict_keys b) ->
  (forall k va vb, In (k, va) a -> In (k, vb) b -> f va vb = g va vb) ->
  fold_union f a b = map_union g a b.
Proof.
  unfold fold_union, map_union.
  induction b as [|[k vb] b IH]; intros a Hna Hnb Hfg; simpl.
  - rewrite app_nil_r. rewrite <- (map_id a) at 1.
    apply map_ext_in. by intros [k v] _.
  - apply NoDup_cons in Hnb as [Hkb Hnb].
    assert (Hkb' : dict_get k b = None).
    { apply dict_get_None. intros Hi. by apply Hkb, list_elem_of_In. }
    assert (Hother : forall k', In k' (dict_keys b) -> k' <> k).
    { intros k' Hi ->. by apply Hkb, list_elem_of_In. }
    set (a1 := match dict_get k a with
               | Some old => dict_set k (f old vb) a
               | None => dict_set k vb a
               end).
    assert (Ha1 : NoDup (dict_keys a1))
      by (unfold a1; destruct (dict_get k a); by apply dict_set_NoDup).
    rewrite (IH a1 Ha1 Hnb).
    2:{ intros k' va vb' Hin1 Hinb. apply (Hfg k'); [| by right].
        assert (k' <> k).
        { apply Hother. change k' with (fst (k', vb')). by apply in_map. }
        unfold a1 in Hin1.
        destruct (dict_get k a);
          by apply (In_dict_set_ne k _ k' va a Hin1). }
    assert (Hfilter : List.filter (fun e => negb (dict_has (fst e) a1)) b
                      = List.filter (fun e => negb (dict_has (fst e) a)) b).
    { apply filter_ext_in. intros [k' v'] Hin. simpl. f_equal.
      assert (k <> k').
      { intros ->. apply (Hother k'); [| done].
        change k' with (fst (k', v')). by apply in_map. }
      unfold a1, dict_has.
      destruct (dict_get k a); by rewrite dict_get_set_ne. }
    rewrite Hfilter.
    destruct (dict_get k a) as [old|] eqn:Hka; unfold a1.
    + assert (Hin : In k (dict_keys a)).
      { apply dict_has_true. unfold dict_has. by rewrite Hka. }
      assert (Hhas : dict_has k a = true) by (by apply dict_has_true).
      rewrite Hhas. simpl. f_equal.
      rewrite dict_set_present by done. rewrite map_map.
      apply map_ext_in. intros [k0 v0] H0. simpl.
      destruct (decide (k0 = k)) as [->|Hne]; simpl.
      * rewrite Hkb'. rewrite ?decide_True by done.
        apply (dict_get_In _ _ _ Hna) in H0. rewrite Hka in H0.
        injection H0 as <-. f_equal. apply (Hfg k); [| by left].
        by apply dict_get_Some_In.
      * rewrite ?decide_False by done. done.
    + assert (Hhas : dict_has k a = false)
        by (unfold dict_has; by rewrite Hka).
      rewrite Hhas. simpl.
      rewrite dict_set_absent by done. rewrite map_app. simpl.
      rewrite Hkb', <- app_assoc. simpl. f_equal.
      apply map_ext_in. intros [k0 v0] H0. simpl.
      rewrite decide_False; [done |].
      intros ->. apply dict_get_None in Hka. apply Hka.
      change k with (fst (k, v0)). by apply in_map.
Qed.

Lemma dict_update_fold_union a b :
  dict_update a b = fold_union (fun _ new => new) a b.
Proof.
  unfold dict_update, fold_union. revert a.
  induction b as [|[k v] b IH]; intros a; simpl; [done |].
  rewrite IH. by destruct (dict_get k a).
Qed.

End Union.

Lemma rfold_preserves {A B} (Q : B -> Prop) (body : B -> A -> result B) xs :
  (forall r x r', body r x = Done r' -> Q r -> Q r') ->
  forall r r', rfold body xs r = Done r' -> Q r -> Q r'.
Proof.
  intros Hbody. induction xs as [|x xs IH]; intros r r' H Hr; simpl in H.
  - by injection H as <-.
  - unfold rbind in H. destruct (body r x) as [r1|] eqn:Hb; [| discriminate].
    eapply IH; [done |]. by eapply Hbody.
Qed.

Section Preservation.
Variable Q : TalendJob.Results -> Prop.
Variable j : TalendJob.t.
Hypothesis append_ok : forall rule v r r',
  TalendJob.append_violation rule (TalendJob.name j) v r = Done r' ->
  Q r -> Q r'.

Lemma check_literals_preserves table node p r r' :
  TalendJob.check_literals table (TalendJob.name j) node p r = Done r' ->
  Q r -> Q r'.
Proof.
  apply rfold_preserves. intros r0 x r1 H Hr. cbv beta zeta in H.
  destruct (dict_get (fst x) p); [| by injection H as <-].
  destruct (negb _); [by eapply append_ok | by injection H as <-].
Qed.

Lemma check_edw_preserves node p r r' :
  TalendJob.check_edw (TalendJob.name j) node p r = Done r' -> Q r -> Q r'.
Proof.
  apply rfold_preserves. intros r0 x r1 H Hr. cbv beta zeta in H.
  destruct (dict_get (fst x) p); [| by injection H as <-].
  destruct (negb _); [by eapply append_ok | by injection H as <-].
Qed.

Lemma review_node_preserves r entry r' :
  TalendJob.review_node j r entry = Done r' -> Q r -> Q r'.
Proof.
  unfold TalendJob.review_node. intros H Hr.
  destruct (TalendJob.node_disabled _); [by injection H as <- |].
  unfold rbind in H at 1.
  destruct (TalendJob.check_literals TalendJob.check_params _ _ _ r)
    as [r1|] eqn:H1; [| discriminate].
  apply check_literals_preserves in H1; [| done].
  unfold rbind in H at 1.
  match type of H with
  | match ?m with Done _ => _ | Fail _ => _ end = _ =>
      destruct m as [r2|] eqn:H2; [| discriminate]
  end.
  assert (Hr2 : Q r2).
  { destruct (TalendJob.flag_truthy _); [| by injection H2 as <-].
    unfold rbind in H2.
    destruct (dict_item "_componentName" (snd entry)); [| discriminate].
    destruct (_ && _); [| by injection H2 as <-].
    by eapply check_edw_preserves. }
  destruct (TalendJob.use_files j); [| by injection H as <-].
  by eapply check_literals_preserves.
Qed.

Lemma check_context_preserves h r r' :
  TalendJob.check_context j h r = Done r' -> Q r -> Q r'.
Proof.
  unfold TalendJob.check_context.
  destruct (TalendJob.flag_truthy _); [| by intros [= <-]].
  apply rfold_preserves. intros r0 x r1 H Hr. cbv beta zeta in H.
  destruct (match TalendJob.context j with [] => None | _ => _ end);
    [| discriminate].
  destruct (negb _); [by eapply append_ok | by injection H as <-].
Qed.

Lemma check_connections_preserves r r' :
  TalendJob.check_connections j r = Done r' -> Q r -> Q r'.
Proof.
  apply rfold_preserves. intros r0 x r1 H Hr. cbv beta zeta in H.
  destruct (_ || _); [by eapply append_ok | by injection H as <-].
Qed.

End Preservation.

Lemma append_violation_inner_ok name rule v r r' :
  TalendJob.append_violation rule name v r = Done r' ->
  inner_ok r -> inner_ok r'.
Proof.
  unfold TalendJob.append_violation, dict_item, rbind. intros H Hr.
  destruct (dict_get rule r) as [inner|] eqn:Hg; [| discriminate].
  destruct (dict_get name inner) as [l|]; [| discriminate].
  destruct v as [v|]; [| discriminate]. injection H as <-.
  apply (Forall_dict_set (fun d => NoDup (dict_keys d))); [done |].
  apply dict_set_NoDup. apply dict_get_Some_In in Hg.
  unfold inner_ok in Hr. rewrite Forall_forall in Hr.
  by apply (Hr (rule, inner)), list_elem_of_In.
Qed.

Lemma initial_results_inner_ok name :
  inner_ok (TalendJob.initial_results name).
Proof.
  unfold inner_ok.
  change (TalendJob.initial_results name)
    with (map (fun k : string => (k, [(name, @nil Violation)]))
              (dict_keys (TalendJob.initial_results name))).
  apply Forall_map, Forall_forall. intros k _. simpl. apply NoDup_singleton.
Qed.

Lemma wrap_lists_keys inner : dict_keys (wrap_lists inner) = dict_keys inner.
Proof.
  unfold wrap_lists, dict_keys. rewrite map_map. by apply map_ext.
Qed.

Lemma nonempty_results_wf name results : forall out res,
  inner_ok results -> wf_review out ->
  rfold
    (fun out (entry : string * list (string * list Violation)) =>
       rbind (dict_item name (snd entry)) (fun l =>
       match l with
       | [] => Done out
       | _ :: _ => Done (dict_set (fst entry) (wrap_lists (snd entry)) out)
       end))
    results out = Done res ->
  wf_review res.
Proof.
  induction results as [|[k inner] results IH]; intros out res Hin Hout H;
    simpl in H.
  - by injection H as <-.
  - apply Forall_cons in Hin as [Hk Hin]. unfold rbind at 1 in H.
    destruct (dict_item name inner) as [[|v l]|]; [| | discriminate].
    + exact (IH _ _ Hin Hout H).
    + refine (IH _ _ Hin _ H). destruct Hout as [Hnd Hok]. split.
      * by apply dict_set_NoDup.
      * apply (Forall_dict_set (fun d => NoDup (dict_keys d))); [done |].
        by rewrite wrap_lists_keys.
Qed.

Lemma review_parsed_wf j h res :
  TalendJob.review_parsed j h = Done res -> wf_review res.
Proof.
  unfold TalendJob.review_parsed. intros H.
  pose proof (initial_results_inner_ok (TalendJob.name j)) as H0.
  assert (Happ := append_violation_inner_ok (TalendJob.name j)).
  unfold rbind in H at 1.
  destruct (rfold (TalendJob.review_node j) _ _) as [r1|] eqn:H1;
    [| discriminate].
  apply (rfold_preserves inner_ok) in H1; [| | done].
  2:{ intros r x r'. by apply review_node_preserves. }
  unfold rbind in H at 1.
  destruct (TalendJob.check_context j h r1) as [r2|] eqn:H2; [| discriminate].
  apply (check_context_preserves inner_ok) in H2; [| done | done].
  unfold rbind in H at 1.
  destruct (TalendJob.check_connections j r2) as [r3|] eqn:H3;
    [| discriminate].
  apply (check_connections_preserves inner_ok) in H3; [| done | done].
  apply (nonempty_results_wf (TalendJob.name j) r3 [] res H3); [| exact H].
  split; constructor.
Qed.

Lemma job_review_wf (s : TalendJob.St) :
  returns (fun r _ => wf_review r) (TalendJob.review s).
Proof.
  unfold TalendJob.review, bind at 1, get at 1. unfold bind at 1.
  destruct ((if TalendJob.parsed (fst s) then ret tt else TalendJob.parse) s)
    as [[] s1|e s1]; simpl; [| done].
  unfold bind, get, lift.
  destruct (TalendJob.review_parsed (fst s1) (snd s1)) eqn:Hr; simpl;
    [by eapply review_parsed_wf | done].
Qed.

Lemma inner_ok_lookup {V} (r : list (string * list (string * V))) k inner :
  inner_ok r -> In (k, inner) r -> NoDup (dict_keys inner).
Proof.
  unfold inner_ok. rewrite Forall_forall. intros Hr Hin.
  by apply (Hr (k, inner)), list_elem_of_In.
Qed.

Lemma merge_child_errs_as_merge acc r :
  wf_review acc -> wf_review r ->
  TalendProject.merge_child_errs acc r
  = Design.merge_by Design.keep_child acc r.
Proof.
  intros [Hna Hia] [Hnr Hir].
  change (TalendProject.merge_child_errs acc r)
    with (fold_union (fun old v : list (string * rvalue) => dict_update old v)
                     acc r).
  change (Design.merge_by Design.keep_child acc r)
    with (map_union (Design.merge_inner Design.keep_child) acc r).
  apply fold_union_spec; [done | done |].
  intros k va vb Ha Hb. rewrite dict_update_fold_union.
  change (Design.merge_inner Design.keep_child va vb)
    with (map_union (fun _ new : rvalue => new) va vb).
  apply fold_union_spec; [| | done].
  - exact (inner_ok_lookup acc k va Hia Ha).
  - exact (inner_ok_lookup r k vb Hir Hb).
Qed.

Lemma merge_child_errs_wf r : forall acc,
  wf_review acc -> inner_ok r ->
  wf_review (TalendProject.merge_child_errs acc r).
Proof.
  unfold TalendProject.merge_child_errs.
  induction r as [|[err v] r IH]; intros acc Hacc Hr; simpl; [done |].
  apply Forall_cons in Hr as [Hv Hr]. apply IH; [| done].
  destruct Hacc as [Hnd Hok].
  destruct (dict_get err acc) as [inner|] eqn:Hg.
  - split; [by apply dict_set_NoDup |].
    apply (Forall_dict_set (fun d => NoDup (dict_keys d))); [done |].
    apply dict_update_NoDup. apply dict_get_Some_In in Hg.
    exact (inner_ok_lookup acc err inner Hok Hg).
  - split; [by apply dict_set_NoDup |].
    by apply (Forall_dict_set (fun d => NoDup (dict_keys d))).
Qed.

Lemma for_acc_returns {St A B} (I : B -> Prop) (f : B -> A -> M St B) l :
  (forall acc x s, I acc -> returns (fun a _ => I a) (f acc x s)) ->
  forall acc s, I acc -> returns (fun a _ => I a) (for_acc f l acc s).
Proof.
  intros Hf acc s Hacc.
  apply (for_acc_agree I f f l); [| done].
  intros acc' x s' Ha. split; [done | by apply Hf].
Qed.

Lemma bind_returns {St A B} (P : B -> Prop) (m : M St A) (k : A -> M St B) s :
  (forall a s', m s = Ok a s' -> returns (fun b _ => P b) (k a s')) ->
  returns (fun b _ => P b) (bind m k s).
Proof.
  intros Hk. unfold bind.
  destruct (m s) as [a s'|e s']; [by apply Hk | done].
Qed.

Lemma on_job_Ok {A} (P : A -> Prop) p (m : M TalendJob.St A) s a s' :
  (forall s0, returns (fun a _ => P a) (m s0)) ->
  TalendProject.on_job p m s = Ok a s' -> P a.
Proof.
  intros Hm Hok. pose proof (on_job_returns P p m Hm s) as Hr.
  by rewrite Hok in Hr.
Qed.

Lemma review_wf depth : forall job children s,
  returns (fun r _ => wf_review r)
          (TalendProject.review depth job children s).
Proof.
  induction depth as [|depth IH]; intros job children s; [exact I |].
  simpl. destruct (TalendProject.given job) as [j|].
  - apply bind_returns. intros p s1 _.
    apply bind_returns. intros own s2 Hown.
    apply (on_job_Ok wf_review) in Hown as Hwf; [| apply job_review_wf].
    destruct children; [| done].
    apply bind_returns. intros p' s3 _.
    apply bind_returns. intros jb s4 _.
    apply (for_acc_returns wf_review); [| done].
    intros acc child s5 Hacc.
    apply bind_returns. intros r s6 Hr.
    pose proof (IH (Some child) true s5) as Hchild.
    rewrite Hr in Hchild. simpl in *.
    apply merge_child_errs_wf; [done | apply Hchild].
  - apply bind_returns. intros s0 s0' _.
    apply (for_acc_returns wf_review); [| split; constructor].
    intros acc item s1 Hacc.
    apply bind_returns. intros p s2 _.
    apply bind_returns. intros r s3 Hr.
    apply (on_job_Ok wf_review) in Hr as Hwf; [| apply job_review_wf].
    apply bind_returns. intros jb s4 _. simpl.
    destruct Hacc as [Hnd Hok]. split; [by apply dict_set_NoDup |].
    apply (Forall_dict_set (fun d => NoDup (dict_keys d))); [done |].
    unfold dict_keys. rewrite map_map. simpl. apply Hwf.
Qed.

Lemma bind_ext {St A B} (m : M St A) (k1 k2 : A -> M St B) s :
  (forall a s', m s = Ok a s' -> k1 a s' = k2 a s') ->
  bind m k1 s = bind m k2 s.
Proof.
  intros Hk. unfold bind. destruct (m s) as [a s'|e s']; [by apply Hk | done].
Qed.

(** C2 (as amended).  For a job name [J], [review(J, true)] is the
    merge of the job's own result with the reviewed result of each
    child, in order, by rule identifier and then by job name, where an
    entry present on both sides is replaced by the child's: the lists
    are not concatenated. *)
Theorem review_merges_children depth J s :
  J <> "" ->
  TalendProject.review (S depth) (Some J) true s
  = Design.review_as_merge Design.keep_child depth J s.
Proof.
  intros HJ. simpl.
  assert (Hg : (if PyStr.truthy J then Some J else None) = Some J)
    by (by destruct J).
  rewrite Hg. unfold Design.review_as_merge.
  apply bind_ext. intros p s1 _.
  apply bind_ext. intros own s2 Hown.
  apply (on_job_Ok wf_review) in Hown as Hwf; [| apply job_review_wf].
  apply bind_ext. intros p' s3 _.
  apply bind_ext. intros jb s4 _.
  apply (for_acc_agree wf_review); [| done].
  intros acc child s5 Hacc.
  pose proof (review_wf depth (Some child) true s5) as Hchild.
  unfold bind.
  destruct (TalendProject.review depth (Some child) true s5) as [r s6|e s6];
    simpl in *; [| done].
  unfold ret. rewrite merge_child_errs_as_merge by done.
  split; [done |].
  rewrite <- merge_child_errs_as_merge by done.
  apply merge_child_errs_wf; [done | apply Hchild].
Qed.

Lemma review_merges_children_witness :
  TalendProject.review 3 (Some "A") true Scenario.twice
  = Design.review_as_merge Design.keep_child 2 "A" Scenario.twice.
Proof. apply (review_merges_children 2 "A" Scenario.twice). discriminate. Defined.

(** C2 (as stated) fails: job A invokes job B from two components, job
    B has one violation of [DIE_ON_ERROR]; the review of A with its
    children lists that violation once under job B, where merging by
    concatenation lists it twice. *)
Lemma review_does_not_concatenate :
  returned (TalendProject.review 3 (Some "A") true Scenario.twice)
  <> returned (Design.review_as_merge Design.concatenate 2 "A"
                 Scenario.twice).
Proof. vm_compute. discriminate. Qed.

(** ** The review of a job outside the vendor family returns *)

Section Totality.
Variable name : string.

Lemma append_violation_total rule v r :
  In rule (dict_keys r) -> complete_results name r ->
  exists r', TalendJob.append_violation rule name (Done v) r = Done r' /\
             complete_results name r'.
Proof.
  intros Hin [Hk Hall].
  unfold TalendJob.append_violation, dict_item, rbind.
  destruct (dict_get rule r) as [inner|] eqn:Hg.
  2:{ apply dict_get_None in Hg. tauto. }
  assert (Hinner : is_Some (dict_get name inner)).
  { apply dict_get_Some_In in Hg. rewrite Forall_forall in Hall.
    by apply (Hall (rule, inner)), list_elem_of_In. }
  destruct Hinner as [l Hl]. rewrite Hl. eexists. split; [done |].
  split.
  - rewrite dict_keys_set. unfold dict_has. by rewrite Hg.
  - apply (Forall_dict_set (fun d => is_Some (dict_get name d))); [done |].
    rewrite dict_get_set_eq. by eexists.
Qed.

Lemma check_literals_total table node p : forall r,
  (forall e, In e table ->
             In (fst e) (dict_keys (TalendJob.initial_results name))) ->
  complete_results name r ->
  exists r', TalendJob.check_literals table name node p r = Done r' /\
             complete_results name r'.
Proof.
  unfold TalendJob.check_literals.
  induction table as [|e table IH]; intros r Ht Hr; simpl.
  - by exists r.
  - assert (Ht' : forall e', In e' table ->
                    In (fst e') (dict_keys (TalendJob.initial_results name)))
      by (intros e' He'; apply Ht; by right).
    unfold rbind at 1.
    destruct (dict_get (fst e) p) as [actual|]; [| by apply IH].
    destruct (negb _); [| by apply IH].
    destruct (append_violation_total (fst e)
                (mkViolation (Some node) None
                   (TalendJob.must_be_set (fst e) (snd e) actual)) r)
      as (r1 & -> & Hr1); [| done | by apply IH].
    destruct Hr as [-> _]. apply Ht. by left.
Qed.

End Totality.

Lemma initial_results_complete name :
  complete_results name (TalendJob.initial_results name).
Proof.
  split; [done |].
  change (TalendJob.initial_results name)
    with (map (fun k : string => (k, [(name, @nil Violation)]))
              (dict_keys (TalendJob.initial_results name))).
  apply Forall_map, Forall_forall. intros k _. simpl.
  rewrite decide_True by done. by eexists.
Qed.

Lemma review_node_total j r entry :
  TalendJob.flag_truthy (TalendJob.use_teradata j) = false ->
  complete_results (TalendJob.name j) r ->
  exists r', TalendJob.review_node j r entry = Done r' /\
             complete_results (TalendJob.name j) r'.
Proof.
  intros Hflag Hr. unfold TalendJob.review_node. rewrite Hflag.
  destruct (TalendJob.node_disabled _); [by exists r |].
  destruct (check_literals_total (TalendJob.name j) TalendJob.check_params
              (fst entry) (snd entry) r) as (r1 & -> & Hr1); [| done |].
  { intros e He. vm_compute in He. vm_compute.
    repeat destruct He as [<-|He]; simpl; tauto. }
  simpl. destruct (TalendJob.use_files j); [| by exists r1].
  apply check_literals_total; [| done].
  intros e He. vm_compute in He. vm_compute.
  repeat destruct He as [<-|He]; simpl; tauto.
Qed.

Lemma nonempty_results_total name results : forall out,
  Forall (fun e => is_Some (dict_get name (snd e))) results ->
  exists res,
    rfold
      (fun out (entry : string * list (string * list Violation)) =>
         rbind (dict_item name (snd entry)) (fun l =>
         match l with
         | [] => Done out
         | _ :: _ => Done (dict_set (fst entry) (wrap_lists (snd entry)) out)
         end))
      results out = Done res.
Proof.
  induction results as [|e results IH]; intros out Hall; simpl.
  - by exists out.
  - apply Forall_cons in Hall as [[l Hl] Hall].
    unfold rbind at 1, dict_item. rewrite Hl.
    destruct l; by apply IH.
Qed.

(** On a parsed job whose vendor flag is not set, [review] returns and
    changes nothing. *)
Lemma review_returns_without_vendor (s : TalendJob.St) :
  TalendJob.parsed (fst s) = true ->
  TalendJob.flag_truthy (TalendJob.use_teradata (fst s)) = false ->
  exists res, TalendJob.review s = Ok res s.
Proof.
  intros Hp Hflag. rewrite (review_when_parsed s Hp).
  unfold lift, TalendJob.review_parsed.
  set (j := fst s) in *.
  assert (Hnodes : forall nodes r,
            complete_results (TalendJob.name j) r ->
            exists r', rfold (TalendJob.review_node j) nodes r = Done r' /\
                       complete_results (TalendJob.name j) r').
  { induction nodes as [|entry nodes IH]; intros r Hr; simpl;
      [by exists r |].
    destruct (review_node_total j r entry Hflag Hr) as (r1 & -> & Hr1).
    simpl. by apply IH. }
  destruct (Hnodes (TalendJob.nodes j) _
              (initial_results_complete (TalendJob.name j)))
    as (r1 & -> & Hr1).
  simpl. unfold TalendJob.check_context. rewrite Hflag. simpl.
  assert (Hconn : forall conns r,
            complete_results (TalendJob.name j) r ->
            exists r',
              rfold
                (fun results (entry : option string * string) =>
                   if String.eqb (snd entry) "COMPONENT_ERROR"
                      || String.eqb (snd entry) "ON_COMPONENT_ERROR"
                   then TalendJob.append_violation "ON_COMPONENT_ERROR"
                          (TalendJob.name j)
                          (Done (mkViolation (fst entry) None
                                   "'OnComponentError' trigger depreciated. Use 'if' trigger instead."))
                          results
                   else Done results)
                conns r = Done r' /\
              complete_results (TalendJob.name j) r').
  { induction conns as [|c conns IH]; intros r Hr; simpl; [by exists r |].
    unfold rbind at 1. destruct (_ || _); [| by apply IH].
    destruct (append_violation_total (TalendJob.name j) "ON_COMPONENT_ERROR"
                (mkViolation (fst c) None
                   "'OnComponentError' trigger depreciated. Use 'if' trigger instead.")
                r) as (r2 & -> & Hr2); [| done | by apply IH].
    destruct Hr as [-> _]. vm_compute. tauto. }
  unfold TalendJob.check_connections.
  destruct (Hconn (TalendJob.connections j) r1 Hr1) as (r2 & -> & Hr2).
  simpl. unfold TalendJob.nonempty_results.
  destruct (nonempty_results_total (TalendJob.name j) r2 [] (proj2 Hr2))
    as (res & Hres).
  exists res. unfold wrap_lists in Hres. by rewrite Hres.
Qed.

(** * Further properties of the code *)

(** ** What parsing guarantees of the retained nodes *)

Lemma Forall_dict_set_entry {K V} `{EqDecision K} (P : K * V -> Prop)
    (k : K) v (d : list (K * V)) :
  Forall P d -> P (k, v) -> Forall P (dict_set k v d).
Proof.
  intros Hd Hv. induction d as [|[k' v'] d IH]; simpl.
  - by repeat constructor.
  - apply Forall_cons in Hd as [Hx Hd].
    destruct (decide (k = k')) as [<-|]; constructor; auto.
Qed.

(** [parse] keeps what its steps keep *)
Lemma parse_document_invariant (I : TalendJob.St -> Prop) root s :
  I (TalendJob.set_use_files false
       (TalendJob.set_use_teradata (Some false) (fst s)), snd s) ->
  (forall e s0, I s0 -> I (state_of (TalendJob.parse_element e s0))) ->
  (forall s0, I s0 -> I (TalendJob.set_parsed true (fst s0), snd s0)) ->
  I (state_of (TalendJob.parse_document root s)).
Proof.
  intros Hreset Hstep Hend. unfold TalendJob.parse_document.
  unfold bind at 1, TalendJob.on_self at 1, modify at 1.
  unfold bind at 1, TalendJob.on_self at 1, modify at 1.
  unfold bind at 1. simpl.
  pose proof (for_each_preserves I TalendJob.parse_element
                (subelements root) Hstep _ Hreset) as Hl.
  destruct (for_each TalendJob.parse_element (subelements root) _)
    as [[] s2|e s2]; simpl in *; [by apply Hend | done].
Qed.

Lemma parse_invariant (I : TalendJob.St -> Prop) s :
  I s -> I (opened s) ->
  I (TalendJob.set_use_files false
       (TalendJob.set_use_teradata (Some false) (fst (opened s))), snd s) ->
  (forall e s0, I s0 -> I (state_of (TalendJob.parse_element e s0))) ->
  (forall s0, I s0 -> I (TalendJob.set_parsed true (fst s0), snd s0)) ->
  I (state_of (TalendJob.parse s)).
Proof.
  intros Hs Hopen Hreset Hstep Hend.
  destruct (TalendJob.parsed (fst s)) eqn:Hp.
  - by rewrite parse_when_parsed.
  - rewrite (parse_unparsed s Hp).
    destruct (document _) as [root|]; [| done].
    destruct (close_is_None _); [| done].
    by apply parse_document_invariant.
Qed.

Lemma node_well_formed_ext j j' entry :
  (TalendJob.flag_truthy (TalendJob.use_teradata j) = true ->
   TalendJob.flag_truthy (TalendJob.use_teradata j') = true) ->
  (TalendJob.use_files j = true -> TalendJob.use_files j' = true) ->
  node_well_formed j entry -> node_well_formed j' entry.
Proof.
  intros Ht Hf (Hu & Hd & cn & Hcn & H1 & H2).
  split; [done |]. split; [done |]. exists cn. split; [done |].
  split; auto.
Qed.

Lemma nodes_well_formed_ext j j' :
  TalendJob.nodes j' = TalendJob.nodes j ->
  (TalendJob.flag_truthy (TalendJob.use_teradata j) = true ->
   TalendJob.flag_truthy (TalendJob.use_teradata j') = true) ->
  (TalendJob.use_files j = true -> TalendJob.use_files j' = true) ->
  nodes_well_formed j -> nodes_well_formed j'.
Proof.
  unfold nodes_well_formed. intros -> Ht Hf Hall.
  eapply Forall_impl; [exact Hall |].
  intros entry. by apply node_well_formed_ext.
Qed.

Lemma parse_node_well_formed node (s : TalendJob.St) :
  nodes_well_formed (fst s) ->
  nodes_well_formed (fst (state_of (TalendJob.parse_node node s))).
Proof.
  intros Hs. destruct s as [j h]. simpl in Hs.
  unfold TalendJob.parse_node, bind at 1, lift at 1.
  destruct (TalendJob.collect_params node) as [params|]; [| done].
  destruct (TalendJob.node_disabled params) eqn:Hd; [done |].
  unfold bind at 1, lift at 1.
  destruct (dict_item "componentName" (attrib node)) as [cn|]; [| done].
  set (params' := dict_set "_componentName" cn params).
  assert (Hd' : TalendJob.node_disabled params' = false).
  { unfold TalendJob.node_disabled, params' in *.
    by rewrite dict_get_set_ne. }
  assert (Hcn : dict_get "_componentName" params' = Some cn)
    by apply dict_get_set_eq.
  unfold bind at 1, TalendJob.on_self at 1, modify at 1.
  unfold bind at 1, TalendJob.on_self at 1, modify at 1.
  cbn [fst snd].
  set (j1 := if negb (TalendJob.use_files _) && _ then _ else _).
  assert (Hj1 : nodes_well_formed j1 /\
                (PyStr.contains "teradata" (PyStr.lower cn) = true ->
                 TalendJob.flag_truthy (TalendJob.use_teradata j1) = true) /\
                (PyStr.contains "file" (PyStr.lower cn) = true ->
                 TalendJob.use_files j1 = true)).
  { unfold j1. clear j1.
    destruct (TalendJob.flag_truthy (TalendJob.use_teradata j)) eqn:Ht;
      destruct (PyStr.contains "teradata" (PyStr.lower cn)) eqn:Hct;
      destruct (TalendJob.use_files j) eqn:Hf;
      destruct (PyStr.contains "file" (PyStr.lower cn)) eqn:Hcf;
      simpl; rewrite ?Hf; simpl.
    all: split;
      [ eapply (nodes_well_formed_ext j); [done | | | done];
        simpl; intros; congruence
      | split; simpl; intros; congruence ]. }
  destruct Hj1 as (Hwf1 & Ht1 & Hf1). clearbody j1.
  unfold bind at 1, lift at 1, dict_item.
  destruct (dict_get "UNIQUE_NAME" params') as [un|] eqn:Hun; [| done].
  unfold bind at 1, TalendJob.on_self at 1, modify at 1. cbn [fst snd].
  set (j2 := TalendJob.set_nodes _ j1).
  assert (Hwf2 : nodes_well_formed j2).
  { unfold nodes_well_formed, j2. simpl.
    apply Forall_dict_set_entry; [exact Hwf1 |].
    split; [done |]. split; [done |]. by exists cn. }
  clearbody j2.
  assert (Hrest : forall j3,
            TalendJob.nodes j3 = TalendJob.nodes j2 ->
            TalendJob.use_teradata j3 = TalendJob.use_teradata j2 ->
            TalendJob.use_files j3 = TalendJob.use_files j2 ->
            nodes_well_formed j3).
  { intros j3 Hn Hu Hf. apply (nodes_well_formed_ext j2); [done | | | done].
    - by rewrite Hu.
    - by rewrite Hf. }
  run_steps; by apply Hrest.
Qed.

Lemma parse_element_well_formed e (s : TalendJob.St) :
  nodes_well_formed (fst s) ->
  nodes_well_formed (fst (state_of (TalendJob.parse_element e s))).
Proof.
  intros Hs. unfold TalendJob.parse_element.
  destruct (PyStr.contains "node" (tag e));
    [by apply parse_node_well_formed |].
  destruct s as [j h]. simpl in Hs.
  assert (Hrest : forall j3,
            TalendJob.nodes j3 = TalendJob.nodes j ->
            TalendJob.use_teradata j3 = TalendJob.use_teradata j ->
            TalendJob.use_files j3 = TalendJob.use_files j ->
            nodes_well_formed j3).
  { intros j3 Hn Hu Hf. apply (nodes_well_formed_ext j); [done | | | done].
    - by rewrite Hu.
    - by rewrite Hf. }
  unfold TalendJob.parse_connection, TalendJob.parse_context.
  run_steps; try (by apply Hrest).
  all: try (destruct (heap_alloc _ _)); simpl; by apply Hrest.
Qed.

(** X1.  After [parse] on a job that held no node (a job as
    constructed), whether it returned or raised, every entry of [nodes]
    is filed under its own [UNIQUE_NAME], is not disabled, carries its
    component name under [_componentName], and the job's
    [use_teradata] (resp. [use_files]) is true whenever that name
    contains ["teradata"] (resp. ["file"]) in any letter case. *)
Theorem parsed_nodes_are_well_formed (s : TalendJob.St) :
  TalendJob.nodes (fst s) = [] ->
  nodes_well_formed (fst (state_of (TalendJob.parse s))).
Proof.
  intros Hnil.
  assert (Hempty : forall j, TalendJob.nodes j = [] -> nodes_well_formed j).
  { intros j Hj. unfold nodes_well_formed. rewrite Hj. constructor. }
  apply (parse_invariant (fun s0 => nodes_well_formed (fst s0))).
  - by apply Hempty.
  - apply Hempty. by destruct s as [[] h].
  - apply Hempty. by destruct s as [[] h].
  - apply parse_element_well_formed.
  - intros [j h] Hj. by apply (nodes_well_formed_ext j).
Qed.

Lemma parsed_nodes_are_well_formed_witness :
  nodes_well_formed
    (fst (state_of (TalendJob.parse (Scenario.fresh_job Scenario.docT)))).
Proof.
  apply (parsed_nodes_are_well_formed (Scenario.fresh_job Scenario.docT)).
  reflexivity.
Defined.

(** ** When the review of a job returns *)

Lemma check_edw_total name node p r :
  is_Some (dict_get "TYPE" p) ->
  complete_results name r ->
  exists r', TalendJob.check_edw name node p r = Done r' /\
             complete_results name r'.
Proof.
  intros [ty Hty]. unfold TalendJob.check_edw.
  assert (Ht : forall e, In e TalendJob.edw_params ->
                 In (fst e) (dict_keys (TalendJob.initial_results name)) /\
                 snd e <> []).
  { intros e He. vm_compute in He.
    repeat destruct He as [<-|He]; try done; vm_compute; split;
      try discriminate; tauto. }
  revert r Ht. generalize TalendJob.edw_params.
  induction l as [|e table IH]; intros r Ht Hr; simpl; [by exists r |].
  assert (Ht' : forall e', In e' table ->
                  In (fst e') (dict_keys (TalendJob.initial_results name)) /\
                  snd e' <> [])
    by (intros e' He'; apply Ht; by right).
  destruct (Ht e (or_introl eq_refl)) as [Hkey Hacc].
  unfold rbind at 1.
  destruct (dict_get (fst e) p) as [actual|]; [| by apply IH].
  destruct (negb _); [| by apply IH].
  match goal with
  | |- context [TalendJob.append_violation ?rule name ?v r] =>
      assert (Hv : exists v', v = Done v')
  end.
  { unfold dict_item. rewrite Hty. simpl.
    destruct (snd e) as [|first rest]; [done | by eexists]. }
  destruct Hv as [v' Hv]. rewrite Hv.
  destruct (append_violation_total name (fst e) v' r) as (r1 & -> & Hr1);
    [| done | by apply IH].
  destruct Hr as [-> _]. exact Hkey.
Qed.

Lemma check_context_total j h r :
  (TalendJob.flag_truthy (TalendJob.use_teradata j) = true ->
   TalendJob.context j <> []) ->
  complete_results (TalendJob.name j) r ->
  exists r', TalendJob.check_context j h r = Done r' /\
             complete_results (TalendJob.name j) r'.
Proof.
  intros Hctx Hr. unfold TalendJob.check_context.
  destruct (TalendJob.flag_truthy _); [| by exists r].
  destruct (TalendJob.context j) as [|[g a] rest]; [by destruct Hctx |].
  revert r Hr. generalize TalendJob.edw_context.
  induction l as [|k ks IH]; intros r Hr; simpl; [by exists r |].
  unfold rbind at 1. destruct (negb _); [| by apply IH].
  match goal with
  | |- context [TalendJob.append_violation ?rule _ (Done ?v) r] =>
      destruct (append_violation_total (TalendJob.name j) rule v r)
        as (r1 & -> & Hr1)
  end; [| done | by apply IH].
  destruct Hr as [-> _]. vm_compute. tauto.
Qed.

Lemma check_connections_total j r :
  complete_results (TalendJob.name j) r ->
  exists r', TalendJob.check_connections j r = Done r' /\
             complete_results (TalendJob.name j) r'.
Proof.
  unfold TalendJob.check_connections. revert r.
  generalize (TalendJob.connections j).
  induction l as [|c conns IH]; intros r Hr; simpl; [by exists r |].
  unfold rbind at 1. destruct (_ || _); [| by apply IH].
  match goal with
  | |- context [TalendJob.append_violation ?rule _ (Done ?v) r] =>
      destruct (append_violation_total (TalendJob.name j) rule v r)
        as (r2 & -> & Hr2)
  end; [| done | by apply IH].
  destruct Hr as [-> _]. vm_compute. tauto.
Qed.

Lemma review_node_total_ready j r entry :
  (TalendJob.flag_truthy (TalendJob.use_teradata j) = true ->
   TalendJob.node_disabled (snd entry) = false ->
   exists cn,
     dict_get "_componentName" (snd entry) = Some cn /\
     (PyStr.contains "teradata" (PyStr.lower cn) = true ->
      is_Some (dict_get "TYPE" (snd entry)))) ->
  complete_results (TalendJob.name j) r ->
  exists r', TalendJob.review_node j r entry = Done r' /\
             complete_results (TalendJob.name j) r'.
Proof.
  intros Hready Hr. unfold TalendJob.review_node.
  destruct (TalendJob.node_disabled _) eqn:Hd; [by exists r |].
  destruct (check_literals_total (TalendJob.name j) TalendJob.check_params
              (fst entry) (snd entry) r) as (r1 & -> & Hr1); [| done |].
  { intros e He. vm_compute in He. vm_compute.
    repeat destruct He as [<-|He]; simpl; tauto. }
  simpl.
  assert (Hedw : exists r2,
            (if TalendJob.flag_truthy (TalendJob.use_teradata j)
             then rbind (dict_item "_componentName" (snd entry)) (fun cn =>
                  if PyStr.contains "teradata" (PyStr.lower cn)
                     && (negb (dict_has "USE_EXISTING_CONNECTION" (snd entry))
                         || bool_decide
                              (dict_get "USE_EXISTING_CONNECTION" (snd entry)
                               = Some "false"))
                  then TalendJob.check_edw (TalendJob.name j) (fst entry)
                         (snd entry) r1
                  else Done r1)
             else Done r1) = Done r2 /\
            complete_results (TalendJob.name j) r2).
  { destruct (TalendJob.flag_truthy _); [| by exists r1].
    destruct (Hready eq_refl eq_refl) as (cn & Hcn & Hty).
    unfold dict_item. rewrite Hcn. simpl.
    destruct (PyStr.contains "teradata" (PyStr.lower cn)); [| by exists r1].
    simpl. destruct (_ || _); [| by exists r1].
    apply check_edw_total; [by apply Hty | done]. }
  destruct Hedw as (r2 & -> & Hr2). simpl.
  destruct (TalendJob.use_files j); [| by exists r2].
  apply check_literals_total; [| done].
  intros e He. vm_compute in He. vm_compute.
  repeat destruct He as [<-|He]; simpl; tauto.
Qed.

(** X2.  The review of a parsed job returns, and leaves the job and
    the heap as they were, whenever the job's vendor flag is not set,
    or it is set and the job has a context group and every enabled
    node carries [_componentName] and, if of the vendor family, a
    [TYPE]. *)
Theorem review_returns (s : TalendJob.St) :
  TalendJob.parsed (fst s) = true ->
  vendor_ready (fst s) (snd s) ->
  exists res, TalendJob.review s = Ok res s.
Proof.
  intros Hp Hready. rewrite (review_when_parsed s Hp).
  unfold lift, TalendJob.review_parsed. set (j := fst s) in *.
  assert (Hnodes : forall nodes r,
            (TalendJob.flag_truthy (TalendJob.use_teradata j) = true ->
             Forall
               (fun e : string * list (string * string) =>
                  TalendJob.node_disabled (snd e) = false ->
                  exists cn,
                    dict_get "_componentName" (snd e) = Some cn /\
                    (PyStr.contains "teradata" (PyStr.lower cn) = true ->
                     is_Some (dict_get "TYPE" (snd e)))) nodes) ->
            complete_results (TalendJob.name j) r ->
            exists r', rfold (TalendJob.review_node j) nodes r = Done r' /\
                       complete_results (TalendJob.name j) r').
  { induction nodes as [|entry nodes IH]; intros r Hall Hr; simpl;
      [by exists r |].
    destruct (review_node_total_ready j r entry) as (r1 & -> & Hr1);
      [| done |].
    - intros Hflag. specialize (Hall Hflag).
      by apply Forall_cons in Hall as [Hhead _].
    - simpl. apply IH; [| done]. intros Hflag. specialize (Hall Hflag).
      by apply Forall_cons in Hall as [_ Htail]. }
  destruct (Hnodes (TalendJob.nodes j) (TalendJob.initial_results
                                           (TalendJob.name j)))
    as (r1 & -> & Hr1).
  { intros Hflag. by destruct (Hready Hflag). }
  { apply initial_results_complete. }
  simpl.
  destruct (check_context_total j (snd s) r1) as (r2 & -> & Hr2); [| done |].
  { intros Hflag. by destruct (Hready Hflag). }
  simpl.
  destruct (check_connections_total j r2 Hr2) as (r3 & -> & Hr3).
  simpl. unfold TalendJob.nonempty_results.
  destruct (nonempty_results_total (TalendJob.name j) r3 [] (proj2 Hr3))
    as (res & Hres).
  exists res. unfold wrap_lists in Hres. by rewrite Hres.
Qed.

Lemma review_returns_witness :
  exists res, TalendJob.review Scenario.parsed_B = Ok res Scenario.parsed_B.
Proof.
  apply (review_returns Scenario.parsed_B).
  - vm_compute. reflexivity.
  - intros Hflag. vm_compute in Hflag. discriminate.
Defined.


(** ** The review of a job, rule by rule *)

Lemma keyed_get {V} (F : string -> V) k ks :
  In k ks -> dict_get k (map (fun x => (x, F x)) ks) = Some (F k).
Proof.
  induction ks as [|x ks IH]; simpl; [done |].
  destruct (decide (k = x)) as [->|Hne]; [done |].
  intros [->|Hin]; [done | by apply IH].
Qed.

Lemma keyed_get_None {V} (F : string -> V) k ks :
  ~ In k ks -> dict_get k (map (fun x => (x, F x)) ks) = None.
Proof.
  intros Hk. apply dict_get_None. unfold dict_keys.
  rewrite map_map. simpl. by rewrite map_id.
Qed.

Lemma keyed_set {V} (F : string -> V) k v ks :
  NoDup ks -> In k ks ->
  dict_set k v (map (fun x => (x, F x)) ks)
  = map (fun x => (x, if decide (x = k) then v else F x)) ks.
Proof.
  intros Hnd Hin. rewrite dict_set_present.
  - rewrite map_map. apply map_ext. intros x. simpl.
    by destruct (decide (x = k)).
  - unfold dict_keys. rewrite map_map. simpl. by rewrite map_id.
  - unfold dict_keys. rewrite map_map. simpl. by rewrite map_id.
Qed.

Lemma rule_ids_NoDup : NoDup rule_ids.
Proof. apply (bool_decide_unpack _). vm_compute. exact I. Qed.

Lemma initial_results_tracks name :
  tracks name (fun _ => []) (TalendJob.initial_results name).
Proof. reflexivity. Qed.

Section Tracking.
Variable name : string.

Lemma tracks_ext f f' r :
  (forall rule, f rule = f' rule) -> tracks name f r -> tracks name f' r.
Proof.
  unfold tracks. intros Hf ->. apply map_ext. intros rule. by rewrite Hf.
Qed.

Lemma tracks_same f r :
  tracks name f r -> tracks name (fun rule => f rule ++ []) r.
Proof. apply tracks_ext. intros rule. by rewrite app_nil_r. Qed.

Lemma append_violation_tracks f rule0 v r r' :
  tracks name f r ->
  TalendJob.append_violation rule0 name (Done v) r = Done r' ->
  tracks name
    (fun rule => f rule ++ if String.eqb rule0 rule then [v] else []) r'.
Proof.
  unfold tracks. pose proof rule_ids_NoDup as Hnd.
  generalize dependent rule_ids. intros ks Hnd -> H.
  unfold TalendJob.append_violation, dict_item, rbind in H.
  destruct (in_dec string_dec rule0 ks) as [Hin|Hout].
  - rewrite (keyed_get (fun rule => [(name, f rule)])) in H by done.
    simpl in H. rewrite decide_True in H by done. injection H as <-.
    rewrite (keyed_set (fun rule => [(name, f rule)])) by done.
    apply map_ext. intros rule.
    destruct (decide (rule = rule0)) as [->|Hne].
    + rewrite String.eqb_refl. simpl. by rewrite decide_True.
    + assert (String.eqb rule0 rule = false) as ->
        by (apply String.eqb_neq; congruence).
      by rewrite app_nil_r.
  - rewrite (keyed_get_None (fun rule => [(name, f rule)])) in H by done.
    discriminate.
Qed.

(** a loop whose iteration on [x] appends [c x rule] under each rule *)
Lemma rfold_tracks {A}
    (body : TalendJob.Results -> A -> result TalendJob.Results)
    (c : A -> string -> list Violation) xs :
  (forall f r x r',
     tracks name f r -> body r x = Done r' ->
     tracks name (fun rule => f rule ++ c x rule) r') ->
  forall f r r',
    tracks name f r -> rfold body xs r = Done r' ->
    tracks name (fun rule => f rule ++ flat_map (fun x => c x rule) xs) r'.
Proof.
  intros Hstep. induction xs as [|x xs IH]; intros f r r' Hr H; simpl in H.
  - injection H as <-. by apply tracks_same.
  - unfold rbind in H. destruct (body r x) as [r1|] eqn:Hb; [| discriminate].
    apply (Hstep f) in Hb; [| done].
    apply (IH _ _ _ Hb) in H.
    eapply tracks_ext; [| exact H].
    intros rule. simpl. by rewrite app_assoc.
Qed.

Lemma check_literals_tracks table node p f r r' :
  tracks name f r ->
  TalendJob.check_literals table name node p r = Done r' ->
  tracks name (fun rule => f rule ++ literal_viols table rule node p) r'.
Proof.
  intros Hr H.
  apply (rfold_tracks _
           (fun (entry : string * string) rule =>
              if String.eqb (fst entry) rule
              then match dict_get (fst entry) p with
                   | Some actual =>
                       if negb (String.eqb actual (snd entry))
                       then [mkViolation (Some node) None
                               (TalendJob.must_be_set (fst entry)
                                  (snd entry) actual)]
                       else []
                   | None => []
                   end
              else []) table) with (f := f) in H; [exact H | | done].
  clear. intros f r x r' Hr H. cbv beta zeta in H.
  destruct (dict_get (fst x) p) as [actual|].
  - destruct (negb (String.eqb actual (snd x))).
    + apply (append_violation_tracks f) in H; [| done].
      eapply tracks_ext; [| exact H]. intros rule. simpl.
      by destruct (String.eqb (fst x) rule).
    + injection H as <-. eapply tracks_ext; [| exact Hr].
      intros rule. destruct (String.eqb (fst x) rule); by rewrite app_nil_r.
  - injection H as <-. eapply tracks_ext; [| exact Hr].
    intros rule. destruct (String.eqb (fst x) rule); by rewrite app_nil_r.
Qed.

Lemma append_violation_Fail rule e r r' :
  TalendJob.append_violation rule name (Fail e) r <> Done r'.
Proof.
  unfold TalendJob.append_violation, rbind.
  destruct (dict_item rule r) as [inner|]; [| discriminate].
  destruct (dict_item name inner); discriminate.
Qed.

Lemma check_edw_tracks node p f r r' :
  tracks name f r ->
  TalendJob.check_edw name node p r = Done r' ->
  tracks name (fun rule => f rule ++ edw_viols rule node p) r'.
Proof.
  intros Hr H.
  apply (rfold_tracks _
           (fun (entry : string * list string) rule =>
              if String.eqb (fst entry) rule
              then match dict_get (fst entry) p with
                   | Some actual =>
                       if negb (existsb (String.eqb actual) (snd entry))
                       then match dict_get "TYPE" p, snd entry with
                            | Some ty, first :: _ =>
                                [mkViolation (Some node) (Some ty)
                                   (TalendJob.must_be_set (fst entry) first
                                      (if PyStr.contains "Encrypt" actual
                                       then "*ENCRYPTED*" else actual))]
                            | _, _ => []
                            end
                       else []
                   | None => []
                   end
              else []) TalendJob.edw_params) with (f := f) in H;
    [exact H | | done].
  clear. intros f r x r' Hr H. cbv beta zeta in H.
  destruct (dict_get (fst x) p) as [actual|].
  - destruct (negb (existsb (String.eqb actual) (snd x))).
    + unfold dict_item in H.
      destruct (dict_get "TYPE" p) as [ty|]; simpl in H.
      * destruct (snd x) as [|first rest].
        -- by apply append_violation_Fail in H.
        -- apply (append_violation_tracks f) in H; [| done].
           eapply tracks_ext; [| exact H]. intros rule. simpl.
           by destruct (String.eqb (fst x) rule).
      * by apply append_violation_Fail in H.
    + injection H as <-. eapply tracks_ext; [| exact Hr].
      intros rule. destruct (String.eqb (fst x) rule); by rewrite app_nil_r.
  - injection H as <-. eapply tracks_ext; [| exact Hr].
    intros rule. destruct (String.eqb (fst x) rule); by rewrite app_nil_r.
Qed.

End Tracking.

Lemma flat_map_guard {A B} (b : bool) (g : A -> list B) xs :
  flat_map (fun x => if b then g x else []) xs
  = if b then flat_map g xs else [].
Proof.
  destruct b; [done |]. induction xs as [|x xs IH]; simpl; [done | exact IH].
Qed.

Lemma review_node_tracks j f r entry r' :
  tracks (TalendJob.name j) f r ->
  TalendJob.review_node j r entry = Done r' ->
  tracks (TalendJob.name j) (fun rule => f rule ++ node_viols j rule entry) r'.
Proof.
  intros Hr H. unfold TalendJob.review_node in H. unfold node_viols.
  destruct (TalendJob.node_disabled (snd entry)).
  { injection H as <-. by apply tracks_same. }
  unfold rbind in H at 1.
  destruct (TalendJob.check_literals TalendJob.check_params _ _ _ r)
    as [r1|] eqn:H1; [| discriminate].
  apply (check_literals_tracks _ _ _ _ f) in H1; [| done].
  unfold rbind in H at 1.
  match type of H with
  | match ?m with Done _ => _ | Fail _ => _ end = _ =>
      destruct m as [r2|] eqn:H2; [| discriminate]
  end.
  assert (Hr2 : tracks (TalendJob.name j)
                  (fun rule =>
                     (f rule
                      ++ literal_viols TalendJob.check_params rule
                           (fst entry) (snd entry))
                     ++ (if vendor_node j (snd entry)
                         then edw_viols rule (fst entry) (snd entry)
                         else [])) r2).
  { unfold vendor_node.
    destruct (TalendJob.flag_truthy (TalendJob.use_teradata j)); simpl.
    - unfold rbind, dict_item in H2.
      destruct (dict_get "_componentName" (snd entry)) as [cn|];
        [| discriminate].
      destruct (PyStr.contains "teradata" (PyStr.lower cn)
                && (negb (dict_has "USE_EXISTING_CONNECTION" (snd entry))
                    || bool_decide
                         (dict_get "USE_EXISTING_CONNECTION" (snd entry)
                          = Some "false"))).
      + by apply (check_edw_tracks _ _ _ _ _ _ H1) in H2.
      + injection H2 as <-. by apply tracks_same.
    - injection H2 as <-. by apply tracks_same. }
  destruct (TalendJob.use_files j).
  - apply (check_literals_tracks _ _ _ _ _ _ _ Hr2) in H.
    revert H; apply tracks_ext. intros rule. by rewrite <- !app_assoc.
  - injection H as <-. revert Hr2; apply tracks_ext.
    intros rule. by rewrite app_nil_r, <- !app_assoc.
Qed.

Lemma check_context_tracks j h f r r' :
  tracks (TalendJob.name j) f r ->
  TalendJob.check_context j h r = Done r' ->
  tracks (TalendJob.name j) (fun rule => f rule ++ context_viols j h rule) r'.
Proof.
  intros Hr H. unfold TalendJob.check_context in H. unfold context_viols.
  destruct (TalendJob.flag_truthy (TalendJob.use_teradata j)).
  2:{ injection H as <-. revert Hr; apply tracks_ext.
      intros rule. destruct (String.eqb "CONTEXT" rule); by rewrite app_nil_r. }
  destruct (TalendJob.context j) as [|[g a] rest]; [discriminate |].
  apply (rfold_tracks (TalendJob.name j) _
           (fun ctx_key rule =>
              if String.eqb "CONTEXT" rule
              then if negb (existsb (String.eqb ctx_key)
                              (dict_keys (heap_read h a)))
                   then [mkViolation (Some "Context") None
                           ("Teradata job detected but missing context parameter '"
                              ++ ctx_key ++ "'")]
                   else []
              else []) TalendJob.edw_context) with (f := f) in H; [| | done].
  - revert H; apply tracks_ext. intros rule. f_equal.
    apply (flat_map_guard (String.eqb "CONTEXT" rule)).
  - clear. intros f r x r' Hr H.
    destruct (negb (existsb (String.eqb x) (dict_keys (heap_read h a)))).
    + by apply (append_violation_tracks _ f) in H.
    + injection H as <-. revert Hr; apply tracks_ext.
      intros rule. destruct (String.eqb "CONTEXT" rule); by rewrite app_nil_r.
Qed.

Lemma check_connections_tracks j f r r' :
  tracks (TalendJob.name j) f r ->
  TalendJob.check_connections j r = Done r' ->
  tracks (TalendJob.name j) (fun rule => f rule ++ connection_viols j rule) r'.
Proof.
  intros Hr H. unfold TalendJob.check_connections in H.
  unfold connection_viols.
  apply (rfold_tracks (TalendJob.name j) _
           (fun (entry : option string * string) rule =>
              if String.eqb "ON_COMPONENT_ERROR" rule
              then if String.eqb (snd entry) "COMPONENT_ERROR"
                      || String.eqb (snd entry) "ON_COMPONENT_ERROR"
                   then [mkViolation (fst entry) None
                           "'OnComponentError' trigger depreciated. Use 'if' trigger instead."]
                   else []
              else []) (TalendJob.connections j)) with (f := f) in H;
    [| | done].
  - revert H; apply tracks_ext. intros rule. f_equal.
    apply (flat_map_guard (String.eqb "ON_COMPONENT_ERROR" rule)).
  - clear. intros f r x r' Hr H.
    destruct (String.eqb (snd x) "COMPONENT_ERROR"
              || String.eqb (snd x) "ON_COMPONENT_ERROR").
    + by apply (append_violation_tracks _ f) in H.
    + injection H as <-. revert Hr; apply tracks_ext.
      intros rule.
      destruct (String.eqb "ON_COMPONENT_ERROR" rule); by rewrite app_nil_r.
Qed.

Lemma nonempty_results_keyed name (F : string -> list Violation) ks :
  forall out,
    NoDup ks -> (forall k, In k ks -> ~ In k (dict_keys out)) ->
    rfold
      (fun out (entry : string * list (string * list Violation)) =>
         rbind (dict_item name (snd entry)) (fun l =>
         match l with
         | [] => Done out
         | _ :: _ =>
             Done (dict_set (fst entry)
                     (map (fun kv => (fst kv, RList (snd kv))) (snd entry))
                     out)
         end))
      (map (fun rule => (rule, [(name, F rule)])) ks) out
    = Done (out ++ map (fun rule => (rule, [(name, RList (F rule))]))
                       (List.filter (fun rule => nonempty (F rule)) ks)).
Proof.
  induction ks as [|k ks IH]; intros out Hnd Hout; simpl.
  - by rewrite app_nil_r.
  - apply NoDup_cons in Hnd as [Hk Hnd].
    unfold rbind at 1, dict_item. simpl. rewrite decide_True by done.
    destruct (F k) as [|v l] eqn:HF; simpl.
    + apply IH; [done |]. intros k' Hk'. apply Hout. by right.
    + rewrite dict_set_absent.
      2:{ apply dict_get_None. apply Hout. by left. }
      rewrite IH; [by rewrite <- app_assoc, HF | done |].
      intros k' Hk'. unfold dict_keys. rewrite map_app, in_app_iff.
      intros [Hin|[<-|[]]].
      * apply (Hout k'); [by right | done].
      * apply Hk. by apply list_elem_of_In.
Qed.

(** the rule engine, written rule by rule *)
Lemma review_parsed_expected j h res :
  TalendJob.review_parsed j h = Done res -> res = expected_review j h.
Proof.
  unfold TalendJob.review_parsed. intros H.
  unfold rbind in H at 1.
  destruct (rfold (TalendJob.review_node j) _ _) as [r1|] eqn:H1;
    [| discriminate].
  apply (rfold_tracks (TalendJob.name j) _ (fun entry rule =>
           node_viols j rule entry)) with (f := fun _ => []) in H1.
  2:{ intros f r x r' Hr Hx. exact (review_node_tracks j f r x r' Hr Hx). }
  2:{ apply initial_results_tracks. }
  unfold rbind in H at 1.
  destruct (TalendJob.check_context j h r1) as [r2|] eqn:H2; [| discriminate].
  apply (check_context_tracks _ _ _ _ _ H1) in H2.
  unfold rbind in H at 1.
  destruct (TalendJob.check_connections j r2) as [r3|] eqn:H3;
    [| discriminate].
  apply (check_connections_tracks _ _ _ _ H2) in H3.
  apply (tracks_ext _ _ (rule_viols j h)) in H3.
  2:{ intros rule. unfold rule_viols. simpl. by rewrite <- app_assoc. }
  unfold tracks in H3. subst r3. unfold TalendJob.nonempty_results in H.
  rewrite (nonempty_results_keyed (TalendJob.name j) (rule_viols j h)) in H.
  - by injection H as <-.
  - apply rule_ids_NoDup.
  - intros k _ [].
Qed.

Lemma review_Ok_expected (s : TalendJob.St) res s' :
  TalendJob.review s = Ok res s' ->
  res = expected_review (fst s') (snd s').
Proof.
  unfold TalendJob.review, bind at 1, get at 1. unfold bind at 1.
  destruct ((if TalendJob.parsed (fst s) then ret tt else TalendJob.parse) s)
    as [[] s1|e s1]; [| discriminate].
  unfold bind, get, lift.
  destruct (TalendJob.review_parsed (fst s1) (snd s1)) as [res1|] eqn:Hr;
    [| discriminate].
  intros [= <- <-]. by apply review_parsed_expected.
Qed.

(** X3.  Whenever [review] returns, its result is determined rule by
    rule: the rules that have at least one violation, in the order in
    which the rules are created, each holding under the job's name the
    violations of the nodes in document order (uniform parameter rule,
    then vendor-credential rule, then file rule of each enabled node),
    then of the context rule, then of the retained error triggers. *)
Theorem review_is_rule_by_rule (s : TalendJob.St) res s' :
  TalendJob.review s = Ok res s' ->
  res = expected_review (fst s') (snd s').
Proof. exact (review_Ok_expected s res s'). Qed.

Lemma review_is_rule_by_rule_witness :
  Scenario.review_of_B
  = expected_review (fst Scenario.parsed_B) (snd Scenario.parsed_B).
Proof.
  apply (review_is_rule_by_rule (Scenario.fresh_job Scenario.docB)).
  vm_compute. reflexivity.
Defined.

Lemma expected_review_get j h rule :
  In rule rule_ids ->
  dict_get rule (expected_review j h)
  = rule_entry (TalendJob.name j) (rule_viols j h rule).
Proof.
  intros Hin. unfold expected_review, rule_entry.
  destruct (nonempty (rule_viols j h rule)) eqn:Hne.
  - rewrite (keyed_get
               (fun rule => [(TalendJob.name j, RList (rule_viols j h rule))]));
      [done |].
    apply filter_In. by split.
  - apply (keyed_get_None
             (fun rule => [(TalendJob.name j, RList (rule_viols j h rule))])).
    intros [_ Hf]%filter_In. congruence.
Qed.

Lemma flat_map_filter {A B} (P : A -> bool) (g : A -> B) xs :
  flat_map (fun x => if P x then [g x] else []) xs = map g (List.filter P xs).
Proof.
  induction xs as [|x xs IH]; simpl; [done |].
  rewrite IH. by destruct (P x).
Qed.

Lemma flat_map_nil {A B} (g : A -> list B) xs :
  (forall x, g x = []) -> flat_map g xs = [].
Proof.
  intros Hg. induction xs as [|x xs IH]; simpl; [done |]. by rewrite Hg, IH.
Qed.

(** X4.  Whenever [review] returns, the rule [ON_COMPONENT_ERROR] holds
    exactly one violation for each retained connection whose connector
    is [COMPONENT_ERROR] or [ON_COMPONENT_ERROR], in document order and
    naming the connection; the rule is absent when there is none. *)
Theorem deprecated_triggers_are_reported (s : TalendJob.St) res s' :
  TalendJob.review s = Ok res s' ->
  dict_get "ON_COMPONENT_ERROR" res
  = rule_entry (TalendJob.name (fst s'))
      (map trigger_violation
           (List.filter is_error_trigger (TalendJob.connections (fst s')))).
Proof.
  intros H. rewrite (review_Ok_expected s res s' H).
  rewrite expected_review_get by (vm_compute; tauto).
  f_equal. unfold rule_viols.
  rewrite flat_map_nil.
  2:{ intros entry. unfold node_viols.
      destruct (TalendJob.node_disabled _); [done |].
      destruct (vendor_node _ _); destruct (TalendJob.use_files _); done. }
  simpl. apply flat_map_filter.
Qed.

Lemma deprecated_triggers_are_reported_witness :
  dict_get "ON_COMPONENT_ERROR" Scenario.review_of_B
  = rule_entry (TalendJob.name (fst Scenario.parsed_B))
      (map trigger_violation
           (List.filter is_error_trigger
              (TalendJob.connections (fst Scenario.parsed_B)))).
Proof.
  apply (deprecated_triggers_are_reported
           (Scenario.fresh_job Scenario.docB)).
  vm_compute. reflexivity.
Defined.

(** ** The context rule *)

Lemma node_viols_CONTEXT j entry : node_viols j "CONTEXT" entry = [].
Proof.
  unfold node_viols.
  destruct (TalendJob.node_disabled _); [done |].
  destruct (vendor_node _ _); destruct (TalendJob.use_files _); done.
Qed.

(** X5.  Whenever [review] returns on a job of the vendor family, the
    rule [CONTEXT] holds one violation for each of [EDW_HOST],
    [EDW_USER], [EDW_PASS] (in this order) that is not a key of the
    first context group of the job, and is absent when the first group
    has all three; the other context groups are not looked at.  On a
    job outside the vendor family the rule is absent. *)
Theorem context_rule_reads_the_first_group (s : TalendJob.St) res s' :
  TalendJob.review s = Ok res s' ->
  dict_get "CONTEXT" res
  = if TalendJob.flag_truthy (TalendJob.use_teradata (fst s'))
    then
      match TalendJob.context (fst s') with
      | [] => None
      | (_, a) :: _ =>
          rule_entry (TalendJob.name (fst s'))
            (map missing_key_violation
               (List.filter
                  (fun k => negb (existsb (String.eqb k)
                                    (dict_keys (heap_read (snd s') a))))
                  TalendJob.edw_context))
      end
    else None.
Proof.
  intros H. rewrite (review_Ok_expected s res s' H).
  rewrite expected_review_get by (vm_compute; tauto).
  unfold rule_viols.
  rewrite (flat_map_nil (node_viols (fst s') "CONTEXT"))
    by apply node_viols_CONTEXT.
  unfold connection_viols, context_viols.
  change (String.eqb "ON_COMPONENT_ERROR" "CONTEXT") with false.
  change (String.eqb "CONTEXT" "CONTEXT") with true.
  cbv iota. rewrite app_nil_r. cbn [app].
  destruct (TalendJob.flag_truthy _); [| done].
  destruct (TalendJob.context (fst s')) as [|[g a] rest]; [done |].
  f_equal.
  exact (flat_map_filter
           (fun k => negb (existsb (String.eqb k)
                             (dict_keys (heap_read (snd s') a))))
           missing_key_violation TalendJob.edw_context).
Qed.

Lemma context_rule_reads_the_first_group_witness :
  dict_get "CONTEXT" Scenario.review_of_V
  = if TalendJob.flag_truthy (TalendJob.use_teradata (fst Scenario.parsed_V))
    then
      match TalendJob.context (fst Scenario.parsed_V) with
      | [] => None
      | (_, a) :: _ =>
          rule_entry (TalendJob.name (fst Scenario.parsed_V))
            (map missing_key_violation
               (List.filter
                  (fun k => negb (existsb (String.eqb k)
                                    (dict_keys
                                       (heap_read (snd Scenario.parsed_V) a))))
                  TalendJob.edw_context))
      end
    else None.
Proof.
  apply (context_rule_reads_the_first_group
           (Scenario.fresh_job Scenario.docV)).
  vm_compute. reflexivity.
Defined.

(** ** The vendor-credential rules *)

Lemma literal_viols_other table rule node p :
  ~ In rule (dict_keys table) -> literal_viols table rule node p = [].
Proof.
  unfold literal_viols. induction table as [|[k e] table IH]; simpl;
    [done |].
  intros Hn. destruct (String.eqb_spec k rule) as [->|Hne]; [tauto |].
  apply IH. tauto.
Qed.

Lemma edw_viols_In rule node p v :
  In v (edw_viols rule node p) ->
  exists actual accepted first ty,
    In (rule, accepted) TalendJob.edw_params /\
    dict_get rule p = Some actual /\
    ~ In actual accepted /\
    dict_get "TYPE" p = Some ty /\
    v = mkViolation (Some node) (Some ty)
          (TalendJob.must_be_set rule first (shown actual)) /\
    hd_error accepted = Some first.
Proof.
  unfold edw_viols. intros [[k accepted] [Hin Hv]]%in_flat_map.
  cbn [fst snd] in Hv.
  destruct (String.eqb_spec k rule) as [->|]; [| done].
  destruct (dict_get rule p) as [actual|] eqn:Hp; [| done].
  destruct (existsb (String.eqb actual) accepted) eqn:Hex; [done |].
  cbn [negb] in Hv.
  destruct (dict_get "TYPE" p) as [ty|] eqn:Hty; [| done].
  destruct accepted as [|first rest]; [done |].
  destruct Hv as [<-|[]].
  exists actual, (first :: rest), first, ty. repeat split; try done.
  intros Hi. apply not_true_iff_false in Hex. apply Hex.
  apply existsb_exists. exists actual. split; [done |].
  apply String.eqb_refl.
Qed.

(** X6.  Whenever [review] returns, every violation it lists under one
    of the rules [HOST], [USER], [PASS] comes from a retained node
    whose value for that parameter is not among the accepted ones; the
    violation names the node and its [TYPE], and its message shows the
    value only when the value does not contain [Encrypt]: otherwise
    the message shows [*ENCRYPTED*] in its place. *)
Theorem credentials_are_shown_masked (s : TalendJob.St) res s'
    rule inner l v :
  TalendJob.review s = Ok res s' ->
  In rule (dict_keys TalendJob.edw_params) ->
  dict_get rule res = Some inner ->
  dict_get (TalendJob.name (fst s')) inner = Some (RList l) ->
  In v l ->
  exists node p actual accepted first ty,
    In (node, p) (TalendJob.nodes (fst s')) /\
    In (rule, accepted) TalendJob.edw_params /\
    dict_get rule p = Some actual /\
    ~ In actual accepted /\
    dict_get "TYPE" p = Some ty /\
    hd_error accepted = Some first /\
    v = mkViolation (Some node) (Some ty)
          (TalendJob.must_be_set rule first (shown actual)).
Proof.
  intros H Hrule Hres Hinner Hv.
  rewrite (review_Ok_expected s res s' H) in Hres.
  rewrite expected_review_get in Hres.
  2:{ revert Hrule. vm_compute. tauto. }
  unfold rule_entry in Hres.
  destruct (nonempty _); [| discriminate].
  injection Hres as <-. simpl in Hinner.
  rewrite decide_True in Hinner by done.
  injection Hinner as <-.
  unfold rule_viols in Hv.
  assert (~ In rule (dict_keys TalendJob.check_params)
          /\ ~ In rule (dict_keys TalendJob.file_params)
          /\ rule <> "CONTEXT" /\ rule <> "ON_COMPONENT_ERROR")
    as (Hk1 & Hk2 & Hk3 & Hk4).
  { simpl in Hrule. destruct Hrule as [<-|[<-|[<-|[]]]]; simpl;
      repeat split; try (intros ?; intuition discriminate); discriminate. }
  assert (context_viols (fst s') (snd s') rule = []) as Hc.
  { unfold context_viols.
    by destruct (String.eqb_spec "CONTEXT" rule) as [<-|]. }
  assert (connection_viols (fst s') rule = []) as Hn.
  { unfold connection_viols.
    by destruct (String.eqb_spec "ON_COMPONENT_ERROR" rule) as [<-|]. }
  rewrite Hc, Hn, !app_nil_r in Hv.
  apply in_flat_map in Hv as [[node p] [Hin Hv]].
  unfold node_viols in Hv. cbn [fst snd] in Hv.
  destruct (TalendJob.node_disabled p); [done |].
  rewrite (literal_viols_other _ _ node p Hk1) in Hv.
  assert ((if TalendJob.use_files (fst s')
           then literal_viols TalendJob.file_params rule node p
           else []) = []) as Hf.
  { destruct (TalendJob.use_files _); [| done].
    exact (literal_viols_other _ _ node p Hk2). }
  rewrite Hf, app_nil_r in Hv. cbn [app] in Hv.
  destruct (vendor_node (fst s') p); [| done].
  apply edw_viols_In in Hv
    as (actual & accepted & first & ty & ? & ? & ? & ? & ? & ?).
  by exists node, p, actual, accepted, first, ty.
Qed.

Lemma credentials_are_shown_masked_witness :
  exists node p actual accepted first ty,
    In (node, p) (TalendJob.nodes (fst Scenario.parsed_V)) /\
    In ("PASS", accepted) TalendJob.edw_params /\
    dict_get "PASS" p = Some actual /\
    ~ In actual accepted /\
    dict_get "TYPE" p = Some ty /\
    hd_error accepted = Some first /\
    mkViolation (Some "tTeradataOutput_1") (Some "Teradata")
      "Value 'PASS' must be set to 'context.EDW_PASS' (actual: '*ENCRYPTED*')"
    = mkViolation (Some node) (Some ty)
        (TalendJob.must_be_set "PASS" first (shown actual)).
Proof.
  apply (credentials_are_shown_masked
           (Scenario.fresh_job Scenario.docV) Scenario.review_of_V
           Scenario.parsed_V "PASS"
           [("B", RList
                    [mkViolation (Some "tTeradataOutput_1") (Some "Teradata")
                       "Value 'PASS' must be set to 'context.EDW_PASS' (actual: '*ENCRYPTED*')"])]
           [mkViolation (Some "tTeradataOutput_1") (Some "Teradata")
              "Value 'PASS' must be set to 'context.EDW_PASS' (actual: '*ENCRYPTED*')"]).
  - vm_compute. reflexivity.
  - vm_compute. tauto.
  - vm_compute. reflexivity.
  - vm_compute. reflexivity.
  - left. reflexivity.
Defined.

(** ** Looking a job up by its name *)

Lemma load_invariant (I : TalendProject.t -> Prop) float src :
  (forall s s',
     TalendProject.jobs s' = TalendProject.jobs s ->
     TalendProject.versions s' = TalendProject.versions s ->
     TalendProject.heap s' = TalendProject.heap s -> I s -> I s') ->
  I (TalendProject.mk [] "" [] [] None None []) ->
  (forall i s, I s -> I (state_of (TalendProject.load_item float src i s))) ->
  I (state_of (TalendProject.load float src)).
Proof.
  intros Hframe Hinit Hstep.
  assert (forall tg au tv pn, I (TalendProject.mk tg au [] [] tv pn []))
    as Hany.
  { intros tg au tv pn. revert Hinit. by apply Hframe. }
  unfold TalendProject.load. unfold bind at 1, lift.
  destruct (TalendProject.item_paths src) as [items|e]; [| apply Hany].
  unfold bind at 1, modify at 1.
  destruct (document (TalendProject.project_file src)) as [root|];
    [| apply Hany].
  destruct (negb _); [apply Hany |].
  destruct (subelements root) as [|first rest]; [apply Hany |].
  unfold bind at 1.
  destruct (dict_get "productVersion" (attrib first)); [| apply Hany].
  unfold modify at 1. unfold bind at 1.
  destruct (dict_get "technicalLabel" (attrib first)); [| apply Hany].
  unfold modify at 1.
  apply (for_each_preserves I _ items Hstep). apply Hany.
Qed.

Lemma dict_has_set {K V} `{EqDecision K} (k k' : K) (v : V) d :
  dict_has k d = true -> dict_has k (dict_set k' v d) = true.
Proof.
  unfold dict_has. intros H. destruct (decide (k' = k)) as [->|Hne].
  - by rewrite dict_get_set_eq.
  - by rewrite dict_get_set_ne.
Qed.

Lemma load_item_state float src i s :
  state_of (TalendProject.load_item float src i s) = s \/
  exists version vs,
    float (item_version_text i) = Some version /\
    TalendProject.register_version (item_name i) version i
      (TalendProject.versions s) = Done vs /\
    state_of (TalendProject.load_item float src i s)
    = TalendProject.mk (TalendProject.git_tags s) (TalendProject.author s)
        (dict_set i (unparsed_job src i version) (TalendProject.jobs s))
        vs (TalendProject.talend_version s) (TalendProject.project_name s)
        (TalendProject.heap s).
Proof.
  unfold TalendProject.load_item.
  fold (item_name i). fold (item_version_text i).
  destruct (float (item_version_text i)) as [version|] eqn:Hfl;
    [| by left].
  destruct (TalendProject.register_version (item_name i) version i
              (TalendProject.versions s)) as [vs|e] eqn:Hr.
  - right. exists version, vs. split; [done |]. split; [done |].
    unfold bind, modify, get, put, lift, TalendJob.init.
    by rewrite Hr.
  - left. unfold bind, get, lift. by rewrite Hr.
Qed.

Lemma load_item_as_constructed float src i s :
  as_constructed float src s ->
  as_constructed float src (state_of (TalendProject.load_item float src i s)).
Proof.
  intros (Hok & Hjobs & Hreg).
  split; [by apply load_item_ok |].
  destruct (load_item_state float src i s)
    as [->|(version & vs & Hfl & Hr & ->)]; [by split |].
  unfold jobs_as_discovered, registries_point_to_jobs in *.
  cbn [TalendProject.jobs TalendProject.versions].
  split.
  - intros p job. destruct (decide (i = p)) as [<-|Hne].
    + rewrite dict_get_set_eq. intros [= <-]. by exists version.
    + rewrite dict_get_set_ne by done. apply Hjobs.
  - intros name reg v val Hname Hv.
    assert (exists p, val = TalendProject.ItemPath p /\
                      item_name p = name /\
                      float (item_version_text p) = Some v /\
                      (p = i \/ dict_has p (TalendProject.jobs s) = true))
      as (p & ? & ? & ? & Hp).
    { revert Hr Hname. unfold TalendProject.register_version.
      destruct (dict_get (item_name i) (TalendProject.versions s))
        as [reg0|] eqn:H0.
      - intros Hr Hname.
        assert (exists reg1,
                  vs = dict_set (item_name i)
                         (dict_set (TalendProject.Ver version)
                            (TalendProject.ItemPath i) reg1)
                         (TalendProject.versions s) /\
                  forall w, dict_get (TalendProject.Ver w) reg1
                            = dict_get (TalendProject.Ver w) reg0)
          as (reg1 & -> & Hsame).
        { destruct (dict_get TalendProject.LATEST reg0) as [[|latest]|];
            [discriminate | |]; simpl in Hr.
          - destruct (bool_decide _); simpl in Hr; injection Hr as <-;
              eexists; (split; [reflexivity |]); intros w; [| done].
            by rewrite dict_get_set_ne.
          - injection Hr as <-. by eexists. }
        destruct (decide (item_name i = name)) as [Heq|Hne].
        + rewrite Heq, dict_get_set_eq in Hname. injection Hname as <-.
          destruct (decide (version = v)) as [->|Hv'].
          * rewrite dict_get_set_eq in Hv. injection Hv as <-.
            exists i. auto.
          * rewrite dict_get_set_ne in Hv by congruence.
            rewrite Hsame in Hv. subst name.
            destruct (Hreg _ _ _ _ H0 Hv) as (p & ? & ? & ? & ?).
            exists p. auto.
        + rewrite dict_get_set_ne in Hname by done.
          destruct (Hreg _ _ _ _ Hname Hv) as (p & ? & ? & ? & ?).
          exists p. auto.
      - intros [= <-] Hname.
        destruct (decide (item_name i = name)) as [Heq|Hne].
        + rewrite Heq, dict_get_set_eq in Hname. injection Hname as <-.
          simpl in Hv.
          destruct (decide (TalendProject.Ver v = TalendProject.Ver version))
            as [[= ->]|]; [| done].
          injection Hv as <-. exists i. auto.
        + rewrite dict_get_set_ne in Hname by done.
          destruct (Hreg _ _ _ _ Hname Hv) as (p & ? & ? & ? & ?).
          exists p. auto. }
    exists p. repeat split; try done.
    destruct Hp as [->|Hp].
    + unfold dict_has. by rewrite dict_get_set_eq.
    + by apply dict_has_set.
Qed.

Lemma load_as_constructed float src :
  as_constructed float src (state_of (TalendProject.load float src)).
Proof.
  apply (load_invariant (as_constructed float src)).
  - intros s s' Hj Hv _. unfold as_constructed, jobs_as_discovered,
      registries_point_to_jobs. by rewrite Hj, Hv.
  - repeat split; intros ?; intros; discriminate.
  - apply load_item_as_constructed.
Qed.

Lemma getitem_as_constructed float src s name :
  as_constructed float src s ->
  In name (dict_keys (TalendProject.versions s)) ->
  PyStr.contains "item" name = false ->
  exists p m,
    TalendProject.getitem name s = Ok p s /\
    dict_get p (TalendProject.jobs s) = Some (unparsed_job src p m) /\
    item_name p = name /\
    float (item_version_text p) = Some m /\
    forall reg v,
      dict_get name (TalendProject.versions s) = Some reg ->
      In (TalendProject.Ver v) (dict_keys reg) -> (v <= m)%Qc.
Proof.
  intros (Hok & Hjobs & Hreg) Hin Hitem.
  destruct (dict_get name (TalendProject.versions s)) as [reg|] eqn:Hname.
  2:{ by apply dict_get_None in Hname. }
  destruct (Hok name reg Hname) as (m & Hl & Hm & Hmax).
  destruct (dict_get (TalendProject.Ver m) reg) as [val|] eqn:Hval.
  2:{ by apply dict_get_None in Hval. }
  destruct (Hreg name reg m val Hname Hval) as (p & -> & Hn & Hf & Hp).
  unfold dict_has in Hp.
  destruct (dict_get p (TalendProject.jobs s)) as [job|] eqn:Hjob; [| done].
  destruct (Hjobs p job Hjob) as (v & Hv & ->).
  assert (v = m) as -> by congruence.
  exists p, m. repeat split; try done.
  - unfold TalendProject.getitem, bind, get, ret.
    by rewrite Hitem, Hname, Hl, Hval, Hjob.
  - intros reg' v [= <-]. apply Hmax.
Qed.



(** ** The tree view of a job *)

Lemma getitem_state j s : state_of (TalendProject.getitem j s) = s.
Proof.
  unfold TalendProject.getitem, bind, get, ret, raise.
  repeat case_match; done.
Qed.

Lemma tree_view_unfold depth root s :
  TalendProject.tree_view (S depth) (Some root) s
  = if negb (dict_has root (TalendProject.versions s)) then Ok [] s
    else if PyStr.truthy root
    then (let* p := TalendProject.getitem root in
          let* j := TalendProject.job_at p in
          let* sub := for_acc (tree_child depth) (TalendJob.children j) [] in
          ret [(root, Tree sub)]) s
    else (let* masters := TalendProject.get_master_jobs in
          for_acc
            (fun acc master =>
               let* t := TalendProject.tree_view depth (Some master) in
               ret (dict_update acc t))
            masters []) s.
Proof.
  cbn [TalendProject.tree_view]. unfold bind at 1, get at 1.
  destruct (negb _); [done |].
  unfold TalendProject.given. by destruct (PyStr.truthy root).
Qed.

Lemma truthy_false r : PyStr.truthy r = false -> r = "".
Proof. by destruct r. Qed.

Lemma tree_view_state depth : forall root s,
  names_nonempty s ->
  state_of (TalendProject.tree_view depth root s) = s.
Proof.
  induction depth as [|depth IH]; intros root s Hne; [done |].
  destruct root as [r|]; [| done].
  rewrite tree_view_unfold.
  destruct (dict_has r (TalendProject.versions s)) eqn:Hr; [| done].
  cbn [negb].
  destruct (PyStr.truthy r) eqn:Ht.
  2:{ apply truthy_false in Ht. subst r. unfold names_nonempty in Hne.
      congruence. }
  unfold bind at 1. pose proof (getitem_state r s) as Hg.
  destruct (TalendProject.getitem r s) as [p s1|e s1]; simpl in Hg; subst s1;
    [| done].
  unfold bind at 1, TalendProject.job_at, bind at 1, get, lift.
  destruct (dict_item p (TalendProject.jobs s)) as [j|e]; [| done].
  unfold bind.
  pose proof (for_acc_preserves (fun s' => s' = s) (tree_child depth)
                (TalendJob.children j)) as Hloop.
  cbv beta in Hloop. specialize (Hloop ltac:(
    intros acc x s0 ->; unfold tree_child, bind;
    pose proof (IH (Some x) s Hne) as Hx;
    destruct (TalendProject.tree_view depth (Some x) s) as [t s1|e s1];
    simpl in Hx; subst s1; [| done];
    unfold lift; by destruct (dict_item x t)) [] s eq_refl).
  by destruct (for_acc _ _ _ _).
Qed.

(** X8.  [tree_view] reads the project and never parses a job: however
    it ends, it leaves the project exactly as it found it, so the tree
    shows the children of the jobs that were parsed before the call
    and none of the others (as long as no job has the empty name, for
    which the test of line 256 takes the branch of the master jobs). *)
Theorem tree_view_never_parses depth root s :
  names_nonempty s ->
  state_of (TalendProject.tree_view depth root s) = s.
Proof. apply tree_view_state. Qed.

Lemma tree_view_never_parses_witness :
  state_of (TalendProject.tree_view 3 (Some "A") Scenario.two_jobs)
  = Scenario.two_jobs.
Proof.
  apply (tree_view_never_parses 3 (Some "A") Scenario.two_jobs).
  vm_compute. reflexivity.
Defined.

(** X9.  Straight after construction the tree of every job is flat:
    for a registry name (not empty, and without [item] in it)
    [tree_view] returns the mapping of the name to the empty mapping,
    whatever the job's document invokes, because no job has been
    parsed yet. *)
Theorem tree_view_after_construction_is_flat float src s depth r :
  TalendProject.load float src = Ok tt s ->
  In r (dict_keys (TalendProject.versions s)) ->
  PyStr.contains "item" r = false ->
  r <> "" ->
  TalendProject.tree_view (S depth) (Some r) s = Ok [(r, Tree [])] s.
Proof.
  intros Hload Hin Hitem Hr.
  pose proof (load_as_constructed float src) as Hc. rewrite Hload in Hc.
  destruct (getitem_as_constructed float src s r Hc Hin Hitem)
    as (p & m & Hg & Hj & _).
  rewrite tree_view_unfold.
  apply dict_has_true in Hin. rewrite Hin. cbn [negb].
  destruct r as [|a r]; [done |]. cbn [PyStr.truthy].
  unfold bind at 1. rewrite Hg.
  unfold bind at 1, TalendProject.job_at, bind at 1, get, lift, dict_item.
  by rewrite Hj.
Qed.

Lemma tree_view_after_construction_is_flat_witness :
  TalendProject.tree_view 3 (Some "A") Scenario.two_jobs
  = Ok [("A", Tree [])] Scenario.two_jobs.
Proof.
  apply (tree_view_after_construction_is_flat Scenario.float
           (Scenario.provider Scenario.docA
              ["process/A_1.0.item"; "process/B_2.0.item"])).
  - vm_compute. reflexivity.
  - vm_compute. tauto.
  - vm_compute. reflexivity.
  - discriminate.
Defined.

Lemma tree_child_Ok depth s sub c sub' s' :
  names_nonempty s ->
  tree_child depth sub c s = Ok sub' s' ->
  s' = s /\
  exists t x,
    TalendProject.tree_view depth (Some c) s = Ok t s /\
    dict_get c t = Some x /\ sub' = dict_set c x sub.
Proof.
  intros Hne. unfold tree_child, bind.
  pose proof (tree_view_state depth (Some c) s Hne) as Hs.
  destruct (TalendProject.tree_view depth (Some c) s) as [t s1|e s1];
    simpl in Hs; subst s1; [| done].
  unfold lift, dict_item.
  destruct (dict_get c t) as [x|] eqn:Hx; [| done].
  intros [= <- <-]. split; [done |]. by exists t, x.
Qed.

Lemma tree_children_Ok depth s l : forall sub sub' s',
  names_nonempty s ->
  for_acc (tree_child depth) l sub s = Ok sub' s' ->
  s' = s /\
  Forall (fun c => exists t x,
            TalendProject.tree_view depth (Some c) s = Ok t s /\
            dict_get c t = Some x) l /\
  forall c, In c (dict_keys sub') <-> In c (dict_keys sub) \/ In c l.
Proof.
  induction l as [|c l IH]; intros sub sub' s' Hne; simpl.
  - intros [= <- <-]. split; [done |]. split; [constructor | tauto].
  - unfold bind.
    destruct (tree_child depth sub c s) as [sub1 s1|e s1] eqn:Hc;
      [| discriminate].
    apply tree_child_Ok in Hc as (-> & t & x & Ht & Hx & ->); [| done].
    intros Hl. apply IH in Hl as (-> & Hall & Hkeys); [| done].
    split; [done |]. split.
    + constructor; [by exists t, x | done].
    + intros c'. rewrite Hkeys, dict_keys_set_In. simpl.
      intuition congruence.
Qed.

Lemma tree_view_Ok_inv depth r s t s' :
  names_nonempty s ->
  dict_has r (TalendProject.versions s) = true ->
  TalendProject.tree_view (S depth) (Some r) s = Ok t s' ->
  s' = s /\
  exists p job sub,
    TalendProject.getitem r s = Ok p s /\
    dict_get p (TalendProject.jobs s) = Some job /\
    for_acc (tree_child depth) (TalendJob.children job) [] s = Ok sub s /\
    t = [(r, Tree sub)].
Proof.
  intros Hne Hr. rewrite tree_view_unfold, Hr. cbn [negb].
  destruct (PyStr.truthy r) eqn:Ht.
  2:{ apply truthy_false in Ht. subst r. unfold names_nonempty in Hne.
      congruence. }
  unfold bind at 1. pose proof (getitem_state r s) as Hg.
  destruct (TalendProject.getitem r s) as [p s1|e s1]; simpl in Hg; subst s1;
    [| done].
  unfold bind at 1, TalendProject.job_at, bind at 1, get, lift, dict_item.
  destruct (dict_get p (TalendProject.jobs s)) as [job|] eqn:Hj; [| done].
  unfold bind.
  destruct (for_acc (tree_child depth) (TalendJob.children job) [] s)
    as [sub s1|e s1] eqn:Hl; [| done].
  intros [= <- <-].
  destruct (tree_children_Ok _ _ _ _ _ _ Hne Hl) as (-> & _).
  split; [done |]. by exists p, job, sub.
Qed.

(** X10.  When [tree_view] returns for a registry name, the tree has
    that name as its only key, the keys below it are the children of
    the job the name resolves to, and every one of these children is a
    registry name itself: for a child that is not, the lookup of line
    259 raises [KeyError] and no tree is returned. *)
Theorem tree_view_lists_the_children depth r s t s' :
  names_nonempty s ->
  dict_has r (TalendProject.versions s) = true ->
  TalendProject.tree_view depth (Some r) s = Ok t s' ->
  exists p job sub,
    TalendProject.getitem r s = Ok p s /\
    dict_get p (TalendProject.jobs s) = Some job /\
    t = [(r, Tree sub)] /\
    (forall c, In c (dict_keys sub) <-> In c (TalendJob.children job)) /\
    Forall (fun c => dict_has c (TalendProject.versions s) = true)
           (TalendJob.children job).
Proof.
  intros Hne Hr Ht. destruct depth as [|depth]; [done |].
  apply tree_view_Ok_inv in Ht as (-> & p & job & sub & Hg & Hj & Hl & ->);
    [| done | done].
  exists p, job, sub. repeat split; try done.
  - apply tree_children_Ok in Hl as (_ & _ & Hk); [| done].
    intros Hc. apply Hk in Hc as [[]|Hc]. done.
  - apply tree_children_Ok in Hl as (_ & _ & Hk); [| done].
    intros Hc. apply Hk. by right.
  - apply tree_children_Ok in Hl as (_ & Hall & _); [| done].
    eapply Forall_impl; [exact Hall |].
    intros c (tc & x & Hc & Hx). cbv beta.
    destruct (dict_has c (TalendProject.versions s)) eqn:Hreg; [done |].
    destruct depth as [|depth]; [done |].
    rewrite tree_view_unfold, Hreg in Hc. simpl in Hc.
    injection Hc as <-. done.
Qed.

Lemma tree_view_lists_the_children_witness :
  exists p job sub,
    TalendProject.getitem "A" Scenario.two_jobs_parsed
    = Ok p Scenario.two_jobs_parsed /\
    dict_get p (TalendProject.jobs Scenario.two_jobs_parsed) = Some job /\
    [("A", Tree [("B", Tree [])])] = [("A", Tree sub)] /\
    (forall c, In c (dict_keys sub) <-> In c (TalendJob.children job)) /\
    Forall (fun c => dict_has c (TalendProject.versions
                                   Scenario.two_jobs_parsed) = true)
           (TalendJob.children job).
Proof.
  apply (tree_view_lists_the_children 3 "A" Scenario.two_jobs_parsed
           [("A", Tree [("B", Tree [])])] Scenario.two_jobs_parsed).
  - vm_compute. reflexivity.
  - vm_compute. reflexivity.
  - vm_compute. reflexivity.
Defined.

(** X11.  [tree_view] has no guard against cycles: for a job on a
    cycle of invocations among parsed jobs (a set of names each of
    which resolves to a job that invokes a member of the set) it
    returns at no recursion depth. *)
Theorem tree_view_never_returns_on_a_cycle (C : string -> Prop) s depth r :
  names_nonempty s ->
  invocation_cycle s C ->
  C r ->
  exists e, TalendProject.tree_view depth (Some r) s = Raise e s.
Proof.
  intros Hne Hcyc Hr.
  assert (forall depth r, C r ->
            forall t s', TalendProject.tree_view depth (Some r) s <> Ok t s')
    as Hno.
  { clear depth r Hr.
    induction depth as [|depth IH]; intros r Hr t s' Ht; [done |].
    destruct (Hcyc r Hr) as (Hreg & p & job & c & Hg & Hj & Hc & HCc).
    apply tree_view_Ok_inv in Ht
      as (-> & p' & job' & sub & Hg' & Hj' & Hl & ->); [| done | done].
    assert (p' = p) as -> by congruence.
    assert (job' = job) as -> by congruence.
    apply tree_children_Ok in Hl as (_ & Hall & _); [| done].
    rewrite Forall_forall in Hall.
    destruct (Hall c) as (tc & x & Htc & _); [by apply list_elem_of_In |].
    exact (IH c HCc tc s Htc). }
  pose proof (tree_view_state depth (Some r) s Hne) as Hs.
  destruct (TalendProject.tree_view depth (Some r) s) as [t s1|e s1] eqn:Ht.
  - by destruct (Hno depth r Hr t s1).
  - simpl in Hs. subst s1. by exists e.
Qed.

Lemma tree_view_never_returns_on_a_cycle_witness :
  exists e,
    TalendProject.tree_view 7 (Some "A") Scenario.cyclic
    = Raise e Scenario.cyclic.
Proof.
  apply (tree_view_never_returns_on_a_cycle
           (fun n => n = "A" \/ n = "B") Scenario.cyclic 7 "A").
  - vm_compute. reflexivity.
  - intros r [->| ->]; (split; [vm_compute; reflexivity |]).
    + exists "process/A_1.0.item".
      eexists. exists "B". split; [vm_compute; reflexivity |].
      split; [vm_compute; reflexivity |]. split; [by left | by right].
    + exists "process/B_2.0.item".
      eexists. exists "A". split; [vm_compute; reflexivity |].
      split; [vm_compute; reflexivity |]. split; [by left | by left].
  - by left.
Defined.

(** ** The merged context *)

Lemma heap_write_length h : forall a d,
  length (heap_write h a d) = length h.
Proof.
  induction h as [|x h IH]; intros [|a] d; simpl; auto.
Qed.

Lemma heap_read_write_same h : forall a d,
  a < length h -> heap_read (heap_write h a d) a = d.
Proof.
  unfold heap_read.
  induction h as [|x h IH]; intros [|a] d; simpl; try lia; [done |].
  intros Hl. apply IH. lia.
Qed.

Lemma heap_read_write_other h : forall a b d,
  a <> b -> heap_read (heap_write h a d) b = heap_read h b.
Proof.
  unfold heap_read.
  induction h as [|x h IH]; intros [|a] [|b] d Hne; simpl; try done.
  apply IH. congruence.
Qed.

Lemma heap_write_beyond h : forall a d,
  length h <= a -> heap_write h a d = h.
Proof.
  induction h as [|x h IH]; intros [|a] d; simpl; try done; try lia.
  intros Hl. f_equal. apply IH. lia.
Qed.

Lemma In_dict_set {K V} `{EqDecision K} (e : K * V) k v d :
  In e (dict_set k v d) -> e = (k, v) \/ In e d.
Proof.
  induction d as [|[k' v'] d IH]; simpl.
  - intros [<-|[]]. by left.
  - destruct (decide (k = k')) as [->|Hne]; simpl.
    + intros [<-|Hi]; auto.
    + intros [<-|Hi]; auto. destruct (IH Hi); auto.
Qed.

Lemma fold_dict_set_In {K V} `{EqDecision K} (e : K * V) l : forall acc,
  In e (fold_left (fun ctx (x : K * V) => dict_set (fst x) (snd x) ctx) l acc)
  -> In e acc \/ In e l.
Proof.
  induction l as [|[k v] l IH]; intros acc; simpl; [tauto |].
  intros [Hi|Hi]%IH; [| tauto].
  apply In_dict_set in Hi as [->|Hi]; auto.
Qed.

Lemma only_adds_refl s : only_adds s s.
Proof.
  repeat split; try done.
  - by destruct s.
  - intros a e He. by exists a.
Qed.

Lemma only_adds_trans s1 s2 s3 :
  only_adds s1 s2 -> only_adds s2 s3 -> only_adds s1 s3.
Proof.
  intros (E1 & L1 & K1 & P1) (E2 & L2 & K2 & P2). repeat split.
  - rewrite E2, E1. by destruct s1.
  - congruence.
  - intros a k v Hk. by apply K2, K1.
  - intros a e He. destruct (P2 a e He) as (b & Hb). by apply (P1 b).
Qed.

Lemma only_adds_jobs s s' :
  only_adds s s' -> TalendProject.jobs s' = TalendProject.jobs s.
Proof. intros (E & _). by rewrite E. Qed.

Lemma merge_step_only_adds s0 s a k v :
  only_adds s0 s ->
  (exists b, In (k, v) (heap_read (TalendProject.heap s0) b)) ->
  only_adds s0
    (if negb (dict_has k (heap_read (TalendProject.heap s) a))
     then TalendProject.set_heap
            (heap_write (TalendProject.heap s) a
               (dict_set k v (heap_read (TalendProject.heap s) a))) s
     else s).
Proof.
  intros Hs Hsrc.
  destruct (dict_has k (heap_read (TalendProject.heap s) a)) eqn:Hk;
    cbn [negb]; [done |].
  unfold dict_has in Hk.
  destruct (dict_get k (heap_read (TalendProject.heap s) a)) eqn:Hg;
    [discriminate |].
  destruct Hs as (E & L & K & P).
  destruct (le_lt_dec (length (TalendProject.heap s)) a) as [Hl|Hl].
  { rewrite heap_write_beyond by done.
    replace (TalendProject.set_heap (TalendProject.heap s) s) with s
      by (by destruct s).
    done. }
  unfold only_adds, TalendProject.set_heap.
  cbn [TalendProject.heap]. repeat split.
  - rewrite E. by destruct s0.
  - by rewrite heap_write_length.
  - intros a' k' v' Hk'. apply K in Hk'.
    destruct (decide (a = a')) as [<-|Hne].
    + rewrite heap_read_write_same by done.
      rewrite dict_get_set_ne; [done | congruence].
    + by rewrite heap_read_write_other.
  - intros a' e He. destruct (decide (a = a')) as [<-|Hne].
    + rewrite heap_read_write_same in He by done.
      apply In_dict_set in He as [->|He]; [done | by apply (P a)].
    + rewrite heap_read_write_other in He by done. by apply (P a').
Qed.

Lemma merge_params_only_adds a l s0 : forall s,
  only_adds s0 s ->
  (forall e, In e l -> exists b, In e (heap_read (TalendProject.heap s0) b)) ->
  exists s', TalendProject.merge_params a l s = Ok tt s' /\ only_adds s0 s'.
Proof.
  unfold TalendProject.merge_params.
  induction l as [|[k v] l IH]; intros s Hs Hl; simpl.
  - by exists s.
  - unfold bind at 1, modify at 1. cbn [fst snd].
    apply IH.
    + apply merge_step_only_adds; [done |]. apply Hl. by left.
    + intros e He. apply Hl. by right.
Qed.

Lemma for_acc_both {St A B} (P : St -> Prop) (I : B -> Prop)
    (f : B -> A -> M St B) l :
  (forall acc x s, P s -> I acc ->
     P (state_of (f acc x s)) /\ returns (fun a _ => I a) (f acc x s)) ->
  forall acc s, P s -> I acc ->
    P (state_of (for_acc f l acc s)) /\
    returns (fun a _ => I a) (for_acc f l acc s).
Proof.
  intros Hf. induction l as [|x l IH]; intros acc s Hs Hacc; simpl;
    [done |].
  unfold bind. destruct (Hf acc x s Hs Hacc) as [HP HI].
  destruct (f acc x s) as [acc' s1|e s1]; simpl in *; [by apply IH | done].
Qed.

Lemma get_merged_context_unfold depth job s :
  TalendProject.get_merged_context (S depth) job s
  = match TalendProject.getitem job s with
    | Ok p _ =>
        match dict_get p (TalendProject.jobs s) with
        | Some j =>
            for_acc (merge_child depth) (TalendJob.children j)
              (fold_left (fun ctx (entry : string * addr) =>
                            dict_set (fst entry) (snd entry) ctx)
                         (TalendJob.context j) []) s
        | None => Raise (KeyError p) s
        end
    | Raise e _ => Raise e s
    end.
Proof.
  cbn [TalendProject.get_merged_context].
  unfold bind at 1. pose proof (getitem_state job s) as Hg.
  destruct (TalendProject.getitem job s) as [p s1|e s1] eqn:Hp; simpl in Hg;
    subst s1; [| done].
  unfold bind at 1, TalendProject.job_at at 1, bind at 1, get at 1, lift.
  unfold dict_item.
  destruct (dict_get p (TalendProject.jobs s)) as [j|] eqn:Hj; [| done].
  unfold bind at 1. rewrite Hp.
  unfold bind at 1, TalendProject.job_at at 1, bind at 1, get at 1, lift.
  unfold dict_item. by rewrite Hj.
Qed.

Lemma merge_group_post s0 cc l : forall acc s,
  only_adds s0 s -> Forall (owned s0) acc -> Forall (owned s0) cc ->
  (forall e, In e l -> In e cc) ->
  only_adds s0 (state_of (for_acc merge_group l acc s)) /\
  returns (fun a _ => Forall (owned s0) a) (for_acc merge_group l acc s).
Proof.
  induction l as [|[g b] l IHl]; intros acc s Hs Hacc Hcc Hl; simpl;
    [done |].
  unfold bind, merge_group. cbn [fst snd].
  destruct (dict_get g acc) as [a|] eqn:Hga.
  - unfold bind, get.
    destruct (merge_params_only_adds a
                (heap_read (TalendProject.heap s) b) s0 s Hs)
      as (s4 & -> & Hs4).
    { intros e He. destruct Hs as (_ & _ & _ & P). by apply (P b). }
    unfold ret. apply IHl; [done | done | done |].
    intros e He. apply Hl. by right.
  - unfold ret. apply IHl; [done | | done |].
    + apply (Forall_dict_set_entry (owned s0)); [done |].
      rewrite Forall_forall in Hcc. apply Hcc.
      apply list_elem_of_In. apply Hl. by left.
    + intros e He. apply Hl. by right.
Qed.

Lemma get_merged_context_post depth s0 : forall job s,
  only_adds s0 s ->
  only_adds s0 (state_of (TalendProject.get_merged_context depth job s)) /\
  returns (fun ctx _ => Forall (owned s0) ctx)
          (TalendProject.get_merged_context depth job s).
Proof.
  induction depth as [|depth IH]; intros job s Hs; [done |].
  rewrite get_merged_context_unfold.
  destruct (TalendProject.getitem job s) as [p s1|e s1]; [| done].
  destruct (dict_get p (TalendProject.jobs s)) as [j|] eqn:Hj; [| done].
  apply for_acc_both; [| done |].
  - intros ctx child s1' Hs1 Hctx. unfold merge_child, bind.
    destruct (IH child s1' Hs1) as [Hs2 Hcc].
    destruct (TalendProject.get_merged_context depth child s1')
      as [cc s2|e s2]; simpl in Hs2, Hcc; [| done].
    by apply (merge_group_post s0 cc).
  - apply Forall_forall. intros e He%list_elem_of_In.
    apply fold_dict_set_In in He as [[]|He].
    exists p, j. split; [| done].
    by rewrite <- (only_adds_jobs s0 s Hs).
Qed.

(** X12.  However [get_merged_context] ends, all it has done to the
    project is to add parameters to dictionaries of context groups
    that existed before: jobs, registry and every other field are
    unchanged, no dictionary is created, no parameter of any
    dictionary is overwritten or removed, and every parameter found
    afterwards was a parameter of some dictionary before the call. *)
Theorem get_merged_context_only_adds depth job s :
  only_adds s (state_of (TalendProject.get_merged_context depth job s)).
Proof. apply get_merged_context_post, only_adds_refl. Qed.

(** X13.  The mapping [get_merged_context] returns holds no copies:
    each of its entries refers to the parameter dictionary of a
    context group of a job the project holds, under the name that job
    gives it. *)
Theorem get_merged_context_hands_out_job_dictionaries depth job s ctx s' :
  TalendProject.get_merged_context depth job s = Ok ctx s' ->
  Forall (owned s) ctx.
Proof.
  intros H.
  destruct (get_merged_context_post depth s job s (only_adds_refl s))
    as [_ Hr].
  by rewrite H in Hr.
Qed.

Lemma get_merged_context_hands_out_job_dictionaries_witness :
  Forall (owned Scenario.two_jobs_parsed) [("Default", 0)].
Proof.
  apply (get_merged_context_hands_out_job_dictionaries
           3 "A" Scenario.two_jobs_parsed [("Default", 0)]
           (state_of (TalendProject.get_merged_context 3 "A"
                        Scenario.two_jobs_parsed))).
  vm_compute. reflexivity.
Defined.

(** ** The dump of the queries of a job *)

Lemma dump_sql_nodes_flat header name l : forall acc,
  fold_left (TalendJob.dump_sql_node header name) l acc
  = acc ++ flat_map (fun entry =>
                       flat_map (dumped_lines header name)
                                (dumped_entry entry)) l.
Proof.
  induction l as [|[node p] l IH]; intros acc; simpl.
  - by rewrite app_nil_r.
  - rewrite IH. unfold TalendJob.dump_sql_node, dumped_entry, dumped_lines.
    cbn [fst snd].
    destruct (TalendJob.node_disabled p); [done |].
    destruct (dict_get "QUERY" p) as [q|]; [| done].
    destruct header; simpl; by rewrite <- ?app_assoc.
Qed.

Lemma dump_sql_structured_nodes_flat
    (l : list (string * list (string * string))) :
  forall acc : list (string * (string * string)),
  NoDup (dict_keys l) ->
  (forall k, In k (dict_keys l) -> ~ In k (dict_keys acc)) ->
  fold_left TalendJob.dump_sql_structured_node l acc
  = acc ++ flat_map dumped_entry l.
Proof.
  induction l as [|[node p] l IH]; intros acc Hnd Hdis.
  - simpl. by rewrite app_nil_r.
  - change (dict_keys ((node, p) :: l)) with (node :: dict_keys l) in *.
    apply NoDup_cons in Hnd as [Hnode Hnd].
    assert (forall acc' : list (string * (string * string)),
              (forall k, In k (dict_keys acc') ->
                         In k (dict_keys acc) \/ k = node) ->
              forall k, In k (dict_keys l) -> ~ In k (dict_keys acc'))
      as Hstep.
    { intros acc' Hsub k Hk Hk'. destruct (Hsub k Hk') as [Ha| ->].
      - apply (Hdis k); [by right | done].
      - apply Hnode. by apply list_elem_of_In. }
    cbn [fold_left flat_map].
    unfold TalendJob.dump_sql_structured_node at 2, dumped_entry at 1.
    cbn [fst snd].
    destruct (TalendJob.node_disabled p).
    { apply IH; [done |]. apply Hstep. auto. }
    destruct (dict_get "QUERY" p) as [q|].
    2:{ apply IH; [done |]. apply Hstep. auto. }
    rewrite dict_set_absent.
    2:{ apply dict_get_None. apply Hdis. by left. }
    rewrite IH; [by rewrite <- app_assoc | done |].
    apply Hstep. intros k. unfold dict_keys. rewrite map_app, in_app_iff.
    simpl. intuition.
Qed.

Lemma flat_map_flat_map {A B C} (f : B -> list C) (g : A -> list B) l :
  flat_map f (flat_map g l) = flat_map (fun x => flat_map f (g x)) l.
Proof.
  induction l as [|x l IH]; simpl; [done |].
  by rewrite flat_map_app, IH.
Qed.

Lemma parse_if_needed_NoDup (s : TalendJob.St) :
  NoDup (dict_keys (TalendJob.nodes (fst s))) ->
  NoDup (dict_keys
           (TalendJob.nodes
              (fst (state_of
                      ((if TalendJob.parsed (fst s) then ret tt
                        else TalendJob.parse) s))))).
Proof.
  intros Hs. destruct (TalendJob.parsed (fst s)); [done |].
  by apply parse_nodes_NoDup.
Qed.

(** X14.  The flat dump of a job is its structured dump, joined: for a
    job whose nodes have distinct names, [dump_sql] returns the texts
    of [dump_sql_structured] in their order, each preceded by its
    header when headers are asked for, separated by newlines, and it
    raises what [dump_sql_structured] raises. *)
Theorem dump_sql_joins_the_structured_dump header h (s : TalendJob.St) :
  NoDup (dict_keys (TalendJob.nodes (fst s))) ->
  TalendJob.dump_sql header s
  = (let* d := TalendJob.dump_sql_structured h in
     let* s' := get in
     ret (PyStr.join PyStr.newline
            (flat_map (dumped_lines header (TalendJob.name (fst s'))) d))) s.
Proof.
  intros Hnd. apply parse_if_needed_NoDup in Hnd.
  unfold TalendJob.dump_sql, TalendJob.dump_sql_structured, bind, get.
  destruct ((if TalendJob.parsed (fst s) then ret tt else TalendJob.parse) s)
    as [[] s1|e s1]; [| done].
  unfold ret. simpl in Hnd. f_equal. f_equal.
  rewrite dump_sql_nodes_flat, dump_sql_structured_nodes_flat; [| done |].
  - simpl. by rewrite flat_map_flat_map.
  - intros k _ [].
Qed.

Lemma dump_sql_joins_the_structured_dump_witness :
  TalendJob.dump_sql true Scenario.parsed_V
  = (let* d := TalendJob.dump_sql_structured false in
     let* s' := get in
     ret (PyStr.join PyStr.newline
            (flat_map (dumped_lines true (TalendJob.name (fst s'))) d)))
      Scenario.parsed_V.
Proof.
  apply (dump_sql_joins_the_structured_dump true false Scenario.parsed_V).
  apply (bool_decide_unpack _). vm_compute. exact I.
Defined.

Lemma remove_dquotes_clean q :
  PyStr.has_dquote (PyStr.remove_dquotes q) = false.
Proof.
  induction q as [|c q IH]; simpl; [done |].
  destruct (Ascii.eqb c PyStr.dquote) eqn:Hc; [done |].
  simpl. by rewrite Hc.
Qed.

(** X15.  No query text of a dump holds a double quote: every text
    [dump_sql_structured] returns is the node's [QUERY] with all
    double-quote characters removed, quoted identifiers and literals
    included. *)
Theorem dumped_queries_hold_no_double_quote h (s : TalendJob.St) d s' :
  TalendJob.dump_sql_structured h s = Ok d s' ->
  Forall (fun e : string * (string * string) =>
            PyStr.has_dquote (snd (snd e)) = false) d.
Proof.
  unfold TalendJob.dump_sql_structured, bind, get.
  destruct ((if TalendJob.parsed (fst s) then ret tt else TalendJob.parse) s)
    as [[] s1|e s1]; [| done].
  unfold ret. intros [= <- <-].
  generalize (TalendJob.nodes (fst s1)).
  assert (Forall (fun e : string * (string * string) =>
                    PyStr.has_dquote (snd (snd e)) = false) []) as Hacc
    by constructor.
  revert Hacc. generalize (@nil (string * (string * string))).
  intros acc Hacc l. revert acc Hacc.
  induction l as [|[node p] l IH]; intros acc Hacc; simpl; [done |].
  apply IH. unfold TalendJob.dump_sql_structured_node. cbn [fst snd].
  destruct (TalendJob.node_disabled p); [done |].
  destruct (dict_get "QUERY" p) as [q|]; [| done].
  apply (Forall_dict_set_entry
           (fun e : string * (string * string) =>
              PyStr.has_dquote (snd (snd e)) = false)); [done |].
  apply remove_dquotes_clean.
Qed.

Lemma dumped_queries_hold_no_double_quote_witness :
  Forall (fun e : string * (string * string) =>
            PyStr.has_dquote (snd (snd e)) = false)
         [("tTeradataOutput_1", ("EDW", "select 1"))].
Proof.
  apply (dumped_queries_hold_no_double_quote false
           (Scenario.fresh_job Scenario.docV)
           [("tTeradataOutput_1", ("EDW", "select 1"))]
           Scenario.parsed_V).
  vm_compute. reflexivity.
Defined.

(** ** The dump of the queries of a project *)

(** X16.  Without [children] the job asked for is ignored: [dump_sql]
    then dumps every job of the registry, exactly as it does when no
    job is given. *)
Theorem dump_sql_without_children_dumps_every_job depth job children header :
  TalendProject.dump_sql depth job false header
  = TalendProject.dump_sql depth None children header.
Proof.
  destruct depth as [|depth]; [done |].
  cbn [TalendProject.dump_sql].
  change (TalendProject.given None) with (@None string).
  by destruct (TalendProject.given job), children.
Qed.

Lemma dict_set_same {K V} `{EqDecision K} (k : K) (v : V) d :
  dict_get k d = Some v -> dict_set k v d = d.
Proof.
  induction d as [|[k' v'] d IH]; simpl; [done |].
  destruct (decide (k = k')) as [->|Hne].
  - by intros [= ->].
  - intros Hg. by rewrite IH.
Qed.

Lemma on_job_unchanged {A} p (m : M TalendJob.St A) s j a :
  dict_get p (TalendProject.jobs s) = Some j ->
  m (j, TalendProject.heap s) = Ok a (j, TalendProject.heap s) ->
  TalendProject.on_job p m s = Ok a s.
Proof.
  intros Hj Hm. unfold TalendProject.on_job. rewrite Hj, Hm.
  cbn [fst snd]. rewrite (dict_set_same p j _ Hj). by destruct s.
Qed.

(** X17.  The header flag does not reach the job asked for: for a
    parsed job that invokes no other job, [dump_sql] with children
    returns the job's query texts joined by newlines, without any
    header, whether headers are asked for or not, and leaves the
    project as it is. *)
Theorem dump_sql_of_a_leaf_has_no_header depth job s p j header :
  PyStr.truthy job = true ->
  TalendProject.getitem job s = Ok p s ->
  dict_get p (TalendProject.jobs s) = Some j ->
  TalendJob.parsed j = true ->
  TalendJob.children j = [] ->
  TalendProject.dump_sql (S depth) (Some job) true header s
  = Ok (PyStr.join PyStr.newline
          (fold_left (TalendJob.dump_sql_node false (TalendJob.name j))
                     (TalendJob.nodes j) [])) s.
Proof.
  intros Ht Hg Hj Hp Hc. cbn [TalendProject.dump_sql].
  unfold TalendProject.given. rewrite Ht.
  unfold bind at 1. rewrite Hg.
  unfold bind at 1.
  rewrite (on_job_unchanged p (TalendJob.dump_sql false) s j
             (PyStr.join PyStr.newline
                (fold_left (TalendJob.dump_sql_node false (TalendJob.name j))
                           (TalendJob.nodes j) []))); [| done |].
  2:{ unfold TalendJob.dump_sql, bind, get. cbn [fst]. by rewrite Hp. }
  unfold bind at 1. rewrite Hg.
  unfold bind at 1, TalendProject.job_at, bind at 1, get, lift, dict_item.
  rewrite Hj. unfold bind. rewrite Hc. done.
Qed.

Lemma dump_sql_of_a_leaf_has_no_header_witness :
  TalendProject.dump_sql 3 (Some "B") true true Scenario.two_jobs_parsed
  = Ok (PyStr.join PyStr.newline
          (fold_left
             (TalendJob.dump_sql_node false (TalendJob.name Scenario.held_B))
             (TalendJob.nodes Scenario.held_B) []))
       Scenario.two_jobs_parsed.
Proof.
  apply (dump_sql_of_a_leaf_has_no_header 2 "B" Scenario.two_jobs_parsed
           "process/B_2.0.item" Scenario.held_B true).
  - reflexivity.
  - vm_compute. reflexivity.
  - vm_compute. reflexivity.
  - vm_compute. reflexivity.
  - vm_compute. reflexivity.
Defined.

(** ** The tables of a project *)

Lemma resolves_to_parsed_stable s s' name job :
  stable s s' -> resolves_to_parsed s name job ->
  resolves_to_parsed s' name job.
Proof.
  intros Hst (p & Hg & Hj & Hpd). exists p.
  split; [by eapply getitem_stable |].
  split; [| done]. destruct Hst as (_ & _ & Hp). by apply Hp.
Qed.

Lemma get_all_tables_step (T : gset string) item s T' s1 :
  (let* p := TalendProject.getitem item in
   TalendProject.on_job p TalendJob.parse >>
   let* j := TalendProject.job_at p in
   ret (T ∪ TalendJob.tables j)) s = Ok T' s1 ->
  stable s s1 /\
  exists job, resolves_to_parsed s1 item job /\ T' = T ∪ TalendJob.tables job.
Proof.
  intros H.
  apply bind_Ok_inv in H as (p & s0 & Hg & H).
  apply getitem_Ok in Hg as Hs0. destruct Hs0 as [Hs0 _]. subst s0.
  apply bind_Ok_inv in H as ([] & s2 & Hparse & H).
  pose proof (on_job_parse_stable p s) as Hst. rewrite Hparse in Hst.
  simpl in Hst.
  destruct (on_job_parse_Ok _ _ _ _ Hparse) as (job & Hj & Hpd).
  unfold bind, TalendProject.job_at, bind, get, lift, dict_item, ret in H.
  rewrite Hj in H. injection H as <- <-.
  split; [done |]. exists job. split; [| done].
  exists p. split; [by apply (getitem_stable s) | done].
Qed.

Lemma get_all_tables_loop ks : forall (T : gset string) s T' s',
  for_acc
    (fun tables item =>
       let* p := TalendProject.getitem item in
       TalendProject.on_job p TalendJob.parse >>
       let* j := TalendProject.job_at p in
       ret (tables ∪ TalendJob.tables j)) ks T s = Ok T' s' ->
  stable s s' /\
  exists js, Forall2 (resolves_to_parsed s') ks js /\
             forall t, t ∈ T' <->
                       t ∈ T \/ exists job, In job js /\
                                            t ∈ TalendJob.tables job.
Proof.
  induction ks as [|k ks IH]; intros T s T' s' H; simpl in H.
  - injection H as <- <-. split; [apply stable_refl |].
    exists []. split; [constructor |].
    intros t. split; [auto |]. intros [?|(job & [] & _)]. done.
  - apply bind_Ok_inv in H as (T1 & s1 & Hstep & H).
    apply get_all_tables_step in Hstep as (Hst1 & job & Hjob & ->).
    apply IH in H as (Hst2 & js & Hall & Hmem).
    split; [by eapply stable_trans |].
    exists (job :: js). split.
    + constructor; [by eapply resolves_to_parsed_stable | done].
    + intros t. rewrite Hmem, elem_of_union. simpl. split.
      * intros [[?|?]|(job' & ? & ?)]; eauto 6.
      * intros [?|(job' & [<-|?] & ?)]; eauto 6.
Qed.

(** X18.  When [get_all_tables] returns, every job name of the
    registry resolves to a parsed job, nothing else of the registry
    has changed, and the tables returned are those of these jobs (the
    latest version of each name) and no others: a table that only an
    older version of a job uses is not listed. *)
Theorem get_all_tables_reads_the_latest_versions s T s' :
  TalendProject.get_all_tables s = Ok T s' ->
  stable s s' /\
  exists js,
    Forall2 (resolves_to_parsed s')
            (dict_keys (TalendProject.versions s)) js /\
    forall t, t ∈ T <-> exists job, In job js /\ t ∈ TalendJob.tables job.
Proof.
  unfold TalendProject.get_all_tables, bind at 1, get at 1.
  intros H. apply get_all_tables_loop in H as (Hst & js & Hall & Hmem).
  split; [done |]. exists js. split; [done |].
  intros t. rewrite Hmem. split; [| auto].
  intros [Ht|?]; [| done]. by apply not_elem_of_empty in Ht.
Qed.

Lemma get_all_tables_reads_the_latest_versions_witness :
  stable Scenario.two_jobs
    (state_of (TalendProject.get_all_tables Scenario.two_jobs)) /\
  exists js,
    Forall2 (resolves_to_parsed
               (state_of (TalendProject.get_all_tables Scenario.two_jobs)))
            (dict_keys (TalendProject.versions Scenario.two_jobs)) js /\
    forall t, t ∈ (∅ : gset string)
              <-> exists job, In job js /\ t ∈ TalendJob.tables job.
Proof.
  apply (get_all_tables_reads_the_latest_versions Scenario.two_jobs ∅
           (state_of (TalendProject.get_all_tables Scenario.two_jobs))).
  vm_compute. reflexivity.
Defined.

(** ** The command line *)

Lemma review_with_info_without_job depth children s :
  returned (TalendProject.review_with_info depth None children s) = None.
Proof.
  unfold TalendProject.review_with_info. unfold bind at 1.
  destruct (TalendProject.get_database_info depth None children s)
    as [dbinfo s1|e s1]; [| done].
  unfold bind at 1, lift at 1.
  by destruct (rfold _ (remove_dups dbinfo) []).
Qed.

(** X19.  The mode [ALL] of the command line never prints a report:
    whatever the repository holds, [main] ends in an exception, since
    [review_with_info] is called without a job and looks the job up
    ([self[job]] with [job] being [None]) once the endpoints of all
    jobs have been collected. *)
Theorem main_ALL_never_prints depth float src :
  returned (Review.main depth float src "ALL") = None.
Proof.
  unfold Review.main.
  destruct (TalendProject.load float src) as [[] proj|e s]; [| done].
  cbn [String.eqb Ascii.eqb Bool.eqb]. cbv iota. unfold bind.
  pose proof (review_with_info_without_job depth false proj) as H.
  by destruct (TalendProject.review_with_info depth None false proj).
Qed.

(** X20.  The mode [TREE] of the command line prints the empty mapping
    for every repository from which a project can be constructed. *)
Theorem main_TREE_prints_the_empty_mapping depth float src s :
  TalendProject.load float src = Ok tt s ->
  Review.main (S depth) float src "TREE" = Ok (Review.PTree []) s.
Proof.
  intros Hload. unfold Review.main. by rewrite Hload.
Qed.

Lemma main_TREE_prints_the_empty_mapping_witness :
  Review.main 3 Scenario.float
    (Scenario.provider Scenario.docA
       ["process/A_1.0.item"; "process/B_2.0.item"]) "TREE"
  = Ok (Review.PTree []) Scenario.two_jobs.
Proof.
  apply (main_TREE_prints_the_empty_mapping 2 Scenario.float
           (Scenario.provider Scenario.docA
              ["process/A_1.0.item"; "process/B_2.0.item"])
           Scenario.two_jobs).
  vm_compute. reflexivity.
Defined.

Lemma list_names_as_constructed float src s l : forall acc,
  as_constructed float src s ->
  (forall n, In n l ->
     In n (dict_keys (TalendProject.versions s)) /\
     PyStr.contains "item" n = false) ->
  for_acc
    (fun rev item =>
       let* p := TalendProject.getitem item in
       let* j := TalendProject.job_at p in
       ret (rev ++ [TalendJob.name j])) l acc s
  = Ok (acc ++ l) s.
Proof.
  induction l as [|n l IH]; intros acc Hc Hl; simpl.
  - by rewrite app_nil_r.
  - destruct (Hl n) as [Hin Hitem]; [by left |].
    destruct (getitem_as_constructed float src s n Hc Hin Hitem)
      as (p & m & Hg & Hj & Hn & _).
    unfold bind at 1. unfold bind at 1. rewrite Hg.
    unfold bind at 1, TalendProject.job_at, bind at 1, get, lift, dict_item.
    rewrite Hj. unfold ret at 1. cbn [unparsed_job TalendJob.name].
    rewrite Hn, IH; [by rewrite <- app_assoc | done |].
    intros n' Hn'. apply Hl. by right.
Qed.

(** X21.  The mode [LIST] of the command line prints the job names of
    the registry, each once and in the order of the registry, provided
    no job name contains [item]; no job is parsed for it. *)
Theorem main_LIST_prints_the_registry_names depth float src s :
  TalendProject.load float src = Ok tt s ->
  (forall n, In n (dict_keys (TalendProject.versions s)) ->
             PyStr.contains "item" n = false) ->
  Review.main depth float src "LIST"
  = Ok (Review.PNames (dict_keys (TalendProject.versions s))) s /\
  NoDup (dict_keys (TalendProject.versions s)).
Proof.
  intros Hload Hnames.
  pose proof (load_as_constructed float src) as Hc.
  pose proof (load_versions_NoDup float src) as Hnd.
  rewrite Hload in Hc, Hnd. simpl in Hc, Hnd.
  split; [| done].
  unfold Review.main. rewrite Hload.
  cbn [String.eqb Ascii.eqb Bool.eqb]. cbv iota.
  unfold bind at 1, get at 1. unfold bind.
  rewrite (list_names_as_constructed float src s); [done | done |].
  intros n Hn. split; [done | by apply Hnames].
Qed.

Lemma main_LIST_prints_the_registry_names_witness :
  Review.main 3 Scenario.float
    (Scenario.provider Scenario.docA
       ["process/A_1.0.item"; "process/B_2.0.item"]) "LIST"
  = Ok (Review.PNames (dict_keys (TalendProject.versions Scenario.two_jobs)))
       Scenario.two_jobs /\
  NoDup (dict_keys (TalendProject.versions Scenario.two_jobs)).
Proof.
  apply (main_LIST_prints_the_registry_names 3 Scenario.float
           (Scenario.provider Scenario.docA
              ["process/A_1.0.item"; "process/B_2.0.item"])
           Scenario.two_jobs).
  - vm_compute. reflexivity.
  - vm_compute. intros n [<-|[<-|[]]]; reflexivity.
Defined.

(** ** Item paths *)

Lemma string_app_cons c (a b : string) :
  (String c a ++ b)%string = String c (a ++ b).
Proof. reflexivity. Qed.

Lemma string_app_nil_l (b : string) : ("" ++ b)%string = b.
Proof. reflexivity. Qed.

Lemma string_app_nil_r (s : string) : (s ++ "")%string = s.
Proof.
  induction s as [|c s IH]; [done |].
  by rewrite string_app_cons, IH.
Qed.

Lemma string_app_assoc (a b c : string) :
  ((a ++ b) ++ c)%string = (a ++ (b ++ c))%string.
Proof.
  induction a as [|x a IH]; [done |].
  by rewrite !string_app_cons, IH.
Qed.

Lemma string_app_length (a b : string) :
  String.length (a ++ b) = String.length a + String.length b.
Proof.
  induction a as [|x a IH]; [done |].
  rewrite string_app_cons. simpl. by rewrite IH.
Qed.

Lemma has_char_app c (a b : string) :
  PyStr.has_char c (a ++ b) = PyStr.has_char c a || PyStr.has_char c b.
Proof.
  induction a as [|x a IH]; [done |].
  rewrite string_app_cons. simpl. by rewrite IH, orb_assoc.
Qed.

Lemma rev_string_acc s : forall acc,
  PyStr.rev_string acc s = (PyStr.rev_string "" s ++ acc)%string.
Proof.
  induction s as [|c s IH]; intros acc; simpl; [done |].
  rewrite (IH (String c acc)), (IH (String c "")).
  by rewrite string_app_assoc.
Qed.

Lemma split_last_from_clean sep s : forall cur,
  PyStr.has_char sep s = false ->
  PyStr.split_last_from sep cur s = (PyStr.rev_string "" cur ++ s)%string.
Proof.
  induction s as [|c s IH]; intros cur; simpl.
  - by rewrite string_app_nil_r.
  - intros [Hc Hs]%orb_false_elim. rewrite Hc, IH by done.
    simpl. rewrite (rev_string_acc cur (String c "")).
    by rewrite string_app_assoc.
Qed.

Lemma split_last_after sep (pre s : string) : forall cur,
  PyStr.has_char sep s = false ->
  PyStr.split_last_from sep cur (pre ++ String sep s) = s.
Proof.
  induction pre as [|c pre IH]; intros cur Hs.
  - rewrite string_app_nil_l. simpl.
    rewrite Ascii.eqb_refl. by rewrite split_last_from_clean.
  - rewrite string_app_cons. simpl.
    destruct (Ascii.eqb c sep); by apply IH.
Qed.

Lemma substring_prefix (a b : string) :
  String.substring 0 (String.length a) (a ++ b) = a.
Proof.
  induction a as [|c a IH].
  - rewrite string_app_nil_l. by destruct b.
  - rewrite string_app_cons. simpl. by rewrite IH.
Qed.

(** X22.  Item paths are read by position.  For a path
    [DIR/NAME_VERSION.item] (no slash in the name or the version, no
    underscore in the version) the version text handed to [float] is
    [VERSION]; the job name is [NAME] when the version text is three
    characters long, and [NAME] followed by an underscore when it is
    four characters long. *)
Theorem item_paths_are_read_by_position (dir n v : string) :
  PyStr.has_char "/" n = false ->
  PyStr.has_char "/" v = false ->
  PyStr.has_char "_" v = false ->
  item_version_text (dir ++ "/" ++ n ++ "_" ++ v ++ ".item") = v /\
  (String.length v = 3 ->
   item_name (dir ++ "/" ++ n ++ "_" ++ v ++ ".item") = n) /\
  (String.length v = 4 ->
   item_name (dir ++ "/" ++ n ++ "_" ++ v ++ ".item") = (n ++ "_")%string).
Proof.
  intros Hn Hv Hu.
  assert (PyStr.split_last "/" (dir ++ "/" ++ n ++ "_" ++ v ++ ".item")
          = (n ++ "_" ++ v ++ ".item")%string) as Hslash.
  { unfold PyStr.split_last.
    change (dir ++ "/" ++ n ++ "_" ++ v ++ ".item")%string
      with (dir ++ String "/" (n ++ "_" ++ v ++ ".item"))%string.
    apply split_last_after.
    rewrite has_char_app, Hn.
    change ("_" ++ v ++ ".item")%string with (String "_" (v ++ ".item")).
    cbn [PyStr.has_char orb]. change (Ascii.eqb "_" "/") with false.
    cbn [orb]. by rewrite has_char_app, Hv. }
  assert (PyStr.split_last "_" (dir ++ "/" ++ n ++ "_" ++ v ++ ".item")
          = (v ++ ".item")%string) as Hunder.
  { unfold PyStr.split_last.
    replace (dir ++ "/" ++ n ++ "_" ++ v ++ ".item")%string
      with ((dir ++ "/" ++ n) ++ String "_" (v ++ ".item"))%string.
    2:{ rewrite !string_app_assoc. done. }
    apply split_last_after. by rewrite has_char_app, Hu. }
  unfold item_version_text, item_name. rewrite Hslash, Hunder.
  unfold PyStr.drop_last. split; [| split].
  - rewrite string_app_length. simpl String.length.
    replace (String.length v + 5 - 5) with (String.length v) by lia.
    apply substring_prefix.
  - intros Hl. rewrite !string_app_length, Hl. simpl String.length.
    replace (String.length n + (1 + (3 + 5)) - 9) with (String.length n)
      by lia.
    apply substring_prefix.
  - intros Hl.
    replace (n ++ "_" ++ v ++ ".item")%string
      with ((n ++ "_") ++ (v ++ ".item"))%string
      by (by rewrite string_app_assoc).
    rewrite (string_app_length (n ++ "_")), (string_app_length v), Hl.
    simpl (String.length ".item").
    replace (String.length (n ++ "_") + (4 + 5) - 9)
      with (String.length (n ++ "_")).
    2:{ lia. }
    apply substring_prefix.
Qed.

Lemma item_paths_are_read_by_position_witness :
  item_version_text ("process" ++ "/" ++ "B" ++ "_" ++ "2.0" ++ ".item")
  = "2.0" /\
  (String.length "2.0" = 3 ->
   item_name ("process" ++ "/" ++ "B" ++ "_" ++ "2.0" ++ ".item") = "B") /\
  (String.length "2.0" = 4 ->
   item_name ("process" ++ "/" ++ "B" ++ "_" ++ "2.0" ++ ".item")
   = ("B" ++ "_")%string).
Proof.
  apply (item_paths_are_read_by_position "process" "B" "2.0");
    reflexivity.
Defined.
